(** * Viewport synthesis for the OCR pretraining notebooks

    A shallow embedding of the dataset classes of the notebooks
    ([SegmentationDataset], [MultitaskPretrainingDataset],
    [RotationDataset]) and of the viewport renderer they call
    ([render.AgentView]), and of what the notebooks build around them:
    the split of the pages into a training and a test part, the
    transformer encoder and decoder, the combined losses and the list of
    page names.

    Numbers.  Python integers are [Z].  A Python float is a double, hence
    a rational: the values drawn from [np.random.rand()] and the
    arithmetic the datasets do on them are written over [Q], without
    rounding, where the code rounds every sum and product to the nearest
    double.  Rounding to the nearest double keeps the order and keeps a
    double as it is, so a bound [<=] by a double that holds here holds
    of the rounded value too; a strict bound may be reached by rounding
    (0.25 + u * 0.5 is 0.75 and -1 - u * 2 is -3 in doubles at the last
    variate below 1), and where that can happen the properties below
    state the closed bound.  The renderer works with trigonometry and
    powers of two and is written over the reals [R]. *)

From Stdlib Require Import ZArith QArith Qround Qreals List Bool Lia Lra Psatz.
From Stdlib Require Import Reals Permutation.
From Stdlib Require String Ascii.
Import ListNotations.

Set Implicit Arguments.

(** ** Numeric conversions of Python and numpy *)

Module Num.

(** [int(x)] and [ndarray.astype(int)] on a float: truncation toward
    zero. *)
Definition int (x : Q) : Z :=
  if Qle_bool 0 x then Qfloor x else Qceiling x.

(** [x < y] on floats. *)
Definition ltb (x y : Q) : bool := negb (Qle_bool y x).

End Num.

(** ** numpy's global random generator

    The generator is the stream of variates it will still hand out; every
    call consumes the head.  [np.random.rand()] returns a double of the
    half-open interval [0, 1) ([valid]); the integer draws are read off
    one variate each. *)

Module Rng.

Definition rng := nat -> Q.

Definition valid (g : rng) : Prop := forall n, (0 <= g n /\ g n < 1)%Q.

Definition advance (g : rng) : rng := fun n => g (S n).

(** Computations that draw from the generator. *)
Definition M (A : Type) := rng -> A * rng.

Definition ret {A} (a : A) : M A := fun g => (a, g).

Definition bind {A B} (m : M A) (f : A -> M B) : M B :=
  fun g => let (a, g') := m g in f a g'.

(** [np.random.rand()] *)
Definition rand : M Q := fun g => (g 0%nat, advance g).

(** [np.random.randint(lo, hi)]: an integer of [lo, hi). *)
Definition randint (lo hi : Z) : M Z :=
  fun g => ((lo + Qfloor (g 0%nat * inject_Z (hi - lo)))%Z, advance g).

(** [np.random.choice(l)] *)
Definition choice (l : list Z) : M Z :=
  fun g =>
    (nth (Z.to_nat (Qfloor (g 0%nat * inject_Z (Z.of_nat (length l))))) l 0%Z,
     advance g).

End Rng.

Declare Scope rng_scope.
Delimit Scope rng_scope with rng.
Notation "x <- m ;; k" := (Rng.bind m (fun x => k))
  (at level 61, m at next level, right associativity) : rng_scope.
Notation "' pat <- m ;; k" := (Rng.bind m (fun x => match x with pat => k end))
  (at level 61, pat pattern, m at next level, right associativity) : rng_scope.

(** ** The renderer: [scripts/render.py]

    The notebooks import [render.AgentView]; its module is not among the
    notebooks.  The definitions of this module follow the written
    description of the renderer: raster space, viewport transform,
    resampling and boundary policy. *)

Module Render.

Local Open Scope R_scope.

(** A raster is a numpy array of shape H x W x C (C = 1 for a
    grayscale page), a patch an array of shape
    view_size x view_size x C. *)
Definition Raster := list (list (list Z)).
Definition ViewPatch := list (list (list R)).

Definition height (a : Raster) : Z := Z.of_nat (length a).
Definition width (a : Raster) : Z := Z.of_nat (length (hd [] a)).
Definition depth (a : Raster) : nat := length (hd [] (hd [] a)).

(** [a[r, c, k]] for indices inside the array. *)
Definition sample (a : Raster) (r c : Z) (k : nat) : Z :=
  nth k (nth (Z.to_nat c) (nth (Z.to_nat r) a []) []) 0%Z.

(** An array of shape n x n whose entry (i, j) is [f i j], and the entry
    (i, j) of an array. *)
Definition tabulate {A} (n : nat) (f : nat -> nat -> A) : list (list A) :=
  map (fun i => map (f i) (seq 0 n)) (seq 0 n).

Definition entry {A} (d : A) (m : list (list A)) (i j : nat) : A :=
  nth j (nth i m []) d.

(** Modelled from the spec: [ViewportState], the value
    {center, rotation in degrees, zoom exponent} the missing module
    [scripts/render.py] renders for.  The notebooks pass an integer
    center, an integer rotation and a float zoom. *)
Record ViewportState := mkState {
  center : Z * Z;
  rotation : Z;
  zoom : Q
}.

(** Modelled from the spec: the state of an [AgentView] of the missing
    module [scripts/render.py]: the bound raster, the view size, the
    fill value and the last state. *)
Record AgentView := mkView {
  raster : Raster;
  view_size : nat;
  bias : R;
  last : option ViewportState
}.

(** Modelled from the spec: [RasterSpace.center] of the missing module
    [scripts/render.py]; the center of the canvas [0,H) x [0,W) is
    (H/2, W/2). *)
Definition space_center (a : Raster) : Q * Q :=
  (inject_Z (height a) / 2, inject_Z (width a) / 2)%Q.

(** Modelled from the spec: the canvas bounds [0,H) x [0,W) of
    [RasterSpace] in the missing module [scripts/render.py]. *)
Definition in_canvas (a : Raster) (p : R * R) : Prop :=
  (0 <= fst p < IZR (height a)) /\ (0 <= snd p < IZR (width a)).

Definition in_canvas_dec (a : Raster) (p : R * R) :
  {in_canvas a p} + {~ in_canvas a p}.
Proof.
  unfold in_canvas.
  destruct (Rle_dec 0 (fst p)); [|right; tauto].
  destruct (Rlt_dec (fst p) (IZR (height a))); [|right; tauto].
  destruct (Rle_dec 0 (snd p)); [|right; tauto].
  destruct (Rlt_dec (snd p) (IZR (width a))); [|right; tauto].
  left; tauto.
Defined.

(** Modelled from the spec: the scale 2^(-zoom) of [ViewportTransform]
    in the missing module [scripts/render.py]. *)
Definition scale (st : ViewportState) : R := Rpower 2 (- Q2R (zoom st)).

(** Modelled from the spec: the angle of [ViewportTransform] in the
    missing module [scripts/render.py]: minus the rotation, in radians. *)
Definition angle (st : ViewportState) : R := - (IZR (rotation st) * PI / 180).

(** Modelled from the spec: the patch center of [ViewportTransform] in
    the missing module [scripts/render.py], taken as the index
    view_size / 2, the way the page center is taken. *)
Definition patch_center (vs : nat) : Z := (Z.of_nat vs / 2)%Z.

(** Modelled from the spec: [ViewportTransform] of the missing module
    [scripts/render.py].  A point of the output patch is taken relative
    to the patch center, scaled by 2^(-zoom), rotated by -rotation
    degrees about the patch center, and translated by the state's
    center. *)
Definition to_source (vs : nat) (st : ViewportState) (p q : R) : R * R :=
  let u := scale st * (p - IZR (patch_center vs)) in
  let v := scale st * (q - IZR (patch_center vs)) in
  (IZR (fst (center st)) + (cos (angle st) * u - sin (angle st) * v),
   IZR (snd (center st)) + (sin (angle st) * u + cos (angle st) * v)).

(** Modelled from the spec: [ViewportTransform] of the missing module
    [scripts/render.py] at the output pixel (i, j). *)
Definition transform (vs : nat) (st : ViewportState) (i j : nat) : R * R :=
  to_source vs st (IZR (Z.of_nat i)) (IZR (Z.of_nat j)).

(** Modelled from the spec: [FieldOfView], the square of side
    view_size * 2^(-zoom) that a patch of the missing module
    [scripts/render.py] covers on the page. *)
Definition field_of_view (vs : nat) (st : ViewportState) (pt : R * R) : Prop :=
  exists p q, 0 <= p <= INR vs /\ 0 <= q <= INR vs /\ pt = to_source vs st p q.


(** Modelled from the spec: the boundary policy of [AgentView] in the
    missing module [scripts/render.py]: a sample outside the canvas is
    the fill value, nothing is reflected or clamped. *)
Definition inside (a : Raster) (r c : Z) : bool :=
  ((0 <=? r) && (r <? height a) && (0 <=? c) && (c <? width a))%Z.

Definition fetch (a : Raster) (fill : R) (k : nat) (r c : Z) : R :=
  if inside a r c then IZR (sample a r c k) else fill.

(** Modelled from the spec: the resampling of [AgentView] in the missing
    module [scripts/render.py]: bilinear interpolation over the four
    nearest samples, the same for continuous and for class channels. *)
Definition bilinear (a : Raster) (fill : R) (k : nat) (p : R * R) : R :=
  let r0 := Zfloor (fst p) in
  let c0 := Zfloor (snd p) in
  let fr := fst p - IZR r0 in
  let fc := snd p - IZR c0 in
  (1 - fr) * (1 - fc) * fetch a fill k r0 c0
  + fr * (1 - fc) * fetch a fill k (r0 + 1) c0
  + (1 - fr) * fc * fetch a fill k r0 (c0 + 1)
  + fr * fc * fetch a fill k (r0 + 1) (c0 + 1).

(** Modelled from the spec: one channel of one output pixel of
    [AgentView] in the missing module [scripts/render.py]: the fill
    value for a source location outside the canvas, the interpolated
    value inside. *)
Definition resample (a : Raster) (fill : R) (k : nat) (p : R * R) : R :=
  if in_canvas_dec a p then bilinear a fill k p else fill.

Definition render_pixel (v : AgentView) (st : ViewportState) (i j : nat) : list R :=
  map (fun k => resample (raster v) (bias v) k (transform (view_size v) st i j))
      (seq 0 (depth (raster v))).

(** Modelled from the spec: [AgentView.apply_state] of the missing
    module [scripts/render.py]: the patch for a given state. *)
Definition apply_state (v : AgentView) (st : ViewportState) : ViewPatch :=
  tabulate (view_size v) (render_pixel v st).

(** Modelled from the spec: [AgentView.render] of the missing module
    [scripts/render.py]. *)
Definition render (v : AgentView) (c : Z * Z) (r : Z) (z : Q) : ViewPatch :=
  apply_state v (mkState c r z).

(** Modelled from the spec: [AgentView.set_state] of the missing module
    [scripts/render.py]: [render], and the state is kept as the last
    state. *)
Definition set_state (v : AgentView) (c : Z * Z) (r : Z) (z : Q)
  : ViewPatch * AgentView :=
  (apply_state v (mkState c r z),
   mkView (raster v) (view_size v) (bias v) (Some (mkState c r z))).

(** [np.std]: the population standard deviation of all entries. *)
Definition flatten (p : ViewPatch) : list R := concat (concat p).

Definition total (l : list R) : R := fold_right Rplus 0 l.

Definition mean (l : list R) : R := total l / INR (length l).

Definition variance (l : list R) : R :=
  total (map (fun x => (x - mean l) * (x - mean l)) l) / INR (length l).

Definition std (p : ViewPatch) : R := sqrt (variance (flatten p)).

(** *** The direct way to a patch: slice the array and turn it

    These are numpy's own operations on the source array, written on
    the lists that hold it; nothing of the renderer enters them. *)






(** *** What a view covers after quarter turns *)



(** An offset from the patch center after [r] degrees, [r] a whole
    number of quarter turns. *)
Definition quarter (r : Z) (u v : Z) : Z * Z :=
  if (r =? 0)%Z then (u, v)
  else if (r =? 90)%Z then (v, (- u)%Z)
  else if (r =? 180)%Z then ((- u)%Z, (- v)%Z)
  else ((- v)%Z, u).

(** *** Shapes of rasters and patches *)

(** A raster that holds [x] in every cell. *)
Definition uniform (a : Raster) (x : Z) : Prop :=
  forall r c k, inside a r c = true -> sample a r c k = x.


(** A patch that holds one value in every entry. *)
Definition constant_patch (n depth : nat) (x : R) : ViewPatch :=
  tabulate n (fun _ _ => repeat x depth).

(** Two views over the same raster, with the same size and fill value. *)
Definition same_member (v v' : AgentView) : Prop :=
  raster v = raster v' /\ view_size v = view_size v' /\ bias v = bias v'.

(** A small page of two rows and two columns, and a view of it. *)
Definition page_2x2 : Raster := [[[1]; [2]]; [[3]; [4]]]%Z.

Definition view_2x2 (fill : R) : AgentView := mkView page_2x2 2 fill None.



End Render.

(** ** What the datasets do with a rendered patch *)

Module Target.

Local Open Scope R_scope.

(** [view / 255.] *)
Definition div255 (p : Render.ViewPatch) : Render.ViewPatch :=
  map (map (map (fun x => x / 255))) p.

(** One entry of [(view/255. > 0.25).astype(int)]. *)
Definition above (x : R) : Z := if Rlt_dec 0.25 (x / 255) then 1%Z else 0%Z.

(** One entry of [view/255. >= 0.25]. *)
Definition at_least (x : R) : Z := if Rle_dec 0.25 (x / 255) then 1%Z else 0%Z.

(** [np.argmax] of a vector: the first index that holds the maximum. *)
Fixpoint argmax_from (best : Z) (at_best next : nat) (l : list Z) : nat :=
  match l with
  | [] => at_best
  | x :: t =>
      if (best <? x)%Z then argmax_from x next (S next) t
      else argmax_from best at_best (S next) t
  end.

Definition argmax (l : list Z) : nat :=
  match l with
  | [] => 0%nat
  | x :: t => argmax_from x 0 1 t
  end.

(** The class of one pixel: channel 0 of [Y1] stays zero, channels
    [1:] hold the thresholded mask view, and the class is the argmax
    over the channels. *)
Definition label (px : list R) : Z := Z.of_nat (argmax (0%Z :: map above px)).

(** [Y1 = np.argmax(Y1, axis=2)] after [Y1[:,:,1:] = view]. *)
Definition segmentation_target (p : Render.ViewPatch) : list (list Z) :=
  map (map label) p.

(** [Y2 = (view/255. >= 0.25).squeeze()] for a one-channel view. *)
Definition value_target (p : Render.ViewPatch) : list (list Z) :=
  map (map (fun px => at_least (hd 0 px))) p.

(** [np.zeros((view_size, view_size))] *)
Definition zeros (n : nat) : list (list Z) := Render.tabulate n (fun _ _ => 0%Z).

(** [f] over a list, as far as nothing is raised. *)
Fixpoint each {A B} (f : A -> option B) (l : list A) : option (list B) :=
  match l with
  | [] => Some []
  | x :: t =>
      match f x, each f t with
      | Some y, Some r => Some (y :: r)
      | _, _ => None
      end
  end.

(** [np.eye(n)[m]]: row [m] of the identity matrix; a negative index
    counts from the last row, and an index outside [-n, n) raises an
    [IndexError], here [None]. *)
Definition eye_row (n : nat) (m : Z) : option (list Z) :=
  if ((- Z.of_nat n <=? m) && (m <? Z.of_nat n))%Z then
    let i := if (m <? 0)%Z then (m + Z.of_nat n)%Z else m in
    Some (map (fun k => if (i =? Z.of_nat k)%Z then 1%Z else 0%Z) (seq 0 n))
  else None.

(** [(np.eye(n)[mask][:,:,1:] > 0) * 255]: one 0/255 channel per class
    1 .. n-1 of the class-index mask; [None] when an entry of the mask
    is no index of [np.eye(n)]. *)
Definition class_channels (n : nat) (mask : list (list Z)) : option Render.Raster :=
  each (each (fun m =>
          option_map (fun row => map (fun x => if (0 <? x)%Z then 255%Z else 0%Z)
                                     (tl row))
                     (eye_row n m))) mask.

(** [255 - orig] *)
Definition inverted (orig : list (list Z)) : Render.Raster :=
  map (map (fun v => [(255 - v)%Z])) orig.

(** [(view).astype(np.uint8)] of the noisy page. *)
Definition grayscale (img : list (list Z)) : Render.Raster :=
  map (map (fun v => [(v mod 256)%Z])) img.

(** A mask of three rows and one column with two classes, the middle
    row of class 1, its class channels and the view of them. *)
Definition strip_mask : list (list Z) := [[0]; [1]; [0]]%Z.

Definition strip_classes : Render.Raster := [[[0]]; [[255]]; [[0]]]%Z.

Definition strip_view : Render.AgentView := Render.mkView strip_classes 2 0 None.

End Target.

(** ** [SegmentationDataset]: page-aligned viewports with a small skew

    The bodies of [random_viewport], [__len__] and [__getitem__] are
    embedded as they are written.  The [def] line of [__init__] does not
    parse as it stands (a second colon follows the annotation of its
    parameter [max_skew]), and its body never reads or stores that
    parameter: [__init__] is not embedded, and a dataset is the record
    of the attributes its body sets.  [__getitem__] reads [max_skew] as a
    bare name, which Python looks up among the globals; no cell of the
    notebook binds it, and what it is bound to is a parameter of
    [getitem]. *)

Module SegmentationDataset.

Import Rng.
Local Open Scope rng_scope.
Local Open Scope Q_scope.

(** The attributes [__init__] sets. *)
Record t := mk {
  view_size : nat;
  max_samples : nat;
  view : Render.AgentView;
  segmentation : Render.AgentView;
  value : Render.AgentView
}.

(** The rotations of a page-aligned viewport. *)
Definition aligned : list Z := [0; 90; 180; 270]%Z.

(** [random_viewport]: aligned view-port, only a small skew considered. *)
Definition random_viewport (d : t) : M (Z * Z * Z * Q) :=
  u <- rand ;;
  let c := Render.space_center (Render.raster (view d)) in
  let center := (Num.int (fst c * (0.1 + u * 1.8)),
                 Num.int (snd c * (0.1 + u * 1.8))) in
  rotation <- choice aligned ;;
  w <- rand ;;
  let zoom := -1 - w * 2.5 in
  ret (center, rotation, zoom).

(** [int(np.random.rand() * max_skew - max_skew)] *)
Definition skew (m u : Q) : Z := Num.int (u * m - m).

Definition with_view (d : t) (v : Render.AgentView) : t :=
  mk (view_size d) (max_samples d) v (segmentation d) (value d).

Definition with_segmentation (d : t) (v : Render.AgentView) : t :=
  mk (view_size d) (max_samples d) (view d) v (value d).

Definition with_value (d : t) (v : Render.AgentView) : t :=
  mk (view_size d) (max_samples d) (view d) (segmentation d) v.

(** The loop [while std < 10] of [__getitem__].  [std] starts at 0, so
    the body runs at least once: a viewport is drawn and the input view
    rendered for it, and the loop goes on while the standard deviation
    of the view is below 10.  [fuel] counts the iterations looked at;
    [None] says that the loop is still running after that many. *)
Fixpoint draw (fuel : nat) (d : t)
  : M (option (Z * Z * Z * Q * Render.ViewPatch * t)) :=
  match fuel with
  | O => ret None
  | S fuel' =>
      ' (center, rotation, zoom) <- random_viewport d ;;
      let (patch, v) := Render.set_state (view d) center rotation zoom in
      if Rlt_dec (Render.std patch) 10 then draw fuel' (with_view d v)
      else ret (Some (center, rotation, zoom, patch, with_view d v))
  end.

Section Collaborators.

(** The tensor type, [Normalize] and [make_negative_sample] come from
    the modules the notebook imports. *)
Variable Tensor : Type.
Variable transform : Render.ViewPatch -> Tensor.
Variable make_negative_sample : nat -> M Render.ViewPatch.

(** What the global name [max_skew] is bound to when [__getitem__]
    reads it; [None] when it is unbound.  No cell of the notebook binds
    it. *)
Variable max_skew : option Q.

Record Sample := mkSample {
  X : Tensor;
  Y1 : list (list Z);
  Y2 : list (list Z);
  Y3 : Z
}.

(** How a call of [__getitem__] ends: with a sample, or with the
    [NameError] of the unbound name. *)
Inductive result :=
| Returned (s : Sample)
| NameError.

(** The lines of [__getitem__] below the skew: the three views are set
    to the state (center, rotation, zoom) one after the other, and the
    sample is made of their patches and of the orientation [y3]. *)
Definition render_sample (d : t) (center : Z * Z) (rotation : Z) (zoom : Q) (y3 : Z)
  : Sample * t :=
  let (xv, v1) := Render.set_state (view d) center rotation zoom in
  let d2 := with_view d v1 in
  let (sv, v2) := Render.set_state (segmentation d2) center rotation zoom in
  let d3 := with_segmentation d2 v2 in
  let (vv, v3) := Render.set_state (value d3) center rotation zoom in
  let d4 := with_value d3 v3 in
  (mkSample (transform (Target.div255 xv))
            (Target.segmentation_target sv)
            (Target.value_target vv)
            y3, d4).

(** [__getitem__].  The result comes with the dataset as the call
    leaves it.  In the line of the skew the variate is drawn before the
    name [max_skew] is looked up. *)
Definition getitem (fuel : nat) (d : t) : M (option (result * t)) :=
  u <- rand ;;
  if Num.ltb u 0.2 then
    neg <- make_negative_sample (view_size d) ;;
    let Y := Target.zeros (view_size d) in
    ret (Some (Returned (mkSample (transform (Target.div255 neg)) Y Y 0), d))
  else
    r <- draw fuel d ;;
    match r with
    | None => ret None
    | Some (center, rotation, zoom, _, d1) =>
        let y3 := (rotation / 90 + 1)%Z in
        w <- rand ;;
        match max_skew with
        | None => ret (Some (NameError, d1))
        | Some m =>
            let rotation' := (rotation + skew m w)%Z in
            let (s, d4) := render_sample d1 center rotation' zoom y3 in
            ret (Some (Returned s, d4))
        end
    end.

Definition len (d : t) : nat := max_samples d.

End Collaborators.

(** The variates a viewport takes from the generator. *)
Definition viewport_of (d : t) (g : rng) : Z * Z * Z * Q :=
  let c := Render.space_center (Render.raster (view d)) in
  ((Num.int (fst c * (0.1 + g 0%nat * 1.8)), Num.int (snd c * (0.1 + g 0%nat * 1.8))),
   fst (choice aligned (advance g)),
   (-1 - g 2%nat * 2.5)%Q).

Definition remember (v : Render.AgentView) (st : Render.ViewportState) : Render.AgentView :=
  Render.mkView (Render.raster v) (Render.view_size v) (Render.bias v) (Some st).


(** The generator after one pass of the loop, the viewport of pass [k]
    and the input view for it. *)
Definition next_draw (g : rng) : rng := advance (advance (advance g)).

Definition candidate (d : t) (g : rng) (k : nat) : Z * Z * Z * Q :=
  viewport_of d (Nat.iter k next_draw g).

Definition candidate_view (d : t) (g : rng) (k : nat) : Render.ViewPatch :=
  let '(c, r, z) := candidate d g k in Render.render (view d) c r z.

Definition rejected (d : t) (g : rng) (k : nat) : Prop :=
  (Render.std (candidate_view d g k) < 10)%R.

End SegmentationDataset.

(** ** [MultitaskPretrainingDataset]: random viewports of a page *)

Module MultitaskPretrainingDataset.

Import Rng.
Local Open Scope rng_scope.
Local Open Scope Q_scope.

Record t := mk {
  view_size : nat;
  max_samples : nat;
  alignment_threshold : Q;
  unknown_fraction : Q;
  aligned_fraction : Q;
  view : Render.AgentView;
  segmentation : Render.AgentView;
  value : Render.AgentView
}.

Definition aligned : list Z := [0; 90; 180; 270]%Z.

(** [random_viewport]: coverage and consistency. *)
Definition random_viewport (d : t) : M (Z * Z * Z * Q) :=
  u <- rand ;;
  let c := Render.space_center (Render.raster (view d)) in
  let center := (Num.int (fst c * (0.25 + u * 1.5)),
                 Num.int (snd c * (0.25 + u * 1.5))) in
  a <- rand ;;
  rotation <- (if Num.ltb a (aligned_fraction d) then choice aligned
               else randint 0 360) ;;
  w <- rand ;;
  let zoom := w * 4.0 - 3.5 in
  ret (center, rotation, zoom).

(** The loop [while std < 10] of [__getitem__]; see
    [SegmentationDataset.draw] for the reading of [fuel]. *)
Fixpoint draw (fuel : nat) (d : t)
  : M (option (Z * Z * Z * Q * Render.ViewPatch)) :=
  match fuel with
  | O => ret None
  | S fuel' =>
      ' (center, rotation, zoom) <- random_viewport d ;;
      let patch := Render.render (view d) center rotation zoom in
      if Rlt_dec (Render.std patch) 10 then draw fuel' d
      else ret (Some (center, rotation, zoom, patch))
  end.

(** The alignment target: 2 for a straight view, 1 otherwise. *)
Definition alignment (threshold : Q) (rotation : Z) : Z :=
  let d := (rotation mod 90)%Z in
  ((if Qle_bool (inject_Z (Z.min d (90 - d))) threshold then 1 else 0) + 1)%Z.

Section Collaborators.

Variable Tensor : Type.
Variable transform : Render.ViewPatch -> Tensor.
Variable make_negative_sample : nat -> M Render.ViewPatch.

Record Sample := mkSample {
  X : Tensor;
  Y1 : list (list Z);
  Y2 : list (list Z);
  Y3 : Z;
  Y4 : Z
}.

(** [__getitem__] *)
Definition getitem (fuel : nat) (d : t) : M (option Sample) :=
  u <- rand ;;
  if Num.ltb u (unknown_fraction d) then
    neg <- make_negative_sample (view_size d) ;;
    let Y := Target.zeros (view_size d) in
    ret (Some (mkSample (transform neg) Y Y 0 360))
  else
    r <- draw fuel d ;;
    match r with
    | None => ret None
    | Some (center, rotation, zoom, patch) =>
        let sv := Render.render (segmentation d) center rotation zoom in
        let vv := Render.render (value d) center rotation zoom in
        ret (Some (mkSample (transform patch)
                            (Target.segmentation_target sv)
                            (Target.value_target vv)
                            (alignment (alignment_threshold d) rotation)
                            rotation))
    end.

Definition len (d : t) : nat := max_samples d.

End Collaborators.

(** [__init__], from the decoded page [orig], its noisy version and the
    class-index mask; [n] is [len(ORDER)], [fill] the fill value an
    [AgentView] takes when none is given.  The fill of the input view is
    drawn before the class raster is built; [None] is the [IndexError]
    of a mask entry that is no class. *)
Definition init (noisy orig mask : list (list Z)) (n : nat) (fill : Render.Raster -> R)
    (view_size max_samples : nat)
    (alignment_threshold aligned_fraction unknown_fraction : Q) : M (option t) :=
  b <- randint 0 100 ;;
  match Target.class_channels n mask with
  | None => ret None
  | Some a =>
      ret (Some
        (mk view_size max_samples alignment_threshold unknown_fraction aligned_fraction
            (Render.mkView (Target.grayscale noisy) view_size (IZR b) None)
            (Render.mkView a view_size (fill a) None)
            (let a := Target.inverted orig in
             Render.mkView a view_size (fill a) None)))
  end.

(** The variates a viewport takes from the generator, and the generator
    after one pass of the loop. *)
Definition viewport_of (d : t) (g : rng) : Z * Z * Z * Q :=
  let c := Render.space_center (Render.raster (view d)) in
  ((Num.int (fst c * (0.25 + g 0%nat * 1.5)), Num.int (snd c * (0.25 + g 0%nat * 1.5))),
   fst ((if Num.ltb (g 1%nat) (aligned_fraction d) then choice aligned
         else randint 0 360) (advance (advance g))),
   (g 3%nat * 4.0 - 3.5)%Q).

Definition next_draw (g : rng) : rng := advance (advance (advance (advance g))).

(** The viewport of pass [k] of the loop and the input view for it. *)
Definition candidate (d : t) (g : rng) (k : nat) : Z * Z * Z * Q :=
  viewport_of d (Nat.iter k next_draw g).

Definition candidate_view (d : t) (g : rng) (k : nat) : Render.ViewPatch :=
  let '(c, r, z) := candidate d g k in Render.render (view d) c r z.

Definition rejected (d : t) (g : rng) (k : nat) : Prop :=
  (Render.std (candidate_view d g k) < 10)%R.

End MultitaskPretrainingDataset.

(** ** [RotationDataset]: free viewports around the page center

    The factor 0.25 + u * 0.5 of the center and the zoom -1 - u * 2 are
    exact here and rounded in the code: they stay within [0.25, 0.75]
    and [-3, -1] there, and reach 0.75 and -3. *)

Module RotationDataset.

Import Rng.
Local Open Scope rng_scope.
Local Open Scope Q_scope.

Record t := mk {
  num_steps : nat;
  nav : Render.AgentView
}.

(** One pass of the loop body of [__getitem__] up to the rendering. *)
Definition random_viewport (d : t) : M (Z * Z * Z * Q) :=
  rotation <- randint 0 360 ;;
  u <- rand ;;
  v <- rand ;;
  let c := Render.space_center (Render.raster (nav d)) in
  let center := (Num.int (fst c * (0.25 + u * 0.5)),
                 Num.int (snd c * (0.25 + v * 0.5))) in
  w <- rand ;;
  let zoom := -1 - w * 2 in
  ret (center, rotation, zoom).

(** The loop [while std < 10] of [__getitem__]. *)
Fixpoint draw (fuel : nat) (d : t)
  : M (option (Z * Z * Z * Q * Render.ViewPatch)) :=
  match fuel with
  | O => ret None
  | S fuel' =>
      ' (center, rotation, zoom) <- random_viewport d ;;
      let observation := Render.render (nav d) center rotation zoom in
      if Rlt_dec (Render.std observation) 10 then draw fuel' d
      else ret (Some (center, rotation, zoom, observation))
  end.

(** The regression target, a float of [-1, 1]. *)
Definition regression (rotation : Z) : Q :=
  if (180 <? rotation)%Z then - (360 - inject_Z rotation) / 180
  else inject_Z rotation / 180.

Section Collaborators.

Variable Tensor : Type.
Variable transform : Render.ViewPatch -> Tensor.

Record Sample := mkSample {
  X : Tensor;
  Y1 : Z;
  Y2 : Q
}.

(** [__getitem__] *)
Definition getitem (fuel : nat) (d : t) : M (option Sample) :=
  r <- draw fuel d ;;
  match r with
  | None => ret None
  | Some (_, rotation, _, observation) =>
      ret (Some (mkSample (transform observation) rotation (regression rotation)))
  end.

Definition len (d : t) : nat := num_steps d.

End Collaborators.

(** [__init__]: the viewport walks the inverted page. *)
Definition init (page : list (list Z)) (fill : Render.Raster -> R)
    (view_size max_samples : nat) : t :=
  let a := Target.inverted page in
  mk max_samples (Render.mkView a view_size (fill a) None).

(** The variates a viewport takes from the generator, and the generator
    after one pass of the loop. *)
Definition viewport_of (d : t) (g : rng) : Z * Z * Z * Q :=
  let c := Render.space_center (Render.raster (nav d)) in
  ((Num.int (fst c * (0.25 + g 1%nat * 0.5)), Num.int (snd c * (0.25 + g 2%nat * 0.5))),
   fst (randint 0 360 g),
   (-1 - g 3%nat * 2)%Q).

Definition next_draw (g : rng) : rng := advance (advance (advance (advance g))).

(** The viewport of pass [k] of the loop and the observation for it. *)
Definition candidate (d : t) (g : rng) (k : nat) : Z * Z * Z * Q :=
  viewport_of d (Nat.iter k next_draw g).

Definition candidate_view (d : t) (g : rng) (k : nat) : Render.ViewPatch :=
  let '(c, r, z) := candidate d g k in Render.render (nav d) c r z.

Definition rejected (d : t) (g : rng) (k : nat) : Prop :=
  (Render.std (candidate_view d g k) < 10)%R.

End RotationDataset.

(** ** Two pages to run the datasets on

    A white page of four rows and four columns with one dark dot in the
    last cell, and a page that is black all over. *)

Module Pages.

Definition dot_page : list (list Z) :=
  [[255; 255; 255; 255]; [255; 255; 255; 255];
   [255; 255; 255; 255]; [255; 255; 255; 0]]%Z.

Definition dot_mask : list (list Z) :=
  [[0; 0; 0; 0]; [0; 0; 0; 0]; [0; 0; 0; 0]; [0; 0; 0; 1]]%Z.

Definition black_page : list (list Z) :=
  [[0; 0; 0; 0]; [0; 0; 0; 0]; [0; 0; 0; 0]; [0; 0; 0; 0]]%Z.

Definition no_mask : list (list Z) :=
  [[0; 0; 0; 0]; [0; 0; 0; 0]; [0; 0; 0; 0]; [0; 0; 0; 0]]%Z.

(** The class channels of the two masks, for two classes. *)
Definition dot_classes : Render.Raster :=
  [[[0]; [0]; [0]; [0]]; [[0]; [0]; [0]; [0]];
   [[0]; [0]; [0]; [0]]; [[0]; [0]; [0]; [255]]]%Z.

Definition no_classes : Render.Raster :=
  [[[0]; [0]; [0]; [0]]; [[0]; [0]; [0]; [0]];
   [[0]; [0]; [0]; [0]]; [[0]; [0]; [0]; [0]]]%Z.

(** The generator that hands out the variates of [l] and 0.5 ever after. *)
Definition stream (l : list Q) : Rng.rng := fun n => nth n l 0.5%Q.

(** The fill value of a view that is given none. *)
Definition no_fill (a : Render.Raster) : R := 0%R.

(** The datasets of view size 2 over the two pages, with two classes:
    the input view of the page with the dot fills with 30, that of the
    black page with 0. *)
Definition dot_segmentation : SegmentationDataset.t :=
  SegmentationDataset.mk 2 8
    (Render.mkView (Target.grayscale dot_page) 2 30 None)
    (Render.mkView dot_classes 2 0 None)
    (Render.mkView (Target.inverted dot_page) 2 0 None).

Definition black_segmentation : SegmentationDataset.t :=
  SegmentationDataset.mk 2 8
    (Render.mkView (Target.grayscale black_page) 2 0 None)
    (Render.mkView no_classes 2 0 None)
    (Render.mkView (Target.inverted black_page) 2 0 None).

Definition dot_multitask : MultitaskPretrainingDataset.t :=
  MultitaskPretrainingDataset.mk 2 8 0 0 0.2
    (Render.mkView (Target.grayscale dot_page) 2 30 None)
    (Render.mkView dot_classes 2 0 None)
    (Render.mkView (Target.inverted dot_page) 2 0 None).

Definition black_multitask : MultitaskPretrainingDataset.t :=
  MultitaskPretrainingDataset.mk 2 8 0 0 0.2
    (Render.mkView (Target.grayscale black_page) 2 0 None)
    (Render.mkView no_classes 2 0 None)
    (Render.mkView (Target.inverted black_page) 2 0 None).

Definition dot_rotation : RotationDataset.t :=
  RotationDataset.init dot_page no_fill 2 8.

(** Collaborators that leave a patch as it is. *)
Definition plain (p : Render.ViewPatch) : Render.ViewPatch := p.

Definition noise (n : nat) : Rng.M Render.ViewPatch :=
  Rng.ret (Render.constant_patch n 1 0%R).

(** A page of 256 rows and columns that holds 100 everywhere but for a
    block of ten rows and columns of 200 around (128, 128), and a view of
    side 32 of it. *)
Definition block_page : Render.Raster :=
  Render.tabulate 256 (fun i j =>
    [if ((123 <=? i) && (i <=? 132) && (123 <=? j) && (j <=? 132))%nat
     then 200%Z else 100%Z]).

Definition block_view : Render.AgentView := Render.mkView block_page 32 0%R None.

(** A page that is white all over, and the walk over it. *)
Definition white_page : list (list Z) :=
  [[255; 255; 255; 255]; [255; 255; 255; 255];
   [255; 255; 255; 255]; [255; 255; 255; 255]]%Z.

Definition white_rotation : RotationDataset.t :=
  RotationDataset.init white_page no_fill 2 8.

End Pages.

(** ** The split of the pages into a training and a test part *)

Module Split.

Import Rng.
Local Open Scope rng_scope.

Section Samples.

(** The samples are file names; all that is used of them is that two
    can be told apart. *)
Variable A : Type.
Variable eq_dec : forall x y : A, {x = y} + {x <> y}.

(** [np.random.choice(pool, k, replace=False)] for k <= len(pool): k
    entries of the pool, taken at positions that are all different.
    Each position is one integer draw among the entries not taken
    yet. *)
Fixpoint choice_distinct (k : nat) (pool : list A) : M (list A) :=
  match k, pool with
  | S k', x0 :: _ =>
      i <- randint 0 (Z.of_nat (length pool)) ;;
      let j := Z.to_nat i in
      rest <- choice_distinct k' (firstn j pool ++ skipn (S j) pool) ;;
      ret (nth j pool x0 :: rest)
  | _, _ => ret []
  end.

(** [list(set(l1).difference(set(l2)))]: the entries of [l1] that are
    not in [l2], each once.  Python does not fix the order of the
    list. *)
Definition difference (l1 l2 : list A) : list A :=
  filter (fun x => if in_dec eq_dec x l2 then false else true) (nodup eq_dec l1).

(** [int(len(samples) * 0.95)] *)
Definition train_size (samples : list A) : nat :=
  Z.to_nat (Num.int (inject_Z (Z.of_nat (length samples)) * 0.95)).

(** [train_samples] and [test_samples]. *)
Definition train_test_split (samples : list A) : M (list A * list A) :=
  train_samples <- choice_distinct (train_size samples) samples ;;
  ret (train_samples, difference samples train_samples).

End Samples.

End Split.

(** ** The transformer encoder and decoder of the segmentation notebook

    The layers themselves (attention, MLP, linear maps, the patch
    embedding) are torch modules with trained weights; what is written
    out here is how [forward] of each class passes the tensors between
    them, and what it does with the list of outputs. *)

Module Transformer.

(** What a [forward] can raise. *)
Inductive error := AssertionError | TypeError | IndexError.

Inductive result (A : Type) :=
| Ok (a : A)
| Raise (e : error).

Arguments Ok {A} a.
Arguments Raise {A} e.

Definition bind {A B} (m : result A) (f : A -> result B) : result B :=
  match m with
  | Ok a => f a
  | Raise e => Raise e
  end.

Declare Scope result_scope.
Delimit Scope result_scope with result.
Notation "x <- m ;; k" := (bind m (fun x => k))
  (at level 61, m at next level, right associativity) : result_scope.
Notation "' pat <- m ;; k" := (bind m (fun x => match x with pat => k end))
  (at level 61, pat pattern, m at next level, right associativity) : result_scope.

Local Open Scope nat_scope.
Local Open Scope result_scope.

Section Layers.

(** Views (b x c x h x w), token sequences (b x n x e), embeddings, and
    the two tensor operations of [TransformerBlock.forward]: [x + y] and
    [torch.cat((p, x), dim=2)]. *)
Variable View : Type.
Variable Tokens : Type.
Variable Embedding : Type.
Variable add : Tokens -> Tokens -> Tokens.
Variable cat : Tokens -> Tokens -> Tokens.

(** The layers one block is built from. *)
Record Layers := mkLayers {
  attention : Tokens -> Tokens;
  perceptron : Tokens -> Tokens;
  linear : Tokens -> Tokens
}.

Record TransformerBlock := mkBlock {
  attn : Tokens -> Tokens;
  mlp : Tokens -> Tokens;
  merge : option (Tokens -> Tokens)
}.

(** [TransformerBlock.__init__]: [merge] is a linear layer if [bridge]
    and [None] otherwise. *)
Definition new_block (bridge : bool) (l : Layers) : TransformerBlock :=
  mkBlock (attention l) (perceptron l) (if bridge then Some (linear l) else None).

(** [TransformerBlock.forward(x, pass_through=None)]; [torch.cat] of
    [None] and a tensor raises a [TypeError]. *)
Definition block_forward (b : TransformerBlock) (x : Tokens) (pass_through : option Tokens)
  : result Tokens :=
  x <- match merge b with
       | Some m =>
           match pass_through with
           | Some p => Ok (m (cat p x))
           | None => Raise TypeError
           end
       | None => Ok x
       end ;;
  let x := add x (attn b x) in
  let x := add x (mlp b x) in
  Ok x.

Record TransformerEncoder := mkEncoder {
  sequence : View -> Tokens;
  encoder_blocks : list TransformerBlock;
  depth : nat
}.

(** [TransformerEncoder.__init__]: [depth] blocks without bridge. *)
Definition new_encoder (sequence : View -> Tokens) (layers : nat -> Layers) (depth : nat)
  : TransformerEncoder :=
  mkEncoder sequence (map (fun i => new_block false (layers i)) (seq 0 depth)) depth.

(** The loop of [TransformerEncoder.forward]: its state is [x] and the
    list of outputs. *)
Fixpoint down (blocks : list TransformerBlock) (x : Tokens) (outputs : list Tokens)
  : result (Tokens * list Tokens) :=
  match blocks with
  | [] => Ok (x, outputs)
  | block :: blocks' =>
      x <- block_forward block x None ;;
      down blocks' x (outputs ++ [x])
  end.

(** [TransformerEncoder.forward] *)
Definition encoder_forward (e : TransformerEncoder) (x : View) : result (list Tokens) :=
  ' (_, outputs) <- down (encoder_blocks e) (sequence e x) [] ;;
  Ok outputs.

(** [outputs.pop()]: the last entry, and the list that is left; an
    [IndexError] on the empty list. *)
Definition pop (outputs : list Tokens) : result (Tokens * list Tokens) :=
  match rev outputs with
  | [] => Raise IndexError
  | x :: r => Ok (x, rev r)
  end.

Record TransformerDecoder := mkDecoder {
  decoder_blocks : list TransformerBlock;
  unpatch : Tokens -> View
}.

(** [TransformerDecoder.__init__]: [depth] blocks, bridged or not. *)
Definition new_decoder (unpatch : Tokens -> View) (layers : nat -> Layers) (depth : nat)
    (bridge : bool) : TransformerDecoder :=
  mkDecoder (map (fun i => new_block bridge (layers i)) (seq 0 depth)) unpatch.

(** The loop of [TransformerDecoder.forward]. *)
Fixpoint up (blocks : list TransformerBlock) (x : Tokens) (outputs : list Tokens)
  : result (Tokens * list Tokens) :=
  match blocks with
  | [] => Ok (x, outputs)
  | block :: blocks' =>
      ' (p, outputs) <- pop outputs ;;
      x <- block_forward block x (Some p) ;;
      up blocks' x outputs
  end.

(** [TransformerDecoder.forward(outputs)].  The list is the caller's and
    [pop] takes its entries away: the result comes with what is left of
    the list. *)
Definition decoder_forward (d : TransformerDecoder) (outputs : list Tokens)
  : result (View * list Tokens) :=
  if Nat.eqb (length outputs) (length (decoder_blocks d) + 1) then
    ' (x, outputs) <- pop outputs ;;
    ' (x, outputs) <- up (decoder_blocks d) x outputs ;;
    Ok (unpatch d x, outputs)
  else Raise AssertionError.

(** [UNet]: [nn.Sequential] of the encoder, a decoder of
    [encoder.depth - 1] blocks and a softmax.  A depth of 0 gives
    [range(-1)], no block, as the subtraction on [nat] does. *)
Record UNet := mkUNet {
  unet_encoder : TransformerEncoder;
  unet_decoder : TransformerDecoder;
  unet_softmax : View -> View
}.

Definition new_unet (encoder : TransformerEncoder) (unpatch : Tokens -> View)
    (layers : nat -> Layers) (softmax : View -> View) (bridge : bool) : UNet :=
  mkUNet encoder (new_decoder unpatch layers (depth encoder - 1) bridge) softmax.

Definition unet_forward (u : UNet) (x : View) : result View :=
  outputs <- encoder_forward (unet_encoder u) x ;;
  ' (y, _) <- decoder_forward (unet_decoder u) outputs ;;
  Ok (unet_softmax u y).

(** [VisualEncoder.forward]: the bottleneck of the encoder's outputs,
    reduced and squeezed. *)
Definition visual_forward (e : TransformerEncoder) (reduce : Tokens -> Embedding)
    (squeeze : Embedding -> Embedding) (x : View) : result Embedding :=
  outputs <- encoder_forward e x ;;
  ' (x, _) <- pop outputs ;;
  Ok (squeeze (reduce x)).

(** [get_vit_decoder]: [nn.Sequential] of a [TransformerDecoder] and a
    softmax. *)
Definition vit_decoder (d : TransformerDecoder) (softmax : View -> View)
    (outputs : list Tokens) : result (View * list Tokens) :=
  ' (y, outputs) <- decoder_forward d outputs ;;
  Ok (softmax y, outputs).

(** [e[-1]] *)
Definition last_output (e : list Tokens) : result Tokens :=
  ' (x, _) <- pop e ;;
  Ok x.

(** [MultitaskUNet.forward].  Each decoder is handed [e[:]], a copy of
    the list of the backbone's outputs; what it leaves of the copy is
    dropped. *)
Definition multitask_forward
    (backbone : View -> result (list Tokens))
    (segmentation value : list Tokens -> result (View * list Tokens))
    (alignment rotation : Tokens -> Embedding)
    (x : View) : result (View * View * Embedding * Embedding) :=
  e <- backbone x ;;
  embedding <- last_output e ;;
  ' (segmentation, _) <- segmentation e ;;
  ' (value, _) <- value e ;;
  let alignment := alignment embedding in
  let rotation := rotation embedding in
  Ok (segmentation, value, alignment, rotation).

End Layers.

End Transformer.

(** ** The combined losses of the rotation notebook

    The task losses are torch criteria; a loss value is taken as a
    real number.  [None] stands for an exception: an index out of range,
    or [torch.stack] of an empty list. *)

Module Loss.

Local Open Scope R_scope.

Section Criteria.

Variable Pred : Type.
Variable Target : Type.

(** [torch.sum(torch.stack(losses))] *)
Definition sum_stack (losses : list R) : option R :=
  match losses with
  | [] => None
  | _ => Some (fold_right Rplus 0 losses)
  end.

(** The loop of a [forward]: for the criterion at index [i], the loss
    of [preds[i]] and [targets[i]], combined with entry [i] of the
    weights by [term]. *)
Fixpoint losses_from (term : R -> R -> R) (i : nat)
    (criteria : list (Pred -> Target -> R)) (weights : list R)
    (preds : list Pred) (targets : list Target) : option (list R) :=
  match criteria with
  | [] => Some []
  | criterion :: criteria' =>
      match nth_error preds i, nth_error targets i, nth_error weights i with
      | Some p, Some t, Some w =>
          match losses_from term (S i) criteria' weights preds targets with
          | Some losses => Some (term w (criterion p t) :: losses)
          | None => None
          end
      | _, _, _ => None
      end
  end.

Record CombinedLoss := mkCombined {
  combined_criteria : list (Pred -> Target -> R);
  weights : list R
}.

(** [CombinedLoss.__init__] asserts that there is one weight for each
    criterion. *)
Definition new_combined (criteria : list (Pred -> Target -> R)) (weights : list R)
  : option CombinedLoss :=
  if Nat.eqb (length criteria) (length weights)
  then Some (mkCombined criteria weights) else None.

(** One entry of the losses of [CombinedLoss.forward]. *)
Definition weighted (w loss : R) : R := loss * w.

Definition combined_forward (c : CombinedLoss) (preds : list Pred) (targets : list Target)
  : option R :=
  match losses_from weighted 0 (combined_criteria c) (weights c) preds targets with
  | Some losses => sum_stack losses
  | None => None
  end.

Record HydraLoss := mkHydra {
  hydra_criteria : list (Pred -> Target -> R);
  log_vars : list R
}.

(** [HydraLoss.__init__]: the trainable [log_vars] start at zero. *)
Definition new_hydra (criteria : list (Pred -> Target -> R)) : HydraLoss :=
  mkHydra criteria (repeat 0 (length criteria)).

(** One entry of the losses of [HydraLoss.forward]. *)
Definition uncertainty (log_var loss : R) : R := exp (- log_var) * loss + log_var.

Definition hydra_forward (h : HydraLoss) (preds : list Pred) (targets : list Target)
  : option R :=
  match losses_from uncertainty 0 (hydra_criteria h) (log_vars h) preds targets with
  | Some losses => sum_stack losses
  | None => None
  end.

End Criteria.

End Loss.

(** ** The list of page names *)

Module Listing.

Import Ascii String.
Local Open Scope string_scope.

(** [s.split(sep)] for a separator of one character. *)
Fixpoint split (sep : ascii) (s : string) : list string :=
  match s with
  | EmptyString => [EmptyString]
  | String c t =>
      if Ascii.eqb c sep then EmptyString :: split sep t
      else match split sep t with
           | h :: r => String c h :: r
           | [] => [String c EmptyString]
           end
  end.

(** [str(x).split('/').pop()] *)
Definition file_name (x : string) : string := last (split "/" x) EmptyString.

(** [[str(x).split('/').pop() for x in paths
      if not str(x).startswith('data/masks/que-')]] *)
Definition names (paths : list string) : list string :=
  map file_name (filter (fun x => negb (prefix "data/masks/que-" x)) paths).

(** Whether a character occurs in a string. *)
Fixpoint occurs (c : ascii) (s : string) : bool :=
  match s with
  | EmptyString => false
  | String a t => Ascii.eqb a c || occurs c t
  end.

End Listing.

(** * Properties *)

(** ** Conversions and the generator *)

Module NumFacts.

Import Num.

Lemma ltb_lt x y : ltb x y = true <-> (x < y)%Q.
Proof.
  unfold ltb. rewrite negb_true_iff. split; intro H.
  - apply Qnot_le_lt. intro L. apply Qle_bool_iff in L. congruence.
  - destruct (Qle_bool y x) eqn:E; [|reflexivity].
    apply Qle_bool_iff in E. exfalso. exact (Qlt_not_le _ _ H E).
Qed.

Lemma ltb_ge x y : ltb x y = false <-> (y <= x)%Q.
Proof.
  unfold ltb. rewrite negb_false_iff. apply Qle_bool_iff.
Qed.

Lemma int_nonneg x : (0 <= x)%Q -> int x = Qfloor x.
Proof.
  intro H. unfold int. apply Qle_bool_iff in H. now rewrite H.
Qed.

Lemma int_neg x : (x < 0)%Q -> int x = Qceiling x.
Proof.
  intro H. unfold int. destruct (Qle_bool 0 x) eqn:E; [|reflexivity].
  apply Qle_bool_iff in E. exfalso. exact (Qlt_not_le _ _ H E).
Qed.

End NumFacts.

Module RngFacts.

Import Rng.

Lemma valid_advance g : valid g -> valid (advance g).
Proof. intros H n. apply H. Qed.

Lemma scaled_floor_range (u : Q) (n : Z) :
  (0 < n)%Z -> (0 <= u)%Q -> (u < 1)%Q ->
  (0 <= Qfloor (u * inject_Z n) < n)%Z.
Proof.
  intros Hn H0 H1. split.
  - rewrite <- (Qfloor_Z 0). apply Qfloor_resp_le.
    apply Qmult_le_0_compat; [exact H0|].
    change 0%Q with (inject_Z 0). rewrite <- Zle_Qle. lia.
  - assert (L : (u * inject_Z n < inject_Z n)%Q).
    { rewrite <- (Qmult_1_l (inject_Z n)) at 2.
      apply Qmult_lt_compat_r; [|exact H1].
      change 0%Q with (inject_Z 0). rewrite <- Zlt_Qlt. lia. }
    pose proof (Qfloor_le (u * inject_Z n)) as F.
    rewrite Zlt_Qlt. eapply Qle_lt_trans; eassumption.
Qed.

Lemma randint_range lo hi g :
  valid g -> (lo < hi)%Z -> (lo <= fst (randint lo hi g) < hi)%Z.
Proof.
  intros V H. unfold randint. cbn [fst].
  destruct (V 0%nat) as [H0 H1].
  assert (Hw : (0 < hi - lo)%Z) by lia.
  pose proof (scaled_floor_range Hw H0 H1). lia.
Qed.

Lemma choice_In l g :
  valid g -> l <> [] -> In (fst (choice l g)) l.
Proof.
  intros V Hl. unfold choice. cbn [fst]. apply nth_In.
  destruct (V 0%nat) as [H0 H1].
  assert (Hlen : (0 < Z.of_nat (length l))%Z).
  { destruct l; [congruence|simpl; lia]. }
  pose proof (scaled_floor_range Hlen H0 H1). lia.
Qed.

End RngFacts.

(** ** Arrays *)

Module ArrayFacts.

Import Render.


Lemma entry_tabulate {A} (d : A) n f i j :
  (i < n)%nat -> (j < n)%nat -> entry d (tabulate n f) i j = f i j.
Proof.
  intros Hi Hj. unfold entry, tabulate.
  rewrite (nth_indep _ [] (map (f 0%nat) (seq 0 n)))
    by (now rewrite length_map, length_seq).
  rewrite (map_nth (fun i => map (f i) (seq 0 n)) (seq 0 n) 0%nat i).
  rewrite seq_nth by assumption. simpl.
  rewrite (nth_indep _ d (f i 0%nat)) by (now rewrite length_map, length_seq).
  rewrite (map_nth (f i) (seq 0 n) 0%nat j).
  now rewrite seq_nth.
Qed.

Lemma tabulate_ext {A} n (f g : nat -> nat -> A) :
  (forall i j, (i < n)%nat -> (j < n)%nat -> f i j = g i j) ->
  tabulate n f = tabulate n g.
Proof.
  intro H. unfold tabulate.
  apply map_ext_in. intros i Hi. apply in_seq in Hi.
  apply map_ext_in. intros j Hj. apply in_seq in Hj.
  apply H; lia.
Qed.

End ArrayFacts.

(** ** The skew of [SegmentationDataset] *)

Module SkewFacts.

Import SegmentationDataset.
Local Open Scope Q_scope.

Lemma scaled_variate_range (m u : Q) :
  0 < m -> 0 <= u -> u < 1 -> - m <= u * m - m /\ u * m - m < 0.
Proof.
  intros Hm H0 H1.
  assert (E : u * m - m == (u - 1) * m) by ring.
  split.
  - rewrite E. setoid_replace (- m) with ((0 - 1) * m) by ring.
    apply Qmult_le_compat_r; [|apply Qlt_le_weak; exact Hm].
    apply Qplus_le_l with (z := 1). ring_simplify. exact H0.
  - rewrite E. setoid_replace 0 with (0 * m) by ring.
    apply Qmult_lt_compat_r; [exact Hm|].
    apply Qplus_lt_l with (z := 1). ring_simplify. exact H1.
Qed.

Lemma skew_ceiling (m u : Q) :
  0 < m -> 0 <= u -> u < 1 -> skew m u = Qceiling (u * m - m).
Proof.
  intros Hm H0 H1. unfold skew. apply NumFacts.int_neg.
  now apply scaled_variate_range.
Qed.

Lemma skew_nonpos (m u : Q) :
  0 < m -> 0 <= u -> u < 1 -> (skew m u <= 0)%Z.
Proof.
  intros Hm H0 H1. rewrite (skew_ceiling Hm H0 H1).
  rewrite <- (Qceiling_Z 0). apply Qceiling_resp_le.
  apply Qlt_le_weak. now apply scaled_variate_range.
Qed.

Lemma skew_lower (m u : Q) :
  0 < m -> 0 <= u -> u < 1 -> - m <= inject_Z (skew m u).
Proof.
  intros Hm H0 H1. rewrite (skew_ceiling Hm H0 H1).
  eapply Qle_trans; [|apply Qle_ceiling].
  now apply scaled_variate_range.
Qed.

Lemma skew_lower_strict (m u : Q) :
  0 < m -> 0 < u -> u < 1 -> - m < inject_Z (skew m u).
Proof.
  intros Hm H0 H1.
  rewrite (skew_ceiling Hm (Qlt_le_weak _ _ H0) H1).
  eapply Qlt_le_trans; [|apply Qle_ceiling].
  assert (P : 0 < u * m) by (apply Qmult_lt_0_compat; assumption).
  lra.
Qed.

Example skew_half : skew 3 0.5 = (-1)%Z.
Proof. reflexivity. Qed.

Example skew_almost_one : skew 3 0.999 = 0%Z.
Proof. reflexivity. Qed.

Example skew_small : skew 3 0.001 = (-2)%Z.
Proof. reflexivity. Qed.

(** C9, as stated, fails at one variate: [np.random.rand()] may return
    0.0, and then the skew is -max_skew itself, outside the half-open
    interval (-max_skew, 0]. *)
Lemma skew_reaches_minus_max_skew :
  Rng.valid (fun _ => 0) /\ skew 3 0 = (-3)%Z /\ ~ (-3 < skew 3 0 <= 0)%Z.
Proof.
  split; [|split].
  - intro n. split; [apply Qle_refl | reflexivity].
  - reflexivity.
  - change (skew 3 0) with (-3)%Z. lia.
Qed.

(** C9 (amended): for every variate u of [0, 1) and every max_skew > 0
    the skew [int(u * max_skew - max_skew)] is an integer of the closed
    interval [-max_skew, 0], and it is above -max_skew whenever u > 0; it
    is never positive, so the rendered rotation never exceeds the base
    angle. *)
Theorem skew_never_positive (m u : Q) (rotation : Z) :
  0 < m -> 0 <= u -> u < 1 ->
  - m <= inject_Z (skew m u) /\ (skew m u <= 0)%Z /\
  (0 < u -> - m < inject_Z (skew m u)) /\
  (rotation + skew m u <= rotation)%Z.
Proof.
  intros Hm H0 H1.
  pose proof (skew_nonpos Hm H0 H1) as Hn.
  repeat split.
  - now apply skew_lower.
  - exact Hn.
  - intro Hu. now apply skew_lower_strict.
  - lia.
Qed.

Lemma skew_never_positive_witness :
  - 3 <= inject_Z (skew 3 0.5) /\ (skew 3 0.5 <= 0)%Z /\
  (0 < 0.5 -> - 3 < inject_Z (skew 3 0.5)) /\
  (90 + skew 3 0.5 <= 90)%Z.
Proof.
  apply (@skew_never_positive 3 0.5 90%Z); reflexivity || (intro H; discriminate H).
Defined.

End SkewFacts.

(** ** [SegmentationDataset.__getitem__] *)

Module SegmentationFacts.

Import Rng SegmentationDataset.

Lemma same_member_refl v : Render.same_member v v.
Proof. repeat split. Qed.

Lemma same_member_trans u v w : Render.same_member u v -> Render.same_member v w -> Render.same_member u w.
Proof. intros (A & B & C) (A' & B' & C'). repeat split; congruence. Qed.

Lemma apply_state_same v v' st :
  Render.same_member v v' -> Render.apply_state v st = Render.apply_state v' st.
Proof.
  destruct v as [a n b l], v' as [a' n' b' l']. unfold Render.same_member. simpl.
  intros (-> & -> & ->). reflexivity.
Qed.

Lemma segmentation_random_viewport_eq d g :
  random_viewport d g = (viewport_of d g, advance (advance (advance g))).
Proof. reflexivity. Qed.

Lemma segmentation_draw_step fuel d g :
  draw (S fuel) d g =
  let '(c, r, z) := viewport_of d g in
  let g' := advance (advance (advance g)) in
  let p := Render.apply_state (view d) (Render.mkState c r z) in
  let d' := with_view d (remember (view d) (Render.mkState c r z)) in
  if Rlt_dec (Render.std p) 10 then draw fuel d' g'
  else (Some (c, r, z, p, d'), g').
Proof.
  change (draw (S fuel) d g) with
    (let (x, g') := random_viewport d g in
     (let '(center, rotation, zoom) := x in
      let (patch, v) := Render.set_state (view d) center rotation zoom in
      if Rlt_dec (Render.std patch) 10 then draw fuel (with_view d v)
      else ret (Some (center, rotation, zoom, patch, with_view d v))) g').
  rewrite segmentation_random_viewport_eq.
  destruct (viewport_of d g) as [[c r] z]. unfold Render.set_state, remember.
  cbv zeta. destruct (Rlt_dec _ 10); reflexivity.
Qed.

Lemma viewport_rotation d g :
  valid g -> In (snd (fst (viewport_of d g))) aligned.
Proof.
  intro V. unfold viewport_of. cbn [fst snd].
  apply RngFacts.choice_In; [now apply RngFacts.valid_advance | discriminate].
Qed.

(** What the loop hands over when it ends. *)
Lemma draw_accepts fuel : forall d g c r z p d1 g1,
  valid g ->
  draw fuel d g = (Some (c, r, z, p, d1), g1) ->
  In r aligned /\
  ~ (Render.std p < 10)%R /\
  p = Render.apply_state (view d) (Render.mkState c r z) /\
  Render.same_member (view d) (view d1) /\
  segmentation d1 = segmentation d /\
  value d1 = value d /\
  view_size d1 = view_size d /\
  Render.last (view d1) = Some (Render.mkState c r z) /\
  valid g1.
Proof.
  induction fuel as [|fuel IH]; intros d g c r z p d1 g1 V H.
  - discriminate H.
  - rewrite segmentation_draw_step in H.
    pose proof (viewport_rotation d V) as Hr.
    destruct (viewport_of d g) as [[c0 r0] z0]. cbn [fst snd] in Hr. cbv zeta in H.
    destruct (Rlt_dec _ 10) as [Hlt|Hge].
    + apply IH in H; [|now repeat apply RngFacts.valid_advance].
      destruct H as (A & B & C & D & E & F & G & I & J).
      split; [exact A|]. split; [exact B|].
      split; [rewrite C; apply apply_state_same; repeat split|].
      split; [exact D|]. tauto.
    + inversion H; subst.
      split; [exact Hr|]. split; [exact Hge|]. split; [reflexivity|].
      split; [repeat split|].
      repeat (split; [reflexivity|]).
      now repeat apply RngFacts.valid_advance.
Qed.

(** A page all of whose views are rejected keeps the loop running. *)
Lemma segmentation_draw_never_returns d :
  (forall c r z, (Render.std (Render.render (view d) c r z) < 10)%R) ->
  forall fuel d' g, Render.same_member (view d) (view d') -> fst (draw fuel d' g) = None.
Proof.
  intros Hblank fuel. induction fuel as [|fuel IH]; intros d' g Hm; [reflexivity|].
  rewrite segmentation_draw_step. destruct (viewport_of d' g) as [[c r] z]. cbv zeta.
  destruct (Rlt_dec _ 10) as [_|N].
  - apply IH. destruct Hm as (A & B & C). repeat split; assumption.
  - exfalso. apply N. rewrite <- (apply_state_same _ Hm). apply Hblank.
Qed.

Lemma segmentation_viewport_same d0 d g :
  Render.same_member (view d0) (view d) -> viewport_of d g = viewport_of d0 g.
Proof. intros (A & _). unfold viewport_of. now rewrite A. Qed.

Lemma segmentation_candidate_shift d g k :
  candidate d g (S k) = candidate d (next_draw g) k.
Proof. unfold candidate. now rewrite Nat.iter_succ_r. Qed.

Lemma segmentation_rejected_shift d g k :
  rejected d g (S k) <-> rejected d (next_draw g) k.
Proof. unfold rejected, candidate_view. now rewrite segmentation_candidate_shift. Qed.

(** The loop ends with the first viewport whose view is not rejected. *)
Lemma segmentation_draw_returns fuel : forall d0 d g x p d1 g',
  Render.same_member (view d0) (view d) ->
  draw fuel d g = (Some (x, p, d1), g') ->
  exists k, (k < fuel)%nat /\ (forall i, (i < k)%nat -> rejected d0 g i) /\
            ~ rejected d0 g k /\
            x = candidate d0 g k /\ p = candidate_view d0 g k /\
            g' = Nat.iter (S k) next_draw g.
Proof.
  induction fuel as [|fuel IH]; intros d0 d g x p d1 g' Hm H; [discriminate H|].
  rewrite segmentation_draw_step in H.
  assert (Hc : viewport_of d g = candidate d0 g 0)
    by (unfold candidate; cbn [Nat.iter nat_rect]; now apply segmentation_viewport_same).
  assert (Hv : candidate_view d0 g 0 =
               let '(c, r, z) := viewport_of d g in Render.render (view d) c r z).
  { unfold candidate_view. rewrite <- Hc. destruct (viewport_of d g) as [[c r] z].
    unfold Render.render. now apply apply_state_same. }
  revert H Hc Hv. destruct (viewport_of d g) as [[c r] z]. cbv beta iota zeta.
  intros H Hc Hv.
  change (Render.apply_state (view d) (Render.mkState c r z))
    with (Render.render (view d) c r z) in H.
  destruct (Rlt_dec _ 10) as [Hlt|Hge].
  - apply (IH d0) in H.
    2:{ destruct Hm as (A & B & C). repeat split; assumption. }
    destruct H as (k & Hk & Hrej & Hacc & -> & -> & ->).
    exists (S k). split; [lia|]. split; [|split; [|split; [|split]]].
    + intros [|i] Hi.
      * unfold rejected. rewrite Hv. exact Hlt.
      * apply (proj2 (segmentation_rejected_shift d0 g i)). apply Hrej. lia.
    + intro F. apply Hacc. exact (proj1 (segmentation_rejected_shift d0 g k) F).
    + now rewrite segmentation_candidate_shift.
    + unfold candidate_view. now rewrite segmentation_candidate_shift.
    + now rewrite (Nat.iter_succ_r (S k)).
  - inversion H; subst. exists 0%nat. split; [lia|]. split; [|split; [|split; [|split]]].
    + intros i Hi. lia.
    + unfold rejected. rewrite Hv. exact Hge.
    + exact Hc.
    + symmetry. exact Hv.
    + reflexivity.
Qed.

Lemma segmentation_draw_first_accepted fuel : forall d0 d g k,
  Render.same_member (view d0) (view d) ->
  (forall i, (i < k)%nat -> rejected d0 g i) -> ~ rejected d0 g k -> (k < fuel)%nat ->
  exists d1,
    draw fuel d g =
    (Some (candidate d0 g k, candidate_view d0 g k, d1), Nat.iter (S k) next_draw g).
Proof.
  induction fuel as [|fuel IH]; intros d0 d g k Hm Hrej Hacc Hk; [lia|].
  rewrite segmentation_draw_step.
  assert (Hc : viewport_of d g = candidate d0 g 0)
    by (unfold candidate; cbn [Nat.iter nat_rect]; now apply segmentation_viewport_same).
  assert (Hv : candidate_view d0 g 0 =
               let '(c, r, z) := viewport_of d g in Render.render (view d) c r z).
  { unfold candidate_view. rewrite <- Hc. destruct (viewport_of d g) as [[c r] z].
    unfold Render.render. now apply apply_state_same. }
  revert Hc Hv. destruct (viewport_of d g) as [[c r] z]. cbv beta iota zeta.
  intros Hc Hv.
  change (Render.apply_state (view d) (Render.mkState c r z))
    with (Render.render (view d) c r z).
  destruct k as [|k].
  - destruct (Rlt_dec _ 10) as [Hlt|Hge].
    + exfalso. apply Hacc. unfold rejected. rewrite Hv. exact Hlt.
    + eexists. rewrite <- Hc, Hv. reflexivity.
  - destruct (Rlt_dec _ 10) as [Hlt|Hge].
    + rewrite segmentation_candidate_shift.
      replace (candidate_view d0 g (S k)) with (candidate_view d0 (next_draw g) k)
        by (unfold candidate_view; now rewrite segmentation_candidate_shift).
      rewrite (Nat.iter_succ_r (S k)).
      apply IH; [| |intro F; apply Hacc; exact (proj2 (segmentation_rejected_shift d0 g k) F)
                | lia].
      * destruct Hm as (A & B & C). repeat split; assumption.
      * intros i Hi. apply (proj1 (segmentation_rejected_shift d0 g i)). apply Hrej. lia.
    + exfalso. apply Hge. rewrite <- Hv. apply (Hrej 0%nat). lia.
Qed.

Section Collaborators.

Variable Tensor : Type.
Variable transform : Render.ViewPatch -> Tensor.
Variable make_negative_sample : nat -> M Render.ViewPatch.
Variable max_skew : option Q.

Lemma getitem_waits fuel d g :
  Num.ltb (g 0%nat) 0.2 = false ->
  fst (draw fuel d (advance g)) = None ->
  fst (getitem transform make_negative_sample max_skew fuel d g) = None.
Proof.
  intros Hdoc H. unfold getitem, bind at 1, rand. rewrite Hdoc. unfold bind at 1.
  destruct (draw fuel d (advance g)) as [[x|] g1]; [discriminate H | reflexivity].
Qed.

(** The three views of a sample are set to one state, one after the
    other. *)
Lemma render_sample_eq d c r z y3 :
  let st := Render.mkState c r z in
  render_sample transform d c r z y3 =
  (mkSample (transform (Target.div255 (Render.apply_state (view d) st)))
            (Target.segmentation_target (Render.apply_state (segmentation d) st))
            (Target.value_target (Render.apply_state (value d) st))
            y3,
   mk (view_size d) (max_samples d)
      (remember (view d) st) (remember (segmentation d) st) (remember (value d) st)).
Proof. reflexivity. Qed.

(** An out-of-class sample is returned before the skew is looked at. *)
Lemma getitem_negative fuel d g :
  Num.ltb (g 0%nat) 0.2 = true ->
  getitem transform make_negative_sample max_skew fuel d g =
  (Some (Returned
           (mkSample
              (transform (Target.div255 (fst (make_negative_sample (view_size d)
                                                (advance g)))))
              (Target.zeros (view_size d)) (Target.zeros (view_size d)) 0), d),
   snd (make_negative_sample (view_size d) (advance g))).
Proof.
  intro Hneg. unfold getitem, bind at 1, rand. rewrite Hneg. unfold bind, ret.
  destruct (make_negative_sample _ (advance g)) as [neg g1]. reflexivity.
Qed.

(** A document sample: the loop, the orientation of the base rotation,
    the variate of the skew, and then the name [max_skew]. *)
Lemma getitem_document fuel d g :
  Num.ltb (g 0%nat) 0.2 = false ->
  getitem transform make_negative_sample max_skew fuel d g =
  match draw fuel d (advance g) with
  | (None, g1) => (None, g1)
  | (Some (c, r, z, _, d1), g1) =>
      match max_skew with
      | None => (Some (NameError Tensor, d1), advance g1)
      | Some m =>
          let (s, d4) := render_sample transform d1 c (r + skew m (g1 0%nat)) z
                           (r / 90 + 1) in
          (Some (Returned s, d4), advance g1)
      end
  end.
Proof.
  intro Hdoc. unfold getitem, bind at 1, rand. rewrite Hdoc. unfold bind at 1.
  destruct (draw fuel d (advance g)) as [[[[[[c r] z] p] d1]|] g1]; [|reflexivity].
  unfold bind, rand, ret. destruct max_skew as [m|]; reflexivity.
Qed.

End Collaborators.

End SegmentationFacts.

(** ** The viewport transform *)

Module TransformFacts.

Import Render.
Local Open Scope R_scope.

Lemma zoom_zero_scale st : (zoom st == 0)%Q -> scale st = 1.
Proof.
  intro H. unfold scale. rewrite (Qeq_eqR _ _ H), RMicromega.Q2R_0, Ropp_0.
  apply Rpower_O. lra.
Qed.

Lemma scale_pos st : 0 < scale st.
Proof. unfold scale, Rpower. apply exp_pos. Qed.

(** Cosine and sine of the angle of a state that is a whole number of
    quarter turns. *)
Lemma angle_0 c z : angle (mkState c 0 z) = - 0.
Proof. unfold angle. cbn [rotation]. f_equal. lra. Qed.

Lemma angle_90 c z : angle (mkState c 90 z) = - (PI / 2).
Proof. unfold angle. cbn [rotation]. f_equal. lra. Qed.

Lemma angle_180 c z : angle (mkState c 180 z) = - PI.
Proof. unfold angle. cbn [rotation]. f_equal. lra. Qed.

Lemma angle_270 c z : angle (mkState c 270 z) = - (3 * (PI / 2)).
Proof. unfold angle. cbn [rotation]. f_equal. lra. Qed.

Lemma quarter_turn_0 c z :
  cos (angle (mkState c 0 z)) = 1 /\ sin (angle (mkState c 0 z)) = 0.
Proof. rewrite angle_0, Ropp_0. split; [apply cos_0 | apply sin_0]. Qed.

Lemma quarter_turn_90 c z :
  cos (angle (mkState c 90 z)) = 0 /\ sin (angle (mkState c 90 z)) = -1.
Proof.
  rewrite angle_90, cos_neg, sin_neg, cos_PI2, sin_PI2. split; reflexivity.
Qed.

Lemma quarter_turn_180 c z :
  cos (angle (mkState c 180 z)) = -1 /\ sin (angle (mkState c 180 z)) = 0.
Proof.
  rewrite angle_180, cos_neg, sin_neg, cos_PI, sin_PI. split; lra.
Qed.

Lemma quarter_turn_270 c z :
  cos (angle (mkState c 270 z)) = 0 /\ sin (angle (mkState c 270 z)) = 1.
Proof.
  rewrite angle_270, cos_neg, sin_neg, cos_3PI2, sin_3PI2. split; lra.
Qed.

(** A full turn changes neither cosine nor sine. *)
Lemma angle_full_turn c r z :
  angle (mkState c (r + 360) z) = angle (mkState c r z) - 2 * PI.
Proof. unfold angle. cbn [rotation]. rewrite plus_IZR. lra. Qed.

Lemma cos_full_turn x : cos (x - 2 * PI) = cos x.
Proof.
  rewrite <- (cos_period (x - 2 * PI) 1). f_equal. simpl. lra.
Qed.

Lemma sin_full_turn x : sin (x - 2 * PI) = sin x.
Proof.
  rewrite <- (sin_period (x - 2 * PI) 1). f_equal. simpl. lra.
Qed.

Lemma to_source_full_turn vs c r z p q :
  to_source vs (mkState c (r + 360) z) p q = to_source vs (mkState c r z) p q.
Proof.
  unfold to_source. rewrite angle_full_turn, cos_full_turn, sin_full_turn.
  reflexivity.
Qed.

Lemma zoom_minus_one_scale st : (zoom st == -1)%Q -> scale st = 2.
Proof.
  intro H. unfold scale. rewrite (Qeq_eqR _ _ H).
  replace (- Q2R (-1)) with 1 by (unfold Q2R; simpl; lra).
  apply Rpower_1. lra.
Qed.

(** At a whole scale and a whole number of quarter turns the source
    location of a pixel is a sample position. *)
Lemma transform_quarter_scaled vs c r z s i j :
  In r [0; 90; 180; 270]%Z -> scale (mkState c r z) = IZR s ->
  let o := quarter r (Z.of_nat i - patch_center vs) (Z.of_nat j - patch_center vs) in
  transform vs (mkState c r z) i j =
  (IZR (fst c + s * fst o), IZR (snd c + s * snd o)).
Proof.
  intros Hr Hs. unfold transform, to_source.
  rewrite Hs. cbn [center].
  rewrite <- !minus_IZR.
  set (u := (Z.of_nat i - patch_center vs)%Z).
  set (v := (Z.of_nat j - patch_center vs)%Z).
  destruct Hr as [<-|[<-|[<-|[<-|[]]]]]; unfold quarter; cbn [Z.eqb Pos.eqb fst snd].
  - destruct (quarter_turn_0 c z) as [-> ->].
    rewrite !plus_IZR, !mult_IZR. f_equal; lra.
  - destruct (quarter_turn_90 c z) as [-> ->].
    rewrite !plus_IZR, !mult_IZR, opp_IZR. f_equal; lra.
  - destruct (quarter_turn_180 c z) as [-> ->].
    rewrite !plus_IZR, !mult_IZR, !opp_IZR. f_equal; lra.
  - destruct (quarter_turn_270 c z) as [-> ->].
    rewrite !plus_IZR, !mult_IZR, opp_IZR. f_equal; lra.
Qed.


End TransformFacts.

(** ** Resampling *)

Module ResampleFacts.

Import Render.
Local Open Scope R_scope.

Lemma inside_in_canvas a r c :
  inside a r c = true <-> in_canvas a (IZR r, IZR c).
Proof.
  unfold inside, in_canvas. cbn [fst snd].
  rewrite !andb_true_iff, !Z.leb_le, !Z.ltb_lt. split.
  - intros [[[A B] C] D]. repeat split;
      first [apply IZR_le; assumption | apply IZR_lt; assumption].
  - intros [[A B] [C D]]. repeat split;
      first [apply le_IZR; assumption | apply lt_IZR; assumption].
Qed.

(** Outside the canvas the fill value is returned, whatever the raster
    holds. *)
Lemma resample_outside a fill k p :
  ~ in_canvas a p -> resample a fill k p = fill.
Proof.
  intro H. unfold resample. destruct (in_canvas_dec a p); [contradiction|reflexivity].
Qed.

Lemma resample_inside a fill k p :
  in_canvas a p -> resample a fill k p = bilinear a fill k p.
Proof.
  intro H. unfold resample. destruct (in_canvas_dec a p); [reflexivity|contradiction].
Qed.

(** At a sample position nothing is interpolated. *)
Lemma bilinear_at_sample a fill k r c :
  bilinear a fill k (IZR r, IZR c) = fetch a fill k r c.
Proof.
  unfold bilinear. cbn [fst snd]. rewrite !ZfloorZ. ring.
Qed.

Lemma resample_at_sample a fill k r c :
  resample a fill k (IZR r, IZR c) = fetch a fill k r c.
Proof.
  unfold resample. destruct (in_canvas_dec a (IZR r, IZR c)) as [H|H].
  - apply bilinear_at_sample.
  - unfold fetch. destruct (inside a r c) eqn:E; [|reflexivity].
    apply inside_in_canvas in E. contradiction.
Qed.

(** The interpolation weights add up to one: a raster that holds one
    value everywhere, filled with that value, is rendered as that value. *)

Lemma fetch_uniform a x k r c : uniform a x -> fetch a (IZR x) k r c = IZR x.
Proof.
  intro U. unfold fetch. destruct (inside a r c) eqn:E; [|reflexivity].
  now rewrite (U r c k E).
Qed.

Lemma resample_uniform a x k p : uniform a x -> resample a (IZR x) k p = IZR x.
Proof.
  intro U. unfold resample. destruct (in_canvas_dec a p); [|reflexivity].
  unfold bilinear. rewrite !(fetch_uniform _ _ _ U). ring.
Qed.

(** Where the four samples around a location lie inside the canvas the
    fill value plays no part. *)



End ResampleFacts.

(** ** Rendering *)

Module RenderFacts.

Import Render.
Local Open Scope R_scope.

Lemma map_constant {A B} (x : B) (l : list A) :
  map (fun _ => x) l = repeat x (length l).
Proof. induction l as [|a l IH]; simpl; congruence. Qed.

Lemma render_pixel_quarter_scaled v c r z s i j :
  In r [0; 90; 180; 270]%Z -> scale (mkState c r z) = IZR s ->
  let o := quarter r (Z.of_nat i - patch_center (view_size v))
                     (Z.of_nat j - patch_center (view_size v)) in
  render_pixel v (mkState c r z) i j =
  map (fun k => fetch (raster v) (bias v) k (fst c + s * fst o) (snd c + s * snd o))
      (seq 0 (depth (raster v))).
Proof.
  intros Hr Hs o. unfold render_pixel.
  rewrite (@TransformFacts.transform_quarter_scaled (view_size v) c r z s i j Hr Hs).
  apply map_ext. intro k. apply ResampleFacts.resample_at_sample.
Qed.









Lemma render_quarter_scaled v c r z s :
  In r [0; 90; 180; 270]%Z -> scale (mkState c r z) = IZR s ->
  render v c r z =
  tabulate (view_size v) (fun i j =>
    let o := quarter r (Z.of_nat i - patch_center (view_size v))
                       (Z.of_nat j - patch_center (view_size v)) in
    map (fun k => fetch (raster v) (bias v) k (fst c + s * fst o) (snd c + s * snd o))
        (seq 0 (depth (raster v)))).
Proof.
  intros Hr Hs. unfold render, apply_state.
  apply ArrayFacts.tabulate_ext. intros i j _ _.
  now apply render_pixel_quarter_scaled.
Qed.




















(** C6: rotation wraps at 360 degrees: a state and the state a full turn
    further are rendered to the same patch, entry by entry, hence within
    every tolerance. *)
Theorem render_full_turn (v : AgentView) (c : Z * Z) (r : Z) (z : Q) :
  render v c (r + 360) z = render v c r z.
Proof.
  unfold render, apply_state. apply ArrayFacts.tabulate_ext. intros i j _ _.
  unfold render_pixel, transform.
  now rewrite TransformFacts.to_source_full_turn.
Qed.

Lemma pixel_in_field_of_view vs st i j :
  (i < vs)%nat -> (j < vs)%nat -> field_of_view vs st (transform vs st i j).
Proof.
  intros Hi Hj. exists (IZR (Z.of_nat i)), (IZR (Z.of_nat j)).
  unfold transform. rewrite <- !INR_IZR_INZ.
  split; [split; [apply pos_INR | apply le_INR; lia]|].
  split; [split; [apply pos_INR | apply le_INR; lia]|].
  reflexivity.
Qed.

(** C4: a source location outside the canvas is given the fill value
    [bias] whatever the raster holds (nothing is reflected or clamped
    into the page), and a state whose field of view lies outside the
    canvas is rendered to a patch that holds [bias] in every entry. *)
Theorem boundary_fill (v : AgentView) (st : ViewportState) :
  (forall k p, ~ in_canvas (raster v) p -> resample (raster v) (bias v) k p = bias v) /\
  ((forall pt, field_of_view (view_size v) st pt -> ~ in_canvas (raster v) pt) ->
   apply_state v st = constant_patch (view_size v) (depth (raster v)) (bias v)).
Proof.
  split.
  - intros k p H. now apply ResampleFacts.resample_outside.
  - intro Hout. unfold apply_state, constant_patch.
    apply ArrayFacts.tabulate_ext. intros i j Hi Hj. unfold render_pixel.
    transitivity (map (fun _ : nat => bias v) (seq 0 (depth (raster v)))).
    + apply map_ext. intro k.
      apply ResampleFacts.resample_outside. apply Hout.
      now apply pixel_in_field_of_view.
    + now rewrite map_constant, length_seq.
Qed.

Lemma boundary_fill_witness :
  apply_state (view_2x2 7) (mkState (-10, -10)%Z 45 0) = constant_patch 2 1 7.
Proof.
  apply (proj2 (boundary_fill (view_2x2 7) (mkState (-10, -10)%Z 45 0))).
  intros pt (p & q & Hp & Hq & ->) [[Hx _] _].
  unfold to_source in Hx. cbn [fst snd center view_size view_2x2] in Hx, Hp, Hq.
  rewrite (@TransformFacts.zoom_zero_scale (mkState (-10, -10)%Z 45 0)) in Hx
    by reflexivity.
  change (patch_center 2) with 1%Z in Hx.
  set (a := angle (mkState (-10, -10)%Z 45 0)) in Hx.
  pose proof (COS_bound a) as [C1 C2]. pose proof (SIN_bound a) as [S1 S2].
  simpl in Hp, Hq. nra.
Defined.

End RenderFacts.

(** ** Class channels and their targets *)

Module TargetFacts.

Import Render Target.
Local Open Scope R_scope.

Lemma each_Forall {A B} (f : A -> option B) (P : B -> Prop) (l : list A) :
  (forall x y, f x = Some y -> P y) ->
  forall r, each f l = Some r -> Forall P r.
Proof.
  intro H. induction l as [|x t IH]; intros r E; cbn [each] in E.
  - injection E as <-. constructor.
  - destruct (f x) as [y|] eqn:Fx; [|discriminate].
    destruct (each f t) as [r'|]; [|discriminate].
    injection E as <-. constructor; [now apply (H x) | now apply IH].
Qed.

Lemma each_Some {A B} (f : A -> option B) (l : list A) :
  Forall (fun x => f x <> None) l <-> each f l <> None.
Proof.
  induction l as [|x t IH]; cbn [each].
  - split; [discriminate | constructor].
  - split.
    + intro F. inversion F as [|? ? Hx Ht]; subst.
      apply IH in Ht.
      destruct (f x); [|contradiction]. destruct (each f t); [discriminate | contradiction].
    + intro E. destruct (f x) eqn:Fx; [|contradiction].
      constructor; [congruence|]. apply IH. destruct (each f t); [discriminate | contradiction].
Qed.

Lemma class_channels_cells n mask a :
  class_channels n mask = Some a ->
  Forall (Forall (Forall (fun x => x = 0%Z \/ x = 255%Z))) a.
Proof.
  unfold class_channels.
  apply each_Forall. intros row y. apply each_Forall. intros m cell E.
  destruct (eye_row n m) as [e|]; [|discriminate]. injection E as <-.
  apply Forall_map. apply Forall_forall. intros x _.
  destruct (0 <? x)%Z; [now right | now left].
Qed.

Lemma class_channels_binary n mask a r c k :
  class_channels n mask = Some a ->
  sample a r c k = 0%Z \/ sample a r c k = 255%Z.
Proof.
  intro E. apply class_channels_cells in E. unfold sample.
  rewrite Forall_forall in E.
  destruct (nth_in_or_default (Z.to_nat r) a []) as [Hr|Hr];
    [|rewrite Hr; destruct (Z.to_nat c); destruct k; now left].
  apply E in Hr. rewrite Forall_forall in Hr.
  destruct (nth_in_or_default (Z.to_nat c) (nth (Z.to_nat r) a []) []) as [Hc|Hc];
    [|rewrite Hc; destruct k; now left].
  apply Hr in Hc. rewrite Forall_forall in Hc.
  destruct (nth_in_or_default k (nth (Z.to_nat c) (nth (Z.to_nat r) a []) []) 0%Z)
    as [Hk|Hk]; [|now left].
  now apply Hc.
Qed.

Lemma above_binary x : above x = 0%Z \/ above x = 1%Z.
Proof. unfold above. destruct (Rlt_dec 0.25 (x / 255)); [now right | now left]. Qed.

(** [argmax_from] keeps the index it holds exactly when nothing later is
    larger, and otherwise moves to a later index. *)
Lemma argmax_from_keeps l : forall best at_best next,
  (at_best < next)%nat ->
  (argmax_from best at_best next l = at_best <-> Forall (fun x => (x <= best)%Z) l) /\
  (argmax_from best at_best next l = at_best \/
   (next <= argmax_from best at_best next l < next + length l)%nat).
Proof.
  induction l as [|x t IH]; intros best at_best next H; cbn [argmax_from length].
  - split; [split; [constructor | reflexivity] | now left].
  - destruct (Z.ltb_spec best x) as [L|L].
    + destruct (IH x next (S next) ltac:(lia)) as [_ [E|E]].
      * split; [|right; lia]. split.
        -- intro F. lia.
        -- intro F. inversion F; lia.
      * split; [|right; lia]. split.
        -- intro F. lia.
        -- intro F. inversion F; lia.
    + destruct (IH best at_best (S next) ltac:(lia)) as [I [E|E]].
      * split; [|now left]. rewrite I. split.
        -- intro F. now constructor.
        -- intro F. now inversion F.
      * split; [|right; lia]. rewrite I. split.
        -- intro F. now constructor.
        -- intro F. now inversion F.
Qed.

(** The class of a pixel is 0 exactly when no channel passes the
    threshold of a quarter of 255, and it never exceeds the number of
    channels. *)
Lemma label_background px :
  label px = 0%Z <-> Forall (fun x => ~ 0.25 < x / 255) px.
Proof.
  unfold label, argmax.
  destruct (@argmax_from_keeps (map above px) 0%Z 0%nat 1%nat ltac:(lia)) as [I _].
  rewrite <- (Nat2Z.inj_iff _ 0%nat) in I. change (Z.of_nat 0) with 0%Z in I.
  rewrite I, Forall_map.
  split; apply Forall_impl; intro x; unfold above;
    destruct (Rlt_dec 0.25 (x / 255)); intro F; try lia; tauto.
Qed.

Lemma label_range px : (0 <= label px <= Z.of_nat (length px))%Z.
Proof.
  unfold label, argmax.
  destruct (@argmax_from_keeps (map above px) 0%Z 0%nat 1%nat ltac:(lia)) as [_ [E|E]].
  - rewrite E. lia.
  - rewrite length_map in E. lia.
Qed.

End TargetFacts.

(** ** A class boundary under rotation *)

Module BoundaryFacts.

Import Render Target.
Local Open Scope R_scope.

Lemma sqrt2_bounds : 1 < sqrt 2 < 2 /\ sqrt 2 * sqrt 2 = 2.
Proof.
  assert (S : sqrt 2 * sqrt 2 = 2) by (apply sqrt_sqrt; lra).
  assert (P : 0 <= sqrt 2) by apply sqrt_pos.
  split; [split; nra | exact S].
Qed.

Lemma eighth_turn c z :
  cos (angle (mkState c 45 z)) = / sqrt 2 /\
  sin (angle (mkState c 45 z)) = - / sqrt 2.
Proof.
  assert (A : angle (mkState c 45 z) = - (PI / 4)).
  { unfold angle. cbn [rotation]. f_equal. lra. }
  rewrite A, cos_neg, sin_neg, cos_PI4, sin_PI4. split; lra.
Qed.

(** Where the top left pixel of the turned view of the strip lies on the
    page: between the rows 0 and 1, on column 0. *)
Lemma strip_location :
  transform 2 (mkState (2, 0)%Z 45 0) 0 0 = (2 - 2 * / sqrt 2, 0).
Proof.
  unfold transform, to_source.
  rewrite (@TransformFacts.zoom_zero_scale (mkState (2, 0)%Z 45 0)) by reflexivity.
  destruct (eighth_turn (2, 0)%Z 0%Q) as [-> ->].
  change (patch_center 2) with 1%Z. cbn [center fst snd Z.of_nat].
  f_equal; lra.
Qed.

Lemma strip_row_bounds : 0 < 2 - 2 * / sqrt 2 < 1.
Proof.
  destruct sqrt2_bounds as [[L U] S].
  assert (I : sqrt 2 * / sqrt 2 = 1) by (apply Rinv_r; lra).
  assert (P : 0 < / sqrt 2) by (apply Rinv_0_lt_compat; lra).
  split; nra.
Qed.

Lemma strip_pixel :
  nth 0 (entry [] (render strip_view (2, 0)%Z 45 0) 0 0) 0 =
  255 * (2 - 2 * / sqrt 2).
Proof.
  unfold render, apply_state.
  rewrite ArrayFacts.entry_tabulate by (cbn; lia).
  unfold render_pixel.
  change (depth (raster strip_view)) with 1%nat.
  change (view_size strip_view) with 2%nat.
  cbn [seq map nth].
  rewrite strip_location.
  pose proof strip_row_bounds as [B0 B1].
  rewrite ResampleFacts.resample_inside.
  2:{ unfold in_canvas. cbn [fst snd].
      change (height (raster strip_view)) with 3%Z.
      change (width (raster strip_view)) with 1%Z. lra. }
  unfold bilinear. cbn [fst snd].
  rewrite (@Zfloor_eq 0 (2 - 2 * / sqrt 2)) by lra.
  rewrite (@Zfloor_eq 0 0) by lra.
  change (fetch (raster strip_view) (bias strip_view) 0 0 0) with 0.
  change (fetch (raster strip_view) (bias strip_view) 0 (0 + 1) 0) with 255.
  change (fetch (raster strip_view) (bias strip_view) 0 0 (0 + 1)) with 0.
  change (fetch (raster strip_view) (bias strip_view) 0 (0 + 1) (0 + 1)) with 0.
  ring.
Qed.

(** C5: a class raster, whenever the mask lets it be built, holds 0 and
    255 only, and it is resampled like any other channel and not made
    binary again: in the view of the class channels of the strip, turned
    by 45 degrees, the top left pixel lies between a row of class 0
    and a row of class 1 and takes the value 255 * (2 - sqrt 2), strictly
    between 0 and 255.  The class of a pixel comes from the consumer: each
    channel is compared with a quarter of 255 and the argmax is taken over
    the channels, channel 0 standing for the background. *)
Theorem class_channels_are_interpolated :
  (forall n mask a r c k,
     class_channels n mask = Some a ->
     sample a r c k = 0%Z \/ sample a r c k = 255%Z) /\
  (class_channels 2 strip_mask = Some (raster strip_view) /\
   let x := nth 0 (entry [] (render strip_view (2, 0)%Z 45 0) 0 0) 0 in
   0 < x < 255 /\ label [x] = 1%Z) /\
  (forall px,
     (label px = 0%Z <-> Forall (fun x => ~ 0.25 < x / 255) px) /\
     (0 <= label px <= Z.of_nat (length px))%Z).
Proof.
  split; [|split].
  - apply TargetFacts.class_channels_binary.
  - split; [reflexivity|]. cbv zeta. rewrite strip_pixel.
    pose proof strip_row_bounds as [B0 B1].
    split; [lra|].
    unfold label, above. cbn [map].
    destruct (Rlt_dec 0.25 (255 * (2 - 2 * / sqrt 2) / 255)) as [_|N]; [reflexivity|].
    exfalso. apply N.
    destruct sqrt2_bounds as [[L U] S].
    assert (I : sqrt 2 * / sqrt 2 = 1) by (apply Rinv_r; lra).
    assert (P : 0 < / sqrt 2) by (apply Rinv_0_lt_compat; lra).
    assert (T : / sqrt 2 < 0.85) by nra.
    lra.
  - intro px. split; [apply TargetFacts.label_background | apply TargetFacts.label_range].
Qed.

End BoundaryFacts.

(** ** The standard deviation of a patch *)

Module StdFacts.

Import Render.
Local Open Scope R_scope.

Lemma total_constant (x : R) l :
  (forall y, In y l -> y = x) -> total l = INR (length l) * x.
Proof.
  induction l as [|y l IH]; intro H.
  - simpl. ring.
  - change (total (y :: l)) with (y + total l).
    rewrite IH by (intros; apply H; now right).
    rewrite (H y) by now left.
    cbn [length]. rewrite S_INR. ring.
Qed.

Lemma total_zero {A} (f : A -> R) l :
  (forall y, In y l -> f y = 0) -> total (map f l) = 0.
Proof.
  induction l as [|y l IH]; intro H; [reflexivity|].
  change (total (map f (y :: l))) with (f y + total (map f l)).
  rewrite IH by (intros; apply H; now right).
  rewrite (H y) by now left. ring.
Qed.

Lemma variance_constant x l : (forall y, In y l -> y = x) -> variance l = 0.
Proof.
  intro H. unfold variance.
  destruct l as [|y l].
  - simpl. unfold Rdiv. ring.
  - assert (M : mean (y :: l) = x).
    { unfold mean. rewrite (@total_constant x _ H). field.
      apply not_0_INR. discriminate. }
    rewrite total_zero; [unfold Rdiv; ring|].
    intros w Hw. rewrite M, (H w Hw). ring.
Qed.

Lemma std_constant x p : (forall y, In y (flatten p) -> y = x) -> std p = 0.
Proof.
  intro H. unfold std. rewrite (@variance_constant x _ H). apply sqrt_0.
Qed.

Lemma flatten_tabulate n (f : nat -> nat -> list R) y :
  In y (flatten (tabulate n f)) -> exists i j, (i < n)%nat /\ (j < n)%nat /\ In y (f i j).
Proof.
  unfold flatten, tabulate. intro H.
  apply in_concat in H. destruct H as (px & Hpx & Hy).
  apply in_concat in Hpx. destruct Hpx as (row & Hrow & Hpx).
  apply in_map_iff in Hrow. destruct Hrow as (i & <- & Hi).
  apply in_map_iff in Hpx. destruct Hpx as (j & <- & Hj).
  apply in_seq in Hi. apply in_seq in Hj.
  exists i, j. repeat split; try lia. exact Hy.
Qed.

(** A raster of one value, filled with that value, has no dispersion in
    any view. *)
Lemma std_uniform v x st :
  uniform (raster v) x -> bias v = IZR x -> std (apply_state v st) = 0.
Proof.
  intros U B. apply (@std_constant (IZR x)). intros y Hy.
  apply flatten_tabulate in Hy. destruct Hy as (i & j & _ & _ & Hy).
  unfold render_pixel in Hy. apply in_map_iff in Hy. destruct Hy as (k & <- & _).
  rewrite B. now apply ResampleFacts.resample_uniform.
Qed.

Lemma std_at_least (b : R) p :
  0 <= b -> b * b <= variance (flatten p) -> ~ std p < b.
Proof.
  intros Hb Hv Hlt. unfold std in Hlt.
  assert (S : sqrt (b * b) <= sqrt (variance (flatten p))) by now apply sqrt_le_1_alt.
  rewrite sqrt_square in S by exact Hb. lra.
Qed.

End StdFacts.

(** ** The rejection loop of [MultitaskPretrainingDataset] *)

Module MultitaskFacts.

Import Rng MultitaskPretrainingDataset.

Lemma multitask_random_viewport_eq d g :
  random_viewport d g = (viewport_of d g, next_draw g).
Proof.
  unfold random_viewport, viewport_of, next_draw, bind, rand, ret.
  destruct (Num.ltb (advance g 0%nat) (aligned_fraction d)) eqn:E;
    change (advance g 0%nat) with (g 1%nat) in E; rewrite E; reflexivity.
Qed.

Lemma multitask_draw_step fuel d g :
  draw (S fuel) d g =
  let '(c, r, z) := viewport_of d g in
  let p := Render.render (view d) c r z in
  if Rlt_dec (Render.std p) 10 then draw fuel d (next_draw g)
  else (Some (c, r, z, p), next_draw g).
Proof.
  change (draw (S fuel) d g) with
    (let (x, g') := random_viewport d g in
     (let '(center, rotation, zoom) := x in
      let patch := Render.render (view d) center rotation zoom in
      if Rlt_dec (Render.std patch) 10 then draw fuel d
      else ret (Some (center, rotation, zoom, patch))) g').
  rewrite multitask_random_viewport_eq.
  destruct (viewport_of d g) as [[c r] z]. cbv zeta.
  destruct (Rlt_dec _ 10); reflexivity.
Qed.

Lemma multitask_candidate_shift d g k : candidate d g (S k) = candidate d (next_draw g) k.
Proof. unfold candidate. now rewrite Nat.iter_succ_r. Qed.

Lemma multitask_rejected_shift d g k : rejected d g (S k) <-> rejected d (next_draw g) k.
Proof. unfold rejected, candidate_view. now rewrite multitask_candidate_shift. Qed.

Lemma multitask_draw_head d g :
  (let '(c, r, z) := viewport_of d g in Render.render (view d) c r z) =
  candidate_view d g 0.
Proof. reflexivity. Qed.

(** The loop ends with the first viewport whose view is not rejected. *)
Lemma multitask_draw_first_accepted fuel : forall d g k,
  (forall i, (i < k)%nat -> rejected d g i) -> ~ rejected d g k -> (k < fuel)%nat ->
  draw fuel d g =
  (Some (candidate d g k, candidate_view d g k), Nat.iter (S k) next_draw g).
Proof.
  induction fuel as [|fuel IH]; intros d g k Hrej Hacc Hk; [lia|].
  rewrite multitask_draw_step. destruct k as [|k].
  - unfold rejected, candidate_view, candidate in Hacc. cbn [Nat.iter nat_rect] in Hacc.
    unfold candidate_view, candidate. cbn [Nat.iter nat_rect].
    revert Hacc. destruct (viewport_of d g) as [[c r] z]. cbv beta iota zeta. intro Hacc.
    destruct (Rlt_dec _ 10); [contradiction | reflexivity].
  - pose proof (Hrej 0%nat ltac:(lia)) as H0.
    unfold rejected, candidate_view, candidate in H0. cbn [Nat.iter nat_rect] in H0.
    rewrite multitask_candidate_shift.
    replace (candidate_view d g (S k)) with (candidate_view d (next_draw g) k)
      by (unfold candidate_view; now rewrite multitask_candidate_shift).
    rewrite (Nat.iter_succ_r (S k)).
    revert H0. destruct (viewport_of d g) as [[c r] z]. cbv beta iota zeta. intro H0.
    destruct (Rlt_dec _ 10); [|contradiction].
    apply IH; [|intro F; apply Hacc; exact (proj2 (multitask_rejected_shift d g k) F) | lia].
    intros i Hi. apply (proj1 (multitask_rejected_shift d g i)). apply Hrej. lia.
Qed.

Lemma multitask_draw_returns fuel : forall d g x g',
  draw fuel d g = (Some x, g') ->
  exists k, (k < fuel)%nat /\ (forall i, (i < k)%nat -> rejected d g i) /\
            ~ rejected d g k /\
            x = (candidate d g k, candidate_view d g k) /\
            g' = Nat.iter (S k) next_draw g.
Proof.
  induction fuel as [|fuel IH]; intros d g x g' H; [discriminate H|].
  rewrite multitask_draw_step in H.
  pose proof (multitask_draw_head d g) as Hd.
  assert (Hc : viewport_of d g = candidate d g 0) by reflexivity.
  revert H Hd Hc. destruct (viewport_of d g) as [[c r] z]. cbv beta iota zeta. intros H Hd Hc.
  destruct (Rlt_dec _ 10) as [Hlt|Hge].
  - apply IH in H. destruct H as (k & Hk & Hrej & Hacc & -> & ->).
    exists (S k). split; [lia|]. split; [|split; [|split]].
    + intros [|i] Hi.
      * unfold rejected. rewrite <- Hd. exact Hlt.
      * apply (proj2 (multitask_rejected_shift d g i)). apply Hrej. lia.
    + intro F. apply Hacc. exact (proj1 (multitask_rejected_shift d g k) F).
    + rewrite multitask_candidate_shift. f_equal.
      unfold candidate_view. now rewrite multitask_candidate_shift.
    + now rewrite (Nat.iter_succ_r (S k)).
  - inversion H; subst. exists 0%nat. split; [lia|]. split; [|split; [|split]].
    + intros i Hi. lia.
    + unfold rejected. rewrite <- Hd. exact Hge.
    + rewrite <- Hd, <- Hc. reflexivity.
    + reflexivity.
Qed.

(** A page all of whose views are rejected keeps the loop running. *)
Lemma multitask_draw_never_returns d :
  (forall c r z, (Render.std (Render.render (view d) c r z) < 10)%R) ->
  forall fuel g, fst (draw fuel d g) = None.
Proof.
  intros Hblank fuel. induction fuel as [|fuel IH]; intro g; [reflexivity|].
  rewrite multitask_draw_step. destruct (viewport_of d g) as [[c r] z]. cbv zeta.
  destruct (Rlt_dec _ 10) as [_|N]; [apply IH|].
  exfalso. apply N. apply Hblank.
Qed.

Section Collaborators.

Variable Tensor : Type.
Variable transform : Render.ViewPatch -> Tensor.
Variable make_negative_sample : nat -> M Render.ViewPatch.

Lemma multitask_getitem_document fuel d g :
  Num.ltb (g 0%nat) (unknown_fraction d) = false ->
  getitem transform make_negative_sample fuel d g =
  match draw fuel d (advance g) with
  | (None, g') => (None, g')
  | (Some (c, r, z, p), g') =>
      (Some (mkSample (transform p)
               (Target.segmentation_target (Render.render (segmentation d) c r z))
               (Target.value_target (Render.render (value d) c r z))
               (alignment (alignment_threshold d) r) r), g')
  end.
Proof.
  intro Hdoc. unfold getitem, bind at 1, rand. rewrite Hdoc. unfold bind.
  destruct (draw fuel d (advance g)) as [[[[[c r] z] p]|] g']; reflexivity.
Qed.

End Collaborators.

End MultitaskFacts.

(** ** The rejection loop of [RotationDataset] *)

Module RotationFacts.

Import Rng RotationDataset.

Lemma rotation_random_viewport_eq d g :
  random_viewport d g = (viewport_of d g, next_draw g).
Proof. reflexivity. Qed.

Lemma rotation_draw_step fuel d g :
  draw (S fuel) d g =
  let '(c, r, z) := viewport_of d g in
  let p := Render.render (nav d) c r z in
  if Rlt_dec (Render.std p) 10 then draw fuel d (next_draw g)
  else (Some (c, r, z, p), next_draw g).
Proof.
  change (draw (S fuel) d g) with
    (let (x, g') := random_viewport d g in
     (let '(center, rotation, zoom) := x in
      let observation := Render.render (nav d) center rotation zoom in
      if Rlt_dec (Render.std observation) 10 then draw fuel d
      else ret (Some (center, rotation, zoom, observation))) g').
  rewrite rotation_random_viewport_eq.
  destruct (viewport_of d g) as [[c r] z]. cbv zeta.
  destruct (Rlt_dec _ 10); reflexivity.
Qed.

Lemma rotation_candidate_shift d g k : candidate d g (S k) = candidate d (next_draw g) k.
Proof. unfold candidate. now rewrite Nat.iter_succ_r. Qed.

Lemma rotation_rejected_shift d g k : rejected d g (S k) <-> rejected d (next_draw g) k.
Proof. unfold rejected, candidate_view. now rewrite rotation_candidate_shift. Qed.

Lemma rotation_draw_head d g :
  (let '(c, r, z) := viewport_of d g in Render.render (nav d) c r z) =
  candidate_view d g 0.
Proof. reflexivity. Qed.

(** The loop ends with the first viewport whose view is not rejected. *)
Lemma rotation_draw_first_accepted fuel : forall d g k,
  (forall i, (i < k)%nat -> rejected d g i) -> ~ rejected d g k -> (k < fuel)%nat ->
  draw fuel d g =
  (Some (candidate d g k, candidate_view d g k), Nat.iter (S k) next_draw g).
Proof.
  induction fuel as [|fuel IH]; intros d g k Hrej Hacc Hk; [lia|].
  rewrite rotation_draw_step. destruct k as [|k].
  - unfold rejected, candidate_view, candidate in Hacc. cbn [Nat.iter nat_rect] in Hacc.
    unfold candidate_view, candidate. cbn [Nat.iter nat_rect].
    revert Hacc. destruct (viewport_of d g) as [[c r] z]. cbv beta iota zeta. intro Hacc.
    destruct (Rlt_dec _ 10); [contradiction | reflexivity].
  - pose proof (Hrej 0%nat ltac:(lia)) as H0.
    unfold rejected, candidate_view, candidate in H0. cbn [Nat.iter nat_rect] in H0.
    rewrite rotation_candidate_shift.
    replace (candidate_view d g (S k)) with (candidate_view d (next_draw g) k)
      by (unfold candidate_view; now rewrite rotation_candidate_shift).
    rewrite (Nat.iter_succ_r (S k)).
    revert H0. destruct (viewport_of d g) as [[c r] z]. cbv beta iota zeta. intro H0.
    destruct (Rlt_dec _ 10); [|contradiction].
    apply IH; [|intro F; apply Hacc; exact (proj2 (rotation_rejected_shift d g k) F) | lia].
    intros i Hi. apply (proj1 (rotation_rejected_shift d g i)). apply Hrej. lia.
Qed.

Lemma rotation_draw_returns fuel : forall d g x g',
  draw fuel d g = (Some x, g') ->
  exists k, (k < fuel)%nat /\ (forall i, (i < k)%nat -> rejected d g i) /\
            ~ rejected d g k /\
            x = (candidate d g k, candidate_view d g k) /\
            g' = Nat.iter (S k) next_draw g.
Proof.
  induction fuel as [|fuel IH]; intros d g x g' H; [discriminate H|].
  rewrite rotation_draw_step in H.
  pose proof (rotation_draw_head d g) as Hd.
  assert (Hc : viewport_of d g = candidate d g 0) by reflexivity.
  revert H Hd Hc. destruct (viewport_of d g) as [[c r] z]. cbv beta iota zeta. intros H Hd Hc.
  destruct (Rlt_dec _ 10) as [Hlt|Hge].
  - apply IH in H. destruct H as (k & Hk & Hrej & Hacc & -> & ->).
    exists (S k). split; [lia|]. split; [|split; [|split]].
    + intros [|i] Hi.
      * unfold rejected. rewrite <- Hd. exact Hlt.
      * apply (proj2 (rotation_rejected_shift d g i)). apply Hrej. lia.
    + intro F. apply Hacc. exact (proj1 (rotation_rejected_shift d g k) F).
    + rewrite rotation_candidate_shift. f_equal.
      unfold candidate_view. now rewrite rotation_candidate_shift.
    + now rewrite (Nat.iter_succ_r (S k)).
  - inversion H; subst. exists 0%nat. split; [lia|]. split; [|split; [|split]].
    + intros i Hi. lia.
    + unfold rejected. rewrite <- Hd. exact Hge.
    + rewrite <- Hd, <- Hc. reflexivity.
    + reflexivity.
Qed.

(** A page all of whose views are rejected keeps the loop running. *)
Lemma rotation_draw_never_returns d :
  (forall c r z, (Render.std (Render.render (nav d) c r z) < 10)%R) ->
  forall fuel g, fst (draw fuel d g) = None.
Proof.
  intros Hblank fuel. induction fuel as [|fuel IH]; intro g; [reflexivity|].
  rewrite rotation_draw_step. destruct (viewport_of d g) as [[c r] z]. cbv zeta.
  destruct (Rlt_dec _ 10) as [_|N]; [apply IH|].
  exfalso. apply N. apply Hblank.
Qed.

Section Collaborators.

Variable Tensor : Type.
Variable transform : Render.ViewPatch -> Tensor.

Lemma getitem_eq fuel d g :
  getitem transform fuel d g =
  match draw fuel d g with
  | (None, g') => (None, g')
  | (Some (c, r, z, p), g') =>
      (Some (mkSample (transform p) r (regression r)), g')
  end.
Proof.
  unfold getitem, bind.
  destruct (draw fuel d g) as [[[[[c r] z] p]|] g']; reflexivity.
Qed.

End Collaborators.

End RotationFacts.

(** ** The sampling loop *)

Module SamplingFacts.

Import Render Pages.
Local Open Scope R_scope.

Lemma std_three_against_one (x y : R) :
  40 <= Rabs (x - y) -> ~ std [[[x]; [y]]; [[y]; [y]]] < 10.
Proof.
  intro H. apply StdFacts.std_at_least; [lra|].
  unfold variance, mean, flatten, total. simpl.
  assert (S : 1600 <= (x - y) * (x - y)).
  { unfold Rabs in H. destruct (Rcase_abs (x - y)); nra. }
  lra.
Qed.

Lemma black_page_uniform : uniform (Target.grayscale black_page) 0.
Proof.
  intros r c k H. unfold inside in H.
  rewrite !andb_true_iff, !Z.leb_le, !Z.ltb_lt in H.
  change (height (Target.grayscale black_page)) with 4%Z in H.
  change (width (Target.grayscale black_page)) with 4%Z in H.
  assert (Hr : (r = 0 \/ r = 1 \/ r = 2 \/ r = 3)%Z) by lia.
  assert (Hc : (c = 0 \/ c = 1 \/ c = 2 \/ c = 3)%Z) by lia.
  destruct Hr as [->|[->|[->| ->]]]; destruct Hc as [->|[->|[->| ->]]];
    destruct k as [|[|k]]; reflexivity.
Qed.

Lemma black_segmentation_blank c r z :
  std (render (SegmentationDataset.view black_segmentation) c r z) < 10.
Proof.
  unfold render. rewrite (@StdFacts.std_uniform _ 0%Z).
  - lra.
  - exact black_page_uniform.
  - reflexivity.
Qed.

Lemma black_multitask_blank c r z :
  std (render (MultitaskPretrainingDataset.view black_multitask) c r z) < 10.
Proof.
  unfold render. rewrite (@StdFacts.std_uniform _ 0%Z).
  - lra.
  - exact black_page_uniform.
  - reflexivity.
Qed.

Lemma white_page_inverted_uniform : uniform (Target.inverted white_page) 0.
Proof.
  intros r c k H. unfold inside in H.
  rewrite !andb_true_iff, !Z.leb_le, !Z.ltb_lt in H.
  change (height (Target.inverted white_page)) with 4%Z in H.
  change (width (Target.inverted white_page)) with 4%Z in H.
  assert (Hr : (r = 0 \/ r = 1 \/ r = 2 \/ r = 3)%Z) by lia.
  assert (Hc : (c = 0 \/ c = 1 \/ c = 2 \/ c = 3)%Z) by lia.
  destruct Hr as [->|[->|[->| ->]]]; destruct Hc as [->|[->|[->| ->]]];
    destruct k as [|[|k]]; reflexivity.
Qed.

Lemma white_rotation_blank c r z :
  std (render (RotationDataset.nav white_rotation) c r z) < 10.
Proof.
  unfold render. rewrite (@StdFacts.std_uniform _ 0%Z).
  - lra.
  - exact white_page_inverted_uniform.
  - reflexivity.
Qed.

(** C2, as stated, fails: on the black page, and on the white page that
    [RotationDataset] walks inverted, every view is rejected, and the
    loop of [__getitem__] has no retry ceiling; however many passes are
    looked at, it has not returned, neither with a sample nor with a
    failure. *)
Lemma black_page_draw_never_ends :
  (forall c r z,
     std (render (MultitaskPretrainingDataset.view black_multitask) c r z) < 10) /\
  (forall c r z,
     std (render (SegmentationDataset.view black_segmentation) c r z) < 10) /\
  (forall c r z,
     std (render (RotationDataset.nav white_rotation) c r z) < 10) /\
  ~ (exists fuel x,
       fst (MultitaskPretrainingDataset.draw fuel black_multitask (stream [])) = Some x) /\
  ~ (exists fuel x,
       fst (SegmentationDataset.draw fuel black_segmentation (stream [])) = Some x) /\
  ~ (exists fuel x,
       fst (RotationDataset.draw fuel white_rotation (stream [])) = Some x).
Proof.
  split; [exact black_multitask_blank|]. split; [exact black_segmentation_blank|].
  split; [exact white_rotation_blank|].
  split; [|split]; intros (fuel & x & H).
  - rewrite (@MultitaskFacts.multitask_draw_never_returns _ black_multitask_blank) in H.
    discriminate H.
  - rewrite (@SegmentationFacts.segmentation_draw_never_returns _ black_segmentation_blank)
      in H; [discriminate H | apply SegmentationFacts.same_member_refl].
  - rewrite (@RotationFacts.rotation_draw_never_returns _ white_rotation_blank) in H.
    discriminate H.
Qed.

(** C2 (amended): the retry loop has no ceiling and no failure of its
    own.  When every view of the page has a standard deviation below 10,
    the loop of [SegmentationDataset], of [MultitaskPretrainingDataset]
    and of [RotationDataset] is still running after any number of
    passes, and so is [__getitem__] once it has entered the loop. *)
Theorem blank_page_never_returns
    (Tensor : Type) (transform : ViewPatch -> Tensor) (negative : nat -> Rng.M ViewPatch)
    (max_skew : option Q)
    (ds : SegmentationDataset.t) (dm : MultitaskPretrainingDataset.t)
    (dr : RotationDataset.t) :
  (forall c r z, std (render (SegmentationDataset.view ds) c r z) < 10) ->
  (forall c r z, std (render (MultitaskPretrainingDataset.view dm) c r z) < 10) ->
  (forall c r z, std (render (RotationDataset.nav dr) c r z) < 10) ->
  forall fuel g,
    fst (SegmentationDataset.draw fuel ds g) = None /\
    fst (MultitaskPretrainingDataset.draw fuel dm g) = None /\
    fst (RotationDataset.draw fuel dr g) = None /\
    (Num.ltb (g 0%nat) 0.2 = false ->
     fst (SegmentationDataset.getitem transform negative max_skew fuel ds g) = None) /\
    (Num.ltb (g 0%nat) (MultitaskPretrainingDataset.unknown_fraction dm) = false ->
     fst (MultitaskPretrainingDataset.getitem transform negative fuel dm g) = None) /\
    fst (RotationDataset.getitem transform fuel dr g) = None.
Proof.
  intros Hs Hm Hr fuel g.
  assert (S : forall g', fst (SegmentationDataset.draw fuel ds g') = None).
  { intro g'. apply (@SegmentationFacts.segmentation_draw_never_returns _ Hs).
    apply SegmentationFacts.same_member_refl. }
  assert (M : forall g', fst (MultitaskPretrainingDataset.draw fuel dm g') = None).
  { intro g'. apply (@MultitaskFacts.multitask_draw_never_returns _ Hm). }
  assert (R : forall g', fst (RotationDataset.draw fuel dr g') = None).
  { intro g'. apply (@RotationFacts.rotation_draw_never_returns _ Hr). }
  split; [apply S|]. split; [apply M|]. split; [apply R|].
  split; [|split].
  - intro Hdoc. apply SegmentationFacts.getitem_waits; [exact Hdoc | apply S].
  - intro Hdoc. rewrite MultitaskFacts.multitask_getitem_document by exact Hdoc.
    specialize (M (Rng.advance g)).
    destruct (MultitaskPretrainingDataset.draw fuel dm (Rng.advance g)) as [[x|] g1];
      [discriminate M | reflexivity].
  - rewrite RotationFacts.getitem_eq. specialize (R g).
    destruct (RotationDataset.draw fuel dr g) as [[x|] g1];
      [discriminate R | reflexivity].
Qed.

Lemma blank_page_never_returns_witness :
  fst (SegmentationDataset.draw 5 black_segmentation (stream [])) = None /\
  fst (MultitaskPretrainingDataset.draw 5 black_multitask (stream [])) = None /\
  fst (RotationDataset.draw 5 white_rotation (stream [])) = None /\
  (Num.ltb (stream [] 0%nat) 0.2 = false ->
   fst (SegmentationDataset.getitem plain noise None 5 black_segmentation (stream []))
   = None) /\
  (Num.ltb (stream [] 0%nat)
     (MultitaskPretrainingDataset.unknown_fraction black_multitask) = false ->
   fst (MultitaskPretrainingDataset.getitem plain noise 5 black_multitask (stream []))
   = None) /\
  fst (RotationDataset.getitem plain 5 white_rotation (stream [])) = None.
Proof.
  apply (@blank_page_never_returns _ plain noise None
           black_segmentation black_multitask white_rotation).
  - exact black_segmentation_blank.
  - exact black_multitask_blank.
  - exact white_rotation_blank.
Defined.

(** The generator of a run of [MultitaskPretrainingDataset.__getitem__]
    on the page with the dot: a document sample; a first viewport at
    (2, 2), upright, that shows white paper only; a second one at (1, 1),
    turned by 180 degrees, that shows the dot. *)
Lemma dot_multitask_first :
  MultitaskPretrainingDataset.candidate_view dot_multitask
    (stream [0.5; 0.1; 0; 0.625; 0.25; 0.1; 0.5; 0.625]%Q) 0 =
  [[[255]; [255]]; [[255]; [255]]].
Proof.
  unfold MultitaskPretrainingDataset.candidate_view.
  destruct (MultitaskPretrainingDataset.candidate _ _ _) as [[c r] z] eqn:E.
  lazy in E. inversion E; subst c r z.
  rewrite (@RenderFacts.render_quarter_scaled _ _ _ _ 2);
    [reflexivity | simpl; tauto | apply TransformFacts.zoom_minus_one_scale; reflexivity].
Qed.

Lemma dot_multitask_second :
  MultitaskPretrainingDataset.candidate_view dot_multitask
    (stream [0.5; 0.1; 0; 0.625; 0.25; 0.1; 0.5; 0.625]%Q) 1 =
  [[[0]; [255]]; [[255]; [255]]].
Proof.
  unfold MultitaskPretrainingDataset.candidate_view.
  destruct (MultitaskPretrainingDataset.candidate _ _ _) as [[c r] z] eqn:E.
  lazy in E. inversion E; subst c r z.
  rewrite (@RenderFacts.render_quarter_scaled _ _ _ _ 2);
    [reflexivity | simpl; tauto | apply TransformFacts.zoom_minus_one_scale; reflexivity].
Qed.

Lemma dot_rotation_first :
  RotationDataset.candidate_view dot_rotation
    (stream [0; 0.5; 0.5; 0; 0.5; 0.5; 0.5; 0]%Q) 0 =
  [[[0]; [0]]; [[0]; [0]]].
Proof.
  unfold RotationDataset.candidate_view.
  destruct (RotationDataset.candidate _ _ _) as [[c r] z] eqn:E.
  lazy in E. inversion E; subst c r z.
  rewrite (@RenderFacts.render_quarter_scaled _ _ _ _ 2);
    [reflexivity | simpl; tauto | apply TransformFacts.zoom_minus_one_scale; reflexivity].
Qed.

Lemma dot_rotation_second :
  RotationDataset.candidate_view dot_rotation
    (stream [0; 0.5; 0.5; 0; 0.5; 0.5; 0.5; 0]%Q) 1 =
  [[[255]; [0]]; [[0]; [0]]].
Proof.
  unfold RotationDataset.candidate_view.
  destruct (RotationDataset.candidate _ _ _) as [[c r] z] eqn:E.
  lazy in E. inversion E; subst c r z.
  rewrite (@RenderFacts.render_quarter_scaled _ _ _ _ 2);
    [reflexivity | simpl; tauto | apply TransformFacts.zoom_minus_one_scale; reflexivity].
Qed.

Lemma std_flat (x : R) : std [[[x]; [x]]; [[x]; [x]]] < 10.
Proof.
  rewrite (@StdFacts.std_constant x); [lra|].
  intros y Hy. simpl in Hy. intuition.
Qed.

(** C8: a sample that comes out of the loop of
    [MultitaskPretrainingDataset] or of [RotationDataset] was accepted
    only after the view rendered for the drawn viewport had a standard
    deviation of at least 10: every viewport drawn before it was
    rendered, found below the threshold and dropped.  The accepted view
    itself is handed to the transform, and the loop returns as soon as
    such a viewport is drawn; with the default unknown_fraction of 0
    every sample of [MultitaskPretrainingDataset] takes this way. *)
Theorem accepted_view_meets_threshold
    (Tensor : Type) (transform : ViewPatch -> Tensor)
    (negative : nat -> Rng.M ViewPatch) :
  (forall fuel d g s,
     Num.ltb (g 0%nat) (MultitaskPretrainingDataset.unknown_fraction d) = false ->
     fst (MultitaskPretrainingDataset.getitem transform negative fuel d g) = Some s ->
     exists k, (k < fuel)%nat /\
       (forall i, (i < k)%nat ->
          MultitaskPretrainingDataset.rejected d (Rng.advance g) i) /\
       10 <= std (MultitaskPretrainingDataset.candidate_view d (Rng.advance g) k) /\
       MultitaskPretrainingDataset.X s =
       transform (MultitaskPretrainingDataset.candidate_view d (Rng.advance g) k)) /\
  (forall fuel d g s,
     fst (RotationDataset.getitem transform fuel d g) = Some s ->
     exists k, (k < fuel)%nat /\
       (forall i, (i < k)%nat -> RotationDataset.rejected d g i) /\
       10 <= std (RotationDataset.candidate_view d g k) /\
       RotationDataset.X s = transform (RotationDataset.candidate_view d g k)) /\
  (forall d g k,
     Num.ltb (g 0%nat) (MultitaskPretrainingDataset.unknown_fraction d) = false ->
     (forall i, (i < k)%nat ->
        MultitaskPretrainingDataset.rejected d (Rng.advance g) i) ->
     ~ MultitaskPretrainingDataset.rejected d (Rng.advance g) k ->
     exists s,
       fst (MultitaskPretrainingDataset.getitem transform negative (S k) d g) = Some s /\
       MultitaskPretrainingDataset.X s =
       transform (MultitaskPretrainingDataset.candidate_view d (Rng.advance g) k)) /\
  (forall d g k,
     (forall i, (i < k)%nat -> RotationDataset.rejected d g i) ->
     ~ RotationDataset.rejected d g k ->
     exists s,
       fst (RotationDataset.getitem transform (S k) d g) = Some s /\
       RotationDataset.X s = transform (RotationDataset.candidate_view d g k)) /\
  (forall d g,
     Rng.valid g -> (MultitaskPretrainingDataset.unknown_fraction d <= 0)%Q ->
     Num.ltb (g 0%nat) (MultitaskPretrainingDataset.unknown_fraction d) = false).
Proof.
  split; [|split; [|split; [|split]]].
  - intros fuel d g s Hdoc H.
    rewrite MultitaskFacts.multitask_getitem_document in H by exact Hdoc.
    destruct (MultitaskPretrainingDataset.draw fuel d (Rng.advance g))
      as [[x|] g1] eqn:E.
    2:{ discriminate H. }
    apply MultitaskFacts.multitask_draw_returns in E.
    destruct E as (k & Hk & Hrej & Hacc & -> & _).
    exists k. split; [exact Hk|]. split; [exact Hrej|].
    split; [apply Rnot_lt_le; exact Hacc|].
    destruct (MultitaskPretrainingDataset.candidate d (Rng.advance g) k) as [[c r] z].
    cbn [fst] in H. inversion H. reflexivity.
  - intros fuel d g s H.
    rewrite RotationFacts.getitem_eq in H.
    destruct (RotationDataset.draw fuel d g) as [[x|] g1] eqn:E.
    2:{ discriminate H. }
    apply RotationFacts.rotation_draw_returns in E.
    destruct E as (k & Hk & Hrej & Hacc & -> & _).
    exists k. split; [exact Hk|]. split; [exact Hrej|].
    split; [apply Rnot_lt_le; exact Hacc|].
    destruct (RotationDataset.candidate d g k) as [[c r] z].
    cbn [fst] in H. inversion H. reflexivity.
  - intros d g k Hdoc Hrej Hacc.
    rewrite MultitaskFacts.multitask_getitem_document by exact Hdoc.
    rewrite (@MultitaskFacts.multitask_draw_first_accepted (S k) d (Rng.advance g) k Hrej Hacc)
      by lia.
    destruct (MultitaskPretrainingDataset.candidate d (Rng.advance g) k) as [[c r] z].
    eexists. split; reflexivity.
  - intros d g k Hrej Hacc.
    rewrite RotationFacts.getitem_eq.
    rewrite (@RotationFacts.rotation_draw_first_accepted (S k) d g k Hrej Hacc) by lia.
    destruct (RotationDataset.candidate d g k) as [[c r] z].
    eexists. split; reflexivity.
  - intros d g V Hu. apply NumFacts.ltb_ge.
    eapply Qle_trans; [exact Hu | apply (V 0%nat)].
Qed.

(** The two runs on the page with the dot: the first viewport is dropped,
    the second one accepted. *)
Lemma accepted_view_meets_threshold_witness :
  (exists s,
     fst (MultitaskPretrainingDataset.getitem plain noise 2 dot_multitask
            (stream [0.5; 0.5; 0.1; 0; 0.625; 0.25; 0.1; 0.5; 0.625]%Q)) = Some s /\
     MultitaskPretrainingDataset.X s = [[[0]; [255]]; [[255]; [255]]]) /\
  (exists s,
     fst (RotationDataset.getitem plain 2 dot_rotation
            (stream [0; 0.5; 0.5; 0; 0.5; 0.5; 0.5; 0]%Q)) = Some s /\
     RotationDataset.X s = [[[255]; [0]]; [[0]; [0]]]).
Proof.
  destruct (@accepted_view_meets_threshold _ plain noise) as (_ & _ & HM & HR & _).
  split.
  - destruct (HM dot_multitask
                (stream [0.5; 0.5; 0.1; 0; 0.625; 0.25; 0.1; 0.5; 0.625]%Q) 1%nat)
      as (s & Hs & HX).
    + reflexivity.
    + intros i Hi. assert (i = 0%nat) as -> by lia.
      unfold MultitaskPretrainingDataset.rejected.
      change (Rng.advance (stream [0.5; 0.5; 0.1; 0; 0.625; 0.25; 0.1; 0.5; 0.625]%Q))
        with (stream [0.5; 0.1; 0; 0.625; 0.25; 0.1; 0.5; 0.625]%Q).
      rewrite dot_multitask_first. apply std_flat.
    + unfold MultitaskPretrainingDataset.rejected.
      change (Rng.advance (stream [0.5; 0.5; 0.1; 0; 0.625; 0.25; 0.1; 0.5; 0.625]%Q))
        with (stream [0.5; 0.1; 0; 0.625; 0.25; 0.1; 0.5; 0.625]%Q).
      rewrite dot_multitask_second. apply std_three_against_one.
      unfold Rabs. destruct (Rcase_abs (0 - 255)); lra.
    + exists s. split; [exact Hs|]. rewrite HX.
      change (Rng.advance (stream [0.5; 0.5; 0.1; 0; 0.625; 0.25; 0.1; 0.5; 0.625]%Q))
        with (stream [0.5; 0.1; 0; 0.625; 0.25; 0.1; 0.5; 0.625]%Q).
      rewrite dot_multitask_second. reflexivity.
  - destruct (HR dot_rotation (stream [0; 0.5; 0.5; 0; 0.5; 0.5; 0.5; 0]%Q) 1%nat)
      as (s & Hs & HX).
    + intros i Hi. assert (i = 0%nat) as -> by lia.
      unfold RotationDataset.rejected. rewrite dot_rotation_first. apply std_flat.
    + unfold RotationDataset.rejected. rewrite dot_rotation_second.
      apply std_three_against_one.
      unfold Rabs. destruct (Rcase_abs (255 - 0)); lra.
    + exists s. split; [exact Hs|]. rewrite HX, dot_rotation_second. reflexivity.
Defined.

Lemma stream_valid l :
  Forall (fun q => (0 <= q /\ q < 1)%Q) l -> Rng.valid (stream l).
Proof.
  intros F n. unfold stream.
  destruct (nth_in_or_default n l 0.5%Q) as [H|H].
  - rewrite Forall_forall in F. now apply F.
  - rewrite H. split; [intro C; discriminate C | reflexivity].
Qed.

(** A run of the loop of [SegmentationDataset] on the page with the dot:
    the viewport at (1, 1), turned by 180 degrees, shows the dot and is
    accepted at once. *)
Lemma dot_segmentation_draw (w : Q) :
  exists z p d1 g1,
    SegmentationDataset.draw 1 dot_segmentation (stream [0.25; 0.5; 0; w]%Q) =
    (Some ((1, 1)%Z, 180%Z, z, p, d1), g1) /\ g1 0%nat = w.
Proof.
  rewrite SegmentationFacts.segmentation_draw_step.
  destruct (SegmentationDataset.viewport_of _ _) as [[c r] z] eqn:E.
  lazy in E. inversion E; subst c r z. cbv zeta.
  destruct (Rlt_dec _ 10) as [L|_].
  - exfalso. revert L.
    change (apply_state (SegmentationDataset.view dot_segmentation)
              (mkState (1, 1)%Z 180 (-10 # 10)))
      with (render (SegmentationDataset.view dot_segmentation) (1, 1)%Z 180 (-10 # 10)).
    rewrite (@RenderFacts.render_quarter_scaled _ _ _ _ 2);
      [|simpl; tauto | apply TransformFacts.zoom_minus_one_scale; reflexivity].
    change (std [[[0]; [255]]; [[255]; [255]]] < 10 -> False).
    apply std_three_against_one.
    unfold Rabs. destruct (Rcase_abs (0 - 255)); lra.
  - do 4 eexists. split; reflexivity.
Qed.







(** C10: the orientation target is read off the base rotation before the
    skew is added.  Two document draws whose loops end with the same
    base rotation give the same Y3, one of 1, 2, 3 and 4, whatever their
    skews, and the views are rendered at the base rotation plus the skew
    of each draw.  The global name [max_skew] is looked up after Y3 is
    set: when it is unbound both calls end with the [NameError] and
    return no sample. *)
Theorem orientation_ignores_skew
    (Tensor : Type) (normalize : ViewPatch -> Tensor)
    (negative : nat -> Rng.M ViewPatch) (max_skew : option Q)
    (fuel fuel' : nat) (d d' d1 d1' : SegmentationDataset.t)
    (g g' g1 g1' : Rng.rng)
    (c c' : Z * Z) (r : Z) (z z' : Q) (p p' : ViewPatch) :
  Rng.valid g -> Rng.valid g' ->
  Num.ltb (g 0%nat) 0.2 = false -> Num.ltb (g' 0%nat) 0.2 = false ->
  SegmentationDataset.draw fuel d (Rng.advance g) = (Some (c, r, z, p, d1), g1) ->
  SegmentationDataset.draw fuel' d' (Rng.advance g') = (Some (c', r, z', p', d1'), g1') ->
  In (r / 90 + 1)%Z [1; 2; 3; 4]%Z /\
  match max_skew with
  | None =>
      SegmentationDataset.getitem normalize negative max_skew fuel d g =
        (Some (SegmentationDataset.NameError Tensor, d1), Rng.advance g1) /\
      SegmentationDataset.getitem normalize negative max_skew fuel' d' g' =
        (Some (SegmentationDataset.NameError Tensor, d1'), Rng.advance g1')
  | Some m =>
      exists s s' e e',
        SegmentationDataset.getitem normalize negative max_skew fuel d g =
          (Some (SegmentationDataset.Returned s, e), Rng.advance g1) /\
        SegmentationDataset.getitem normalize negative max_skew fuel' d' g' =
          (Some (SegmentationDataset.Returned s', e'), Rng.advance g1') /\
        SegmentationDataset.Y3 s = (r / 90 + 1)%Z /\
        SegmentationDataset.Y3 s' = SegmentationDataset.Y3 s /\
        last (SegmentationDataset.view e) =
          Some (mkState c (r + SegmentationDataset.skew m (g1 0%nat)) z) /\
        last (SegmentationDataset.view e') =
          Some (mkState c' (r + SegmentationDataset.skew m (g1' 0%nat)) z')
  end.
Proof.
  intros V V' Hdoc Hdoc' Hd Hd'.
  split.
  - apply SegmentationFacts.draw_accepts in Hd; [|now apply RngFacts.valid_advance].
    destruct Hd as (Hr & _).
    destruct Hr as [<-|[<-|[<-|[<-|[]]]]]; simpl; tauto.
  - rewrite !SegmentationFacts.getitem_document by assumption.
    rewrite Hd, Hd'.
    destruct max_skew as [m|]; [|split; reflexivity].
    rewrite !SegmentationFacts.render_sample_eq. cbv zeta.
    do 4 eexists. repeat split; reflexivity.
Qed.

(** Two document draws on the page with the dot, with the variates 0.5
    and 0.9 for the skew: as the notebook stands, with no [max_skew]
    bound, both end with the [NameError]; with [max_skew] bound to 3
    both return the orientation 3, for views turned by 179 and by 180
    degrees. *)
Lemma orientation_ignores_skew_witness :
  (exists d1 d1',
     fst (SegmentationDataset.getitem plain noise None 1 dot_segmentation
            (stream [0.5; 0.25; 0.5; 0; 0.5]%Q)) =
       Some (SegmentationDataset.NameError _, d1) /\
     fst (SegmentationDataset.getitem plain noise None 1 dot_segmentation
            (stream [0.5; 0.25; 0.5; 0; 0.9]%Q)) =
       Some (SegmentationDataset.NameError _, d1')) /\
  (exists s s' e e' st st',
     fst (SegmentationDataset.getitem plain noise (Some 3%Q) 1 dot_segmentation
            (stream [0.5; 0.25; 0.5; 0; 0.5]%Q)) =
       Some (SegmentationDataset.Returned s, e) /\
     fst (SegmentationDataset.getitem plain noise (Some 3%Q) 1 dot_segmentation
            (stream [0.5; 0.25; 0.5; 0; 0.9]%Q)) =
       Some (SegmentationDataset.Returned s', e') /\
     SegmentationDataset.Y3 s = 3%Z /\ SegmentationDataset.Y3 s' = 3%Z /\
     last (SegmentationDataset.view e) = Some st /\
     last (SegmentationDataset.view e') = Some st' /\
     rotation st = 179%Z /\ rotation st' = 180%Z).
Proof.
  assert (V : Rng.valid (stream [0.5; 0.25; 0.5; 0; 0.5]%Q)).
  { apply stream_valid. repeat constructor; intro C; discriminate C. }
  assert (V' : Rng.valid (stream [0.5; 0.25; 0.5; 0; 0.9]%Q)).
  { apply stream_valid. repeat constructor; intro C; discriminate C. }
  destruct (dot_segmentation_draw 0.5) as (z & p & d1 & g1 & Hd & Hw).
  destruct (dot_segmentation_draw 0.9) as (z' & p' & d1' & g1' & Hd' & Hw').
  split.
  - destruct (@orientation_ignores_skew _ plain noise None 1 1
                dot_segmentation dot_segmentation d1 d1'
                (stream [0.5; 0.25; 0.5; 0; 0.5]%Q) (stream [0.5; 0.25; 0.5; 0; 0.9]%Q)
                g1 g1' (1, 1)%Z (1, 1)%Z 180%Z z z' p p'
                V V' eq_refl eq_refl Hd Hd') as (_ & Hg & Hg').
    exists d1, d1'. rewrite Hg, Hg'. split; reflexivity.
  - destruct (@orientation_ignores_skew _ plain noise (Some 3%Q) 1 1
                dot_segmentation dot_segmentation d1 d1'
                (stream [0.5; 0.25; 0.5; 0; 0.5]%Q) (stream [0.5; 0.25; 0.5; 0; 0.9]%Q)
                g1 g1' (1, 1)%Z (1, 1)%Z 180%Z z z' p p'
                V V' eq_refl eq_refl Hd Hd')
      as (_ & s & s' & e & e' & Hg & Hg' & HY & Hsame & L & L').
    exists s, s', e, e'. eexists. eexists.
    rewrite Hg, Hg'.
    split; [reflexivity|]. split; [reflexivity|].
    split; [exact HY|]. split; [rewrite Hsame; exact HY|].
    split; [exact L|]. split; [exact L'|].
    cbn [rotation]. rewrite Hw, Hw'. split; reflexivity.
Defined.

(** The block seen from (128, 128) at zoom -1, a field of view of side
    64: it sits in the middle of the patch, rows and columns 14 to 18,
    and a quarter turn about the same center shows the same patch. *)
Example block_centered :
  render block_view (128, 128)%Z 0 (-1) =
  tabulate 32 (fun i j =>
    [if ((14 <=? i) && (i <=? 18) && (14 <=? j) && (j <=? 18))%nat
     then 200 else 100]).
Proof.
  rewrite (@RenderFacts.render_quarter_scaled _ _ _ _ 2);
    [reflexivity | simpl; tauto | apply TransformFacts.zoom_minus_one_scale; reflexivity].
Qed.

Example block_quarter_turn :
  render block_view (128, 128)%Z 90 (-1) = render block_view (128, 128)%Z 0 (-1).
Proof.
  rewrite !(@RenderFacts.render_quarter_scaled _ _ _ _ 2);
    [reflexivity | simpl; tauto | apply TransformFacts.zoom_minus_one_scale; reflexivity
     | simpl; tauto | apply TransformFacts.zoom_minus_one_scale; reflexivity].
Qed.

End SamplingFacts.

(** ** What a free viewport can be

    The generator is a stream of variates of [0, 1).  How often a
    rotation or a zoom is drawn is read off the variates that give it:
    the length of the interval of variates for a rotation, the way the
    zoom depends on its variate. *)

Module FreeModeFacts.

Import Rng Pages.
Local Open Scope Q_scope.

Lemma rotation_viewport_range d g :
  valid g ->
  let '(_, rotation, zoom) := RotationDataset.viewport_of d g in
  (0 <= rotation < 360)%Z /\ -3 <= zoom /\ zoom <= -1.
Proof.
  intro V. unfold RotationDataset.viewport_of.
  split; [apply (RngFacts.randint_range V); lia|].
  destruct (V 3%nat) as [A B]. split; lra.
Qed.

Lemma multitask_viewport_range d g :
  valid g ->
  let '(_, rotation, zoom) := MultitaskPretrainingDataset.viewport_of d g in
  (0 <= rotation < 360)%Z /\ -3.5 <= zoom /\ zoom < 0.5.
Proof.
  intro V. unfold MultitaskPretrainingDataset.viewport_of.
  assert (V2 : valid (advance (advance g))) by now repeat apply RngFacts.valid_advance.
  split.
  - destruct (Num.ltb (g 1%nat) (MultitaskPretrainingDataset.aligned_fraction d)).
    + pose proof (@RngFacts.choice_In MultitaskPretrainingDataset.aligned _ V2
                    ltac:(discriminate)) as H.
      destruct H as [<-|[<-|[<-|[<-|[]]]]]; lia.
    + apply (RngFacts.randint_range V2). lia.
  - destruct (V 3%nat) as [A B]. split; lra.
Qed.

(** Every viewport of [RotationDataset] covers at least two view sizes
    of the page. *)
Lemma rotation_viewport_crop d g :
  valid g ->
  let '(c, rotation, zoom) := RotationDataset.viewport_of d g in
  (2 <= Render.scale (Render.mkState c rotation zoom))%R.
Proof.
  intro V. pose proof (rotation_viewport_range d V) as H.
  destruct (RotationDataset.viewport_of d g) as [[c r] z].
  destruct H as (_ & _ & Hz). unfold Render.scale. cbn [Render.zoom].
  apply Qle_Rle in Hz.
  replace (Q2R (-1)) with (-1)%R in Hz by (unfold Q2R; simpl; lra).
  rewrite <- (Rpower_1 2) at 1 by lra.
  apply Rle_Rpower; lra.
Qed.

(** The variates for which a floor is k. *)
Lemma floor_is (x : Q) (k : Z) :
  Qfloor x = k <-> inject_Z k <= x /\ x < inject_Z k + 1.
Proof.
  split.
  - intros <-. split; [apply Qfloor_le|].
    pose proof (Qlt_floor x) as H. rewrite inject_Z_plus in H. exact H.
  - intros [L U].
    assert (A : (k <= Qfloor x)%Z).
    { rewrite <- (Qfloor_Z k). now apply Qfloor_resp_le. }
    assert (B : (Qfloor x < k + 1)%Z).
    { rewrite Zlt_Qlt, inject_Z_plus. eapply Qle_lt_trans; [apply Qfloor_le | exact U]. }
    lia.
Qed.

(** [np.random.randint(0, 360)] returns k for the variates of an
    interval of length 1/360. *)
Lemma randint_360_is (g : rng) (k : Z) :
  fst (randint 0 360 g) = k <->
  inject_Z k <= 360 * g 0%nat /\ 360 * g 0%nat < inject_Z k + 1.
Proof.
  unfold randint. cbn [fst]. rewrite Z.add_0_l, floor_is.
  change (inject_Z (360 - 0)) with 360.
  rewrite (Qmult_comm (g 0%nat) 360). reflexivity.
Qed.

(** C7, as stated, fails.  A viewport of [MultitaskPretrainingDataset]
    whose second variate is below aligned_fraction (0.2 unless the
    caller says otherwise) takes its rotation from 0, 90, 180 and 270:
    with the variates 0.5, 0.1, 0.3 and 0.5 the rotation is 90, where the
    rotation variate 0.3 stands for 108 of [0, 360).  And the zoom is not
    drawn toward zooming in: here it is -1.5, a field of view of more
    than two view sizes, and in [RotationDataset] with the same variates
    it is -2, a field of view of four view sizes. *)
Lemma free_viewport_is_not_uniform :
  Num.ltb 0.1 (MultitaskPretrainingDataset.aligned_fraction dot_multitask) = true /\
  MultitaskPretrainingDataset.viewport_of dot_multitask (stream [0.5; 0.1; 0.3; 0.5]) =
    ((2, 2)%Z, 90%Z, 0.5 * 4.0 - 3.5) /\
  fst (randint 0 360 (stream [0.3; 0.5])) = 108%Z /\
  0.5 * 4.0 - 3.5 == -1.5 /\
  snd (RotationDataset.viewport_of dot_rotation (stream [0.5; 0.1; 0.3; 0.5])) == -2 /\
  (let '(c, r, z) :=
     RotationDataset.viewport_of dot_rotation (stream [0.5; 0.1; 0.3; 0.5]) in
   Render.scale (Render.mkState c r z) = 4%R).
Proof.
  split; [reflexivity|]. split; [reflexivity|]. split; [reflexivity|].
  split; [reflexivity|]. split; [reflexivity|].
  destruct (RotationDataset.viewport_of _ _) as [[c r] z] eqn:E.
  lazy in E. inversion E; subst c r z.
  unfold Render.scale. cbn [Render.zoom].
  replace (- Q2R (-20 # 10))%R with (1 + 1)%R by (unfold Q2R; simpl; lra).
  rewrite Rpower_plus, Rpower_1 by lra. lra.
Qed.

(** C7 (amended): a free rotation is drawn with
    [np.random.randint(0, 360)]: it is an integer of [0, 360), and each
    of them is returned for the variates of an interval of the same
    length 1/360.  [RotationDataset] draws every rotation so;
    [MultitaskPretrainingDataset] does when the second variate of the
    viewport is not below aligned_fraction, and otherwise takes the
    rotation from 0, 90, 180 and 270.  The zoom is read off one variate,
    with no bias: in [MultitaskPretrainingDataset] it is 4 u - 3.5,
    between -3.5 and 0.5, and not above 0 unless the variate is above
    0.875; in [RotationDataset] it lies between -3 and -1, so that the
    field of view is never below two view sizes. *)
Theorem free_viewport_law
    (dm : MultitaskPretrainingDataset.t) (dr : RotationDataset.t) (g : rng) :
  valid g ->
  let rm := snd (fst (MultitaskPretrainingDataset.viewport_of dm g)) in
  let zm := snd (MultitaskPretrainingDataset.viewport_of dm g) in
  let rr := snd (fst (RotationDataset.viewport_of dr g)) in
  let zr := snd (RotationDataset.viewport_of dr g) in
  ((0 <= rr < 360)%Z /\
   forall k, rr = k <->
             inject_Z k <= 360 * g 0%nat /\ 360 * g 0%nat < inject_Z k + 1) /\
  (Num.ltb (g 1%nat) (MultitaskPretrainingDataset.aligned_fraction dm) = false ->
   (0 <= rm < 360)%Z /\
   forall k, rm = k <->
             inject_Z k <= 360 * g 2%nat /\ 360 * g 2%nat < inject_Z k + 1) /\
  (Num.ltb (g 1%nat) (MultitaskPretrainingDataset.aligned_fraction dm) = true ->
   In rm [0; 90; 180; 270]%Z) /\
  (zm == 4 * g 3%nat - 3.5 /\ -3.5 <= zm /\ zm <= 0.5 /\
   (g 3%nat <= 0.875 -> zm <= 0)) /\
  (-3 <= zr /\ zr <= -1 /\
   (2 <= Render.scale
           (Render.mkState (fst (fst (RotationDataset.viewport_of dr g))) rr zr))%R).
Proof.
  intros V rm zm rr zr.
  assert (V2 : valid (advance (advance g))) by now repeat apply RngFacts.valid_advance.
  destruct (V 3%nat) as [A B].
  split; [|split; [|split; [|split]]].
  - split; [apply (RngFacts.randint_range V); lia|].
    intro k. apply randint_360_is.
  - intro Hf. unfold rm, MultitaskPretrainingDataset.viewport_of. cbn [fst snd].
    rewrite Hf.
    split; [apply (RngFacts.randint_range V2); lia|].
    intro k. apply (randint_360_is (advance (advance g))).
  - intro Ht. unfold rm, MultitaskPretrainingDataset.viewport_of. cbn [fst snd].
    rewrite Ht.
    apply (@RngFacts.choice_In MultitaskPretrainingDataset.aligned _ V2).
    discriminate.
  - unfold zm, MultitaskPretrainingDataset.viewport_of. cbn [snd].
    split; [ring|]. split; [lra|]. split; [lra|]. intro H. lra.
  - pose proof (rotation_viewport_crop dr V) as C.
    unfold zr, rr. destruct (RotationDataset.viewport_of dr g) as [[c r] z] eqn:E.
    cbn [fst snd].
    assert (Ez : z = (-1 - g 3%nat * 2)).
    { unfold RotationDataset.viewport_of in E. now inversion E. }
    split; [rewrite Ez; lra|]. split; [rewrite Ez; lra|].
    exact C.
Qed.

Lemma short_stream_valid : valid (stream [0.5; 0.9; 0.3; 0.5]).
Proof.
  intro n. unfold stream.
  destruct n as [|[|[|[|n]]]]; cbn [nth];
    try (split; [intro C; discriminate C | reflexivity]).
  destruct n; split; try (intro C; discriminate C); reflexivity.
Qed.

(** The viewports of the two datasets for the variates 0.5, 0.9, 0.3 and
    0.5: the rotation variate is 0.5 in [RotationDataset], hence 180
    degrees, and 0.3 in [MultitaskPretrainingDataset], hence 108. *)
Lemma free_viewport_law_witness :
  snd (fst (RotationDataset.viewport_of dot_rotation
              (stream [0.5; 0.9; 0.3; 0.5]))) = 180%Z /\
  snd (fst (MultitaskPretrainingDataset.viewport_of dot_multitask
              (stream [0.5; 0.9; 0.3; 0.5]))) = 108%Z /\
  snd (MultitaskPretrainingDataset.viewport_of dot_multitask
         (stream [0.5; 0.9; 0.3; 0.5])) <= 0.
Proof.
  destruct (@free_viewport_law dot_multitask dot_rotation
              (stream [0.5; 0.9; 0.3; 0.5]) short_stream_valid)
    as ((_ & HR) & HM & _ & (_ & _ & _ & HZ) & _).
  split; [|split].
  - apply HR. split; [intro C; discriminate C | reflexivity].
  - apply (HM eq_refl). split; [intro C; discriminate C | reflexivity].
  - apply HZ. intro C. discriminate C.
Defined.

End FreeModeFacts.

(** ** The targets of a sample *)

Module LabelFacts.

Import Rng.
Local Open Scope Q_scope.

Lemma valid_iter (next : rng -> rng) :
  (forall g, valid g -> valid (next g)) ->
  forall k g, valid g -> valid (Nat.iter k next g).
Proof.
  intros Hn k. induction k as [|k IH]; intros g V; [exact V|].
  cbn [Nat.iter nat_rect]. apply Hn. now apply IH.
Qed.

Lemma regression_low (r : Z) :
  (r <= 180)%Z -> 180 * RotationDataset.regression r == inject_Z r.
Proof.
  intro H. unfold RotationDataset.regression.
  destruct (180 <? r)%Z eqn:E; [apply Z.ltb_lt in E; lia|]. field.
Qed.

Lemma regression_high (r : Z) :
  (180 < r)%Z -> 180 * RotationDataset.regression r == inject_Z r - 360.
Proof.
  intro H. unfold RotationDataset.regression.
  destruct (180 <? r)%Z eqn:E; [|apply Z.ltb_ge in E; lia]. field.
Qed.

Lemma regression_times_180 (r : Z) :
  180 * RotationDataset.regression r ==
  inject_Z (if (180 <? r)%Z then r - 360 else r).
Proof.
  destruct (180 <? r)%Z eqn:E.
  - apply Z.ltb_lt in E. rewrite (regression_high E).
    replace (r - 360)%Z with (r + -360)%Z by lia.
    rewrite inject_Z_plus. change (inject_Z (-360)) with (-360). ring.
  - apply Z.ltb_ge in E. apply (regression_low E).
Qed.

(** X1: the regression target of [RotationDataset] is the rotation as a
    signed angle, counted in half turns: for a rotation of [0, 360) it
    lies in (-1, 1], it is negative exactly for the rotations above 180,
    and 180 times the target is the rotation itself up to 180 and the
    rotation minus one full turn above. *)
Theorem regression_is_signed_half_turn (r : Z) :
  (0 <= r < 360)%Z ->
  -1 < RotationDataset.regression r /\
  RotationDataset.regression r <= 1 /\
  (RotationDataset.regression r < 0 <-> (180 < r)%Z) /\
  180 * RotationDataset.regression r ==
    inject_Z (if (180 <? r)%Z then r - 360 else r).
Proof.
  intros [H0 H1]. pose proof (regression_times_180 r) as F.
  assert (A : inject_Z 0 <= inject_Z r) by (rewrite <- Zle_Qle; lia).
  change (inject_Z 0) with 0 in A.
  assert (B : inject_Z r < inject_Z 360) by (rewrite <- Zlt_Qlt; lia).
  change (inject_Z 360) with 360 in B.
  split; [|split; [|split; [|exact F]]].
  - destruct (180 <? r)%Z eqn:E.
    + apply Z.ltb_lt in E. rewrite (regression_high E) in F.
      assert (C : inject_Z 180 < inject_Z r) by (rewrite <- Zlt_Qlt; lia).
      change (inject_Z 180) with 180 in C.
      pose proof (regression_high E). lra.
    + apply Z.ltb_ge in E. pose proof (regression_low E). lra.
  - destruct (180 <? r)%Z eqn:E.
    + apply Z.ltb_lt in E. pose proof (regression_high E). lra.
    + apply Z.ltb_ge in E. pose proof (regression_low E).
      assert (C : inject_Z r <= inject_Z 180) by (rewrite <- Zle_Qle; lia).
      change (inject_Z 180) with 180 in C. lra.
  - destruct (180 <? r)%Z eqn:E.
    + apply Z.ltb_lt in E. pose proof (regression_high E). split; [intros _; exact E|].
      intros _. lra.
    + apply Z.ltb_ge in E. pose proof (regression_low E). split; [|lia].
      intro N. exfalso. lra.
Qed.

Lemma regression_is_signed_half_turn_witness :
  -1 < RotationDataset.regression 270 /\
  RotationDataset.regression 270 <= 1 /\
  (RotationDataset.regression 270 < 0 <-> (180 < 270)%Z) /\
  180 * RotationDataset.regression 270 == inject_Z (-90).
Proof. apply (@regression_is_signed_half_turn 270). lia. Defined.

(** X2: distinct rotations of [0, 360) have distinct regression
    targets, so the rotation can be read back off the target. *)
Theorem regression_injective (r1 r2 : Z) :
  (0 <= r1 < 360)%Z -> (0 <= r2 < 360)%Z ->
  RotationDataset.regression r1 == RotationDataset.regression r2 -> r1 = r2.
Proof.
  intros H1 H2 E.
  pose proof (regression_times_180 r1) as D1.
  pose proof (regression_times_180 r2) as D2.
  rewrite E in D1. rewrite D1 in D2. apply (proj1 (inject_Z_injective _ _)) in D2.
  destruct (180 <? r1)%Z; destruct (180 <? r2)%Z; lia.
Qed.

Lemma regression_injective_witness :
  (if (180 <? 300)%Z then 300 - 360 else 300)%Z = (-60)%Z /\ 300%Z = 300%Z.
Proof.
  split; [reflexivity|].
  apply (@regression_injective 300 300); [lia | lia | apply Qeq_refl].
Defined.

Lemma rotation_next_valid g : valid g -> valid (RotationDataset.next_draw g).
Proof. intro V. unfold RotationDataset.next_draw. now repeat apply RngFacts.valid_advance. Qed.

Lemma multitask_next_valid g : valid g -> valid (MultitaskPretrainingDataset.next_draw g).
Proof.
  intro V. unfold MultitaskPretrainingDataset.next_draw.
  now repeat apply RngFacts.valid_advance.
Qed.

(** X3: a sample of [RotationDataset.__getitem__] is labelled with the
    state its view was rendered for: the class target Y1 is the rotation
    of the accepted viewport, an integer of [0, 360) and so one of the
    360 classes of the classifier head, the regression target Y2 is the
    signed half-turn value of that same rotation, and the input X is the
    transform of the view rendered at rotation Y1, with a zoom of
    [-3, -1], that passed the threshold. *)
Theorem rotation_sample_is_labelled
    (Tensor : Type) (transform : Render.ViewPatch -> Tensor)
    (fuel : nat) (d : RotationDataset.t) (g g' : rng)
    (s : RotationDataset.Sample Tensor) :
  valid g ->
  RotationDataset.getitem transform fuel d g = (Some s, g') ->
  (0 <= RotationDataset.Y1 s < 360)%Z /\
  RotationDataset.Y2 s = RotationDataset.regression (RotationDataset.Y1 s) /\
  exists c z,
    -3 <= z /\ z <= -1 /\
    RotationDataset.X s =
      transform (Render.render (RotationDataset.nav d) c (RotationDataset.Y1 s) z) /\
    ~ (Render.std (Render.render (RotationDataset.nav d) c (RotationDataset.Y1 s) z)
       < 10)%R.
Proof.
  intros V H. rewrite RotationFacts.getitem_eq in H.
  destruct (RotationDataset.draw fuel d g) as [[x|] g1] eqn:E; [|discriminate H].
  destruct (RotationFacts.rotation_draw_returns _ _ _ E) as (k & _ & _ & Hacc & Hx & _).
  subst x. unfold RotationDataset.rejected, RotationDataset.candidate_view in Hacc.
  unfold RotationDataset.candidate_view in H.
  pose proof (FreeModeFacts.rotation_viewport_range d
                (@valid_iter _ rotation_next_valid k _ V)) as R.
  fold (RotationDataset.candidate d g k) in R.
  revert H Hacc R. destruct (RotationDataset.candidate d g k) as [[c r] z].
  cbv beta iota zeta. intros H Hacc (Rr & Rz1 & Rz2).
  inversion H; subst s g'. cbn [RotationDataset.Y1 RotationDataset.Y2 RotationDataset.X].
  split; [exact Rr|]. split; [reflexivity|].
  exists c, z. repeat split; assumption.
Qed.

(** The alignment target measures the distance to the nearest multiple
    of 90 degrees. *)
Lemma nearest_quarter_turn (r k : Z) :
  (Z.min (r mod 90) (90 - r mod 90) <= Z.abs (r - 90 * k))%Z.
Proof.
  pose proof (Z.div_mod r 90 ltac:(lia)) as D.
  pose proof (Z.mod_pos_bound r 90 ltac:(lia)) as B.
  lia.
Qed.

Lemma nearest_quarter_turn_reached (r : Z) :
  exists k, Z.abs (r - 90 * k) = Z.min (r mod 90) (90 - r mod 90).
Proof.
  pose proof (Z.div_mod r 90 ltac:(lia)) as D.
  pose proof (Z.mod_pos_bound r 90 ltac:(lia)) as B.
  destruct (Z_le_gt_dec (r mod 90) (90 - r mod 90)).
  - exists (r / 90)%Z. lia.
  - exists (r / 90 + 1)%Z. lia.
Qed.

Lemma alignment_cases (t : Q) (r : Z) :
  (inject_Z (Z.min (r mod 90) (90 - r mod 90)) <= t /\
   MultitaskPretrainingDataset.alignment t r = 2%Z) \/
  (t < inject_Z (Z.min (r mod 90) (90 - r mod 90)) /\
   MultitaskPretrainingDataset.alignment t r = 1%Z).
Proof.
  unfold MultitaskPretrainingDataset.alignment. cbv zeta.
  destruct (Qle_bool (inject_Z (Z.min (r mod 90) (90 - r mod 90))) t) eqn:E.
  - left. split; [now apply Qle_bool_iff | reflexivity].
  - right. split; [|reflexivity].
    apply Qnot_le_lt. intro L. apply Qle_bool_iff in L. congruence.
Qed.

(** X4: the alignment target of [MultitaskPretrainingDataset] is 2
    exactly when the rotation is within the threshold of some multiple
    of 90 degrees and 1 otherwise, whatever the threshold; with it the
    target does not change when the rotation is turned by a quarter. *)
Theorem alignment_reads_distance (t : Q) (r : Z) :
  (MultitaskPretrainingDataset.alignment t r = 2%Z <->
   exists k, inject_Z (Z.abs (r - 90 * k)) <= t) /\
  (MultitaskPretrainingDataset.alignment t r = 1%Z <->
   forall k, t < inject_Z (Z.abs (r - 90 * k))) /\
  MultitaskPretrainingDataset.alignment t (r + 90) =
  MultitaskPretrainingDataset.alignment t r.
Proof.
  split; [|split].
  - destruct (alignment_cases t r) as [[L E]|[L E]]; rewrite E; split.
    + intros _. destruct (nearest_quarter_turn_reached r) as [k Hk].
      exists k. now rewrite Hk.
    + reflexivity.
    + discriminate.
    + intros [k Hk]. exfalso.
      pose proof (nearest_quarter_turn r k) as N. rewrite Zle_Qle in N.
      apply (Qlt_irrefl t). eapply Qlt_le_trans; [exact L|].
      eapply Qle_trans; eassumption.
  - destruct (alignment_cases t r) as [[L E]|[L E]]; rewrite E; split.
    + discriminate.
    + intro A. exfalso. destruct (nearest_quarter_turn_reached r) as [k Hk].
      specialize (A k). rewrite Hk in A.
      apply (Qlt_irrefl t). eapply Qlt_le_trans; eassumption.
    + intros _ k. pose proof (nearest_quarter_turn r k) as N. rewrite Zle_Qle in N.
      eapply Qlt_le_trans; eassumption.
    + reflexivity.
  - unfold MultitaskPretrainingDataset.alignment.
    replace ((r + 90) mod 90)%Z with (r mod 90)%Z; [reflexivity|].
    replace (r + 90)%Z with (r + 1 * 90)%Z by lia. now rewrite Z.mod_add.
Qed.

Lemma multitask_getitem_negative
    (Tensor : Type) (transform : Render.ViewPatch -> Tensor)
    (negative : nat -> M Render.ViewPatch) fuel d g :
  Num.ltb (g 0%nat) (MultitaskPretrainingDataset.unknown_fraction d) = true ->
  MultitaskPretrainingDataset.getitem transform negative fuel d g =
  (Some (MultitaskPretrainingDataset.mkSample
           (transform (fst (negative (MultitaskPretrainingDataset.view_size d) (advance g))))
           (Target.zeros (MultitaskPretrainingDataset.view_size d))
           (Target.zeros (MultitaskPretrainingDataset.view_size d)) 0 360),
   snd (negative (MultitaskPretrainingDataset.view_size d) (advance g))).
Proof.
  intro Hneg. unfold MultitaskPretrainingDataset.getitem, bind at 1, rand.
  rewrite Hneg. unfold bind, ret.
  destruct (negative _ (advance g)) as [neg g1]. reflexivity.
Qed.

(** X5: every sample of [MultitaskPretrainingDataset.__getitem__]
    carries class targets that fit the heads and each other.  An
    out-of-class sample has Y3 = 0, Y4 = 360 and two all-zero masks; a
    document sample has Y4 in [0, 360), Y3 = 1 or 2 read off that same
    rotation, and its input view and both masks are rendered for one
    viewport whose rotation is Y4.  So Y3 is always one of the 3 and Y4
    one of the 361 classes, and Y4 = 360 marks exactly the samples with
    Y3 = 0. *)
Theorem multitask_sample_is_labelled
    (Tensor : Type) (transform : Render.ViewPatch -> Tensor)
    (negative : nat -> M Render.ViewPatch)
    (fuel : nat) (d : MultitaskPretrainingDataset.t) (g g' : rng)
    (s : MultitaskPretrainingDataset.Sample Tensor) :
  valid g ->
  MultitaskPretrainingDataset.getitem transform negative fuel d g = (Some s, g') ->
  (0 <= MultitaskPretrainingDataset.Y3 s <= 2)%Z /\
  (0 <= MultitaskPretrainingDataset.Y4 s <= 360)%Z /\
  (MultitaskPretrainingDataset.Y3 s = 0%Z <-> MultitaskPretrainingDataset.Y4 s = 360%Z) /\
  (Num.ltb (g 0%nat) (MultitaskPretrainingDataset.unknown_fraction d) = true ->
   MultitaskPretrainingDataset.Y3 s = 0%Z /\
   MultitaskPretrainingDataset.Y1 s =
     Target.zeros (MultitaskPretrainingDataset.view_size d) /\
   MultitaskPretrainingDataset.Y2 s =
     Target.zeros (MultitaskPretrainingDataset.view_size d)) /\
  (Num.ltb (g 0%nat) (MultitaskPretrainingDataset.unknown_fraction d) = false ->
   MultitaskPretrainingDataset.Y3 s =
     MultitaskPretrainingDataset.alignment
       (MultitaskPretrainingDataset.alignment_threshold d)
       (MultitaskPretrainingDataset.Y4 s) /\
   exists c z,
     -3.5 <= z /\ z < 0.5 /\
     MultitaskPretrainingDataset.X s =
       transform (Render.render (MultitaskPretrainingDataset.view d) c
                    (MultitaskPretrainingDataset.Y4 s) z) /\
     MultitaskPretrainingDataset.Y1 s =
       Target.segmentation_target
         (Render.render (MultitaskPretrainingDataset.segmentation d) c
            (MultitaskPretrainingDataset.Y4 s) z) /\
     MultitaskPretrainingDataset.Y2 s =
       Target.value_target
         (Render.render (MultitaskPretrainingDataset.value d) c
            (MultitaskPretrainingDataset.Y4 s) z)).
Proof.
  intros V H.
  destruct (Num.ltb (g 0%nat) (MultitaskPretrainingDataset.unknown_fraction d)) eqn:Hu.
  - rewrite (multitask_getitem_negative transform negative fuel d g Hu) in H.
    inversion H; subst s g'.
    cbn [MultitaskPretrainingDataset.Y1 MultitaskPretrainingDataset.Y2
         MultitaskPretrainingDataset.Y3 MultitaskPretrainingDataset.Y4].
    repeat split; first [lia | reflexivity | congruence | (intro C; discriminate C)].
  - rewrite (MultitaskFacts.multitask_getitem_document transform negative fuel d g Hu) in H.
    destruct (MultitaskPretrainingDataset.draw fuel d (advance g)) as [[x|] g1] eqn:E;
      [|discriminate H].
    destruct (MultitaskFacts.multitask_draw_returns _ _ _ E)
      as (k & _ & _ & _ & Hx & _).
    subst x. unfold MultitaskPretrainingDataset.candidate_view in H.
    pose proof (FreeModeFacts.multitask_viewport_range d
                  (@valid_iter _ multitask_next_valid k _ (RngFacts.valid_advance V))) as R.
    fold (MultitaskPretrainingDataset.candidate d (advance g) k) in R.
    revert H R. destruct (MultitaskPretrainingDataset.candidate d (advance g) k)
      as [[c r] z].
    cbv beta iota zeta. intros H (Rr & Rz1 & Rz2).
    inversion H; subst s g'.
    cbn [MultitaskPretrainingDataset.Y1 MultitaskPretrainingDataset.Y2
         MultitaskPretrainingDataset.Y3 MultitaskPretrainingDataset.Y4
         MultitaskPretrainingDataset.X].
    destruct (alignment_cases (MultitaskPretrainingDataset.alignment_threshold d) r)
      as [[_ A]|[_ A]]; rewrite A.
    + split; [lia|]. split; [lia|]. split; [split; intro C; [discriminate C | lia]|].
      split; [intro C; discriminate C|]. intros _. split; [reflexivity|].
      exists c, z. repeat split; assumption.
    + split; [lia|]. split; [lia|]. split; [split; intro C; [discriminate C | lia]|].
      split; [intro C; discriminate C|]. intros _. split; [reflexivity|].
      exists c, z. repeat split; assumption.
Qed.

(** X6: a call of [SegmentationDataset.__getitem__] that ends does so in
    one of three ways.  An out-of-class call returns a sample with
    Y3 = 0 and two all-zero masks and leaves the three views of the
    dataset as they were, whatever the name [max_skew] is bound to.  A
    document call with [max_skew] unbound ends with the [NameError]: the
    loop has rendered the input view, the class mask and the value
    raster are as they were.  A document call with [max_skew] bound to a
    positive number returns a sample with Y3 of 1 .. 4, and the rotation
    its three views were rendered at is the quarter turn 90 * (Y3 - 1)
    named by the target, lowered by at most [max_skew].  So a returned
    Y3 is always one of the 5 classes of the head. *)
Theorem segmentation_sample_is_labelled
    (Tensor : Type) (transform : Render.ViewPatch -> Tensor)
    (negative : nat -> M Render.ViewPatch) (max_skew : option Q)
    (fuel : nat) (d d' : SegmentationDataset.t) (g g' : rng)
    (res : SegmentationDataset.result Tensor) :
  valid g ->
  SegmentationDataset.getitem transform negative max_skew fuel d g
    = (Some (res, d'), g') ->
  (forall s, res = SegmentationDataset.Returned s ->
             (0 <= SegmentationDataset.Y3 s <= 4)%Z) /\
  (Num.ltb (g 0%nat) 0.2 = true ->
   exists s,
     res = SegmentationDataset.Returned s /\
     SegmentationDataset.Y3 s = 0%Z /\
     SegmentationDataset.Y1 s = Target.zeros (SegmentationDataset.view_size d) /\
     SegmentationDataset.Y2 s = Target.zeros (SegmentationDataset.view_size d) /\
     d' = d) /\
  (Num.ltb (g 0%nat) 0.2 = false ->
   match max_skew with
   | None =>
       res = SegmentationDataset.NameError Tensor /\
       SegmentationDataset.segmentation d' = SegmentationDataset.segmentation d /\
       SegmentationDataset.value d' = SegmentationDataset.value d
   | Some m =>
       0 < m ->
       exists s st,
         res = SegmentationDataset.Returned s /\
         (1 <= SegmentationDataset.Y3 s <= 4)%Z /\
         Render.last (SegmentationDataset.view d') = Some st /\
         Render.last (SegmentationDataset.segmentation d') = Some st /\
         Render.last (SegmentationDataset.value d') = Some st /\
         (Render.rotation st <= 90 * (SegmentationDataset.Y3 s - 1))%Z /\
         inject_Z (90 * (SegmentationDataset.Y3 s - 1)) - m
           <= inject_Z (Render.rotation st)
   end).
Proof.
  intros V H.
  destruct (Num.ltb (g 0%nat) 0.2) eqn:Hu.
  - rewrite SegmentationFacts.getitem_negative in H by exact Hu.
    inversion H; subst res d' g'.
    split; [|split].
    + intros s E. inversion E; subst s. cbn [SegmentationDataset.Y3]. lia.
    + intros _. eexists. repeat split; reflexivity.
    + intro C. discriminate C.
  - rewrite SegmentationFacts.getitem_document in H by exact Hu.
    destruct (SegmentationDataset.draw fuel d (advance g))
      as [[[[[[c r] z] p] d1]|] g1] eqn:Hd; [|discriminate H].
    apply SegmentationFacts.draw_accepts in Hd; [|now apply RngFacts.valid_advance].
    destruct Hd as (Hr & _ & _ & _ & Hs & Hv & _ & _ & Vg).
    assert (Hq : (90 * ((r / 90 + 1) - 1) = r)%Z /\ (1 <= r / 90 + 1 <= 4)%Z).
    { destruct Hr as [<-|[<-|[<-|[<-|[]]]]]; simpl; lia. }
    destruct Hq as [Hq Hb].
    destruct max_skew as [m|].
    + rewrite SegmentationFacts.render_sample_eq in H. cbv zeta in H.
      inversion H; subst res d' g'.
      split; [|split].
      * intros s E. inversion E; subst s. cbn [SegmentationDataset.Y3]. lia.
      * intro C. discriminate C.
      * intros _ Hm. destruct (Vg 0%nat) as [U0 U1].
        pose proof (SkewFacts.skew_nonpos Hm U0 U1) as SN.
        pose proof (SkewFacts.skew_lower Hm U0 U1) as SL.
        eexists. eexists. split; [reflexivity|].
        cbn [SegmentationDataset.Y3 SegmentationDataset.view
             SegmentationDataset.segmentation SegmentationDataset.value
             SegmentationDataset.remember Render.last].
        split; [exact Hb|].
        split; [reflexivity|]. split; [reflexivity|]. split; [reflexivity|].
        cbn [Render.rotation]. rewrite Hq. split; [lia|].
        rewrite inject_Z_plus. lra.
    + inversion H; subst res d' g'.
      split; [|split].
      * intros s E. discriminate E.
      * intro C. discriminate C.
      * intros _. split; [reflexivity|]. split; assumption.
Qed.


Import Pages.

Lemma dot_rotation_getitem :
  exists s g',
    RotationDataset.getitem plain 2 dot_rotation
      (stream [0; 0.5; 0.5; 0; 0.5; 0.5; 0.5; 0]) = (Some s, g').
Proof.
  rewrite RotationFacts.getitem_eq.
  rewrite (@RotationFacts.rotation_draw_first_accepted 2 dot_rotation
             (stream [0; 0.5; 0.5; 0; 0.5; 0.5; 0.5; 0]) 1).
  - destruct (RotationDataset.candidate _ _ _) as [[c r] z]. eexists. eexists. reflexivity.
  - intros i Hi. assert (i = 0%nat) as -> by lia.
    unfold RotationDataset.rejected. rewrite SamplingFacts.dot_rotation_first.
    apply SamplingFacts.std_flat.
  - unfold RotationDataset.rejected. rewrite SamplingFacts.dot_rotation_second.
    apply SamplingFacts.std_three_against_one.
    unfold Rabs. destruct (Rcase_abs (255 - 0)); lra.
  - lia.
Qed.

Lemma rotation_sample_is_labelled_witness :
  exists s,
    fst (RotationDataset.getitem plain 2 dot_rotation
           (stream [0; 0.5; 0.5; 0; 0.5; 0.5; 0.5; 0])) = Some s /\
    (0 <= RotationDataset.Y1 s < 360)%Z /\
    RotationDataset.Y2 s = RotationDataset.regression (RotationDataset.Y1 s).
Proof.
  destruct dot_rotation_getitem as (s & g' & H).
  assert (V : valid (stream [0; 0.5; 0.5; 0; 0.5; 0.5; 0.5; 0])).
  { apply SamplingFacts.stream_valid. repeat constructor; intro C; discriminate C. }
  destruct (@rotation_sample_is_labelled _ plain 2 dot_rotation _ g' s V H) as (A & B & _).
  exists s. rewrite H. split; [reflexivity|]. split; assumption.
Defined.

Lemma dot_multitask_getitem :
  exists s g',
    MultitaskPretrainingDataset.getitem plain noise 2 dot_multitask
      (stream [0.5; 0.5; 0.1; 0; 0.625; 0.25; 0.1; 0.5; 0.625]) = (Some s, g').
Proof.
  rewrite MultitaskFacts.multitask_getitem_document by reflexivity.
  change (advance (stream [0.5; 0.5; 0.1; 0; 0.625; 0.25; 0.1; 0.5; 0.625]))
    with (stream [0.5; 0.1; 0; 0.625; 0.25; 0.1; 0.5; 0.625]).
  rewrite (@MultitaskFacts.multitask_draw_first_accepted 2 dot_multitask
             (stream [0.5; 0.1; 0; 0.625; 0.25; 0.1; 0.5; 0.625]) 1).
  - destruct (MultitaskPretrainingDataset.candidate _ _ _) as [[c r] z].
    eexists. eexists. reflexivity.
  - intros i Hi. assert (i = 0%nat) as -> by lia.
    unfold MultitaskPretrainingDataset.rejected.
    rewrite SamplingFacts.dot_multitask_first. apply SamplingFacts.std_flat.
  - unfold MultitaskPretrainingDataset.rejected.
    rewrite SamplingFacts.dot_multitask_second.
    apply SamplingFacts.std_three_against_one.
    unfold Rabs. destruct (Rcase_abs (0 - 255)); lra.
  - lia.
Qed.

Lemma multitask_sample_is_labelled_witness :
  exists s,
    fst (MultitaskPretrainingDataset.getitem plain noise 2 dot_multitask
           (stream [0.5; 0.5; 0.1; 0; 0.625; 0.25; 0.1; 0.5; 0.625])) = Some s /\
    (0 <= MultitaskPretrainingDataset.Y3 s <= 2)%Z /\
    (0 <= MultitaskPretrainingDataset.Y4 s <= 360)%Z.
Proof.
  destruct dot_multitask_getitem as (s & g' & H).
  assert (V : valid (stream [0.5; 0.5; 0.1; 0; 0.625; 0.25; 0.1; 0.5; 0.625])).
  { apply SamplingFacts.stream_valid. repeat constructor; intro C; discriminate C. }
  destruct (@multitask_sample_is_labelled _ plain noise 2 dot_multitask _ g' s V H)
    as (A & B & _).
  exists s. rewrite H. split; [reflexivity|]. split; assumption.
Defined.

(** An out-of-class call on the page with the dot, as the notebook
    stands, with no [max_skew] bound. *)
Lemma segmentation_sample_is_labelled_witness :
  exists s,
    fst (SegmentationDataset.getitem plain noise None 1 dot_segmentation
           (stream [0.1])) = Some (SegmentationDataset.Returned s, dot_segmentation) /\
    SegmentationDataset.Y3 s = 0%Z.
Proof.
  assert (V : valid (stream [0.1])).
  { apply SamplingFacts.stream_valid. repeat constructor; intro C; discriminate C. }
  destruct (SegmentationDataset.getitem plain noise None 1 dot_segmentation
              (stream [0.1])) as [[[res d']|] g'] eqn:H; [|discriminate H].
  destruct (@segmentation_sample_is_labelled _ plain noise None 1 dot_segmentation d'
              (stream [0.1]) g' res V H) as (_ & N & _).
  destruct (N eq_refl) as (s & -> & Y & _ & _ & ->).
  exists s. split; [reflexivity | exact Y].
Defined.

End LabelFacts.

(** ** Class channels and value cells *)

Module ChannelFacts.

Import Target.
Local Open Scope R_scope.

Lemma above_255 : above (IZR 255) = 1%Z.
Proof. unfold above. destruct (Rlt_dec 0.25 (IZR 255 / 255)) as [_|N]; [reflexivity|]. exfalso. apply N. lra. Qed.

Lemma above_0 : above (IZR 0) = 0%Z.
Proof. unfold above. destruct (Rlt_dec 0.25 (IZR 0 / 255)) as [L|_]; [|reflexivity]. exfalso. lra. Qed.

(** The thresholded channels of class [m]: 1 in the channel of [m], 0
    elsewhere. *)
Lemma above_channels (m : Z) (l : list nat) :
  map above (map IZR (map (fun k => if (m =? Z.of_nat k)%Z then 255%Z else 0%Z) l)) =
  map (fun k => if (m =? Z.of_nat k)%Z then 1%Z else 0%Z) l.
Proof.
  rewrite !map_map. apply map_ext. intro k.
  destruct (m =? Z.of_nat k)%Z; [apply above_255 | apply above_0].
Qed.

Lemma argmax_one_hot (m : Z) : forall len start at_best,
  (at_best < start)%nat ->
  argmax_from 0 at_best start
    (map (fun k => if (m =? Z.of_nat k)%Z then 1%Z else 0%Z) (seq start len)) =
  if ((Z.of_nat start <=? m) && (m <? Z.of_nat (start + len)))%Z
  then Z.to_nat m else at_best.
Proof.
  induction len as [|len IH]; intros start at_best H.
  - cbn [seq map argmax_from].
    destruct (Z.leb_spec (Z.of_nat start) m); destruct (Z.ltb_spec m (Z.of_nat (start + 0)));
      cbn [andb]; try reflexivity. lia.
  - cbn [seq map argmax_from].
    destruct (Z.eqb_spec m (Z.of_nat start)) as [E|E].
    + change (0 <? 1)%Z with true. cbv iota.
      destruct (@TargetFacts.argmax_from_keeps
                  (map (fun k => if (m =? Z.of_nat k)%Z then 1%Z else 0%Z)
                       (seq (S start) len)) 1%Z start (S start) ltac:(lia)) as [I _].
      rewrite (proj2 I).
      * destruct (Z.leb_spec (Z.of_nat start) m);
          destruct (Z.ltb_spec m (Z.of_nat (start + S len))); cbn [andb]; lia.
      * rewrite Forall_map. apply Forall_forall. intros k _.
        destruct (m =? Z.of_nat k)%Z; lia.
    + change (0 <? 0)%Z with false. cbv iota.
      rewrite IH by lia.
      destruct (Z.leb_spec (Z.of_nat (S start)) m);
        destruct (Z.ltb_spec m (Z.of_nat (S start + len)));
        destruct (Z.leb_spec (Z.of_nat start) m);
        destruct (Z.ltb_spec m (Z.of_nat (start + S len))); cbn [andb]; try reflexivity; lia.
Qed.

Lemma label_one_hot (n : nat) (m : Z) :
  (0 <= m < Z.of_nat n)%Z ->
  label (map IZR (map (fun k => if (m =? Z.of_nat k)%Z then 255%Z else 0%Z)
                      (seq 1 (n - 1)))) = m.
Proof.
  intro H. unfold label, argmax. rewrite above_channels.
  rewrite argmax_one_hot by lia.
  destruct (Z.leb_spec (Z.of_nat 1) m); destruct (Z.ltb_spec m (Z.of_nat (1 + (n - 1))));
    cbn [andb]; lia.
Qed.

Lemma each_map {A B} (f : A -> option B) (g : A -> B) (l : list A) :
  Forall (fun x => f x = Some (g x)) l -> each f l = Some (map g l).
Proof.
  induction 1 as [|x t Hx _ IH]; [reflexivity|].
  cbn [each map]. now rewrite Hx, IH.
Qed.

(** The channels of a class [m] of 0 .. n-1: 255 in the channel of [m],
    0 elsewhere, the channel of class 0 left out. *)
Lemma class_cell (n : nat) (m : Z) :
  (0 <= m < Z.of_nat n)%Z ->
  option_map (fun row => map (fun x => if (0 <? x)%Z then 255%Z else 0%Z) (tl row))
             (eye_row n m) =
  Some (map (fun k => if (m =? Z.of_nat k)%Z then 255%Z else 0%Z) (seq 1 (n - 1))).
Proof.
  intro H. unfold eye_row.
  destruct (Z.leb_spec (- Z.of_nat n) m); [|lia].
  destruct (Z.ltb_spec m (Z.of_nat n)); [|lia].
  destruct (Z.ltb_spec m 0); [lia|].
  cbn [andb option_map]. f_equal.
  destruct n as [|n]; [lia|].
  cbn [seq map tl]. rewrite Nat.sub_succ, Nat.sub_0_r, map_map.
  apply map_ext. intro k. now destruct (m =? Z.of_nat k)%Z.
Qed.

(** X7: thresholding the class channels and taking the argmax gives the
    class mask back: for a mask whose entries are classes 0 .. n-1 the
    0/255 channels the dataset builds from it exist, and their
    segmentation target is the mask itself. *)
Theorem class_channels_round_trip (n : nat) (mask : list (list Z)) :
  Forall (Forall (fun m => (0 <= m < Z.of_nat n)%Z)) mask ->
  exists a,
    class_channels n mask = Some a /\
    segmentation_target (map (map (map IZR)) a) = mask.
Proof.
  intro H.
  exists (map (map (fun m => map (fun k => if (m =? Z.of_nat k)%Z then 255%Z else 0%Z)
                                 (seq 1 (n - 1)))) mask).
  split.
  - unfold class_channels. apply each_map.
    apply (Forall_impl _ (P := Forall (fun m => (0 <= m < Z.of_nat n)%Z))); [|exact H].
    intros row Hrow. apply each_map.
    apply (Forall_impl _ (P := fun m => (0 <= m < Z.of_nat n)%Z)); [|exact Hrow].
    intros m Hm. now apply class_cell.
  - unfold segmentation_target.
    rewrite !map_map. rewrite <- (map_id mask) at 2.
    apply map_ext_in. intros row Hrow.
    rewrite !map_map. rewrite <- (map_id row) at 2.
    apply map_ext_in. intros m Hm.
    apply label_one_hot.
    rewrite Forall_forall in H. specialize (H row Hrow).
    rewrite Forall_forall in H. now apply H.
Qed.

Lemma class_channels_round_trip_witness :
  exists a,
    class_channels 4 [[0; 3]; [2; 1]]%Z = Some a /\
    segmentation_target (map (map (map IZR)) a) = [[0; 3]; [2; 1]]%Z.
Proof.
  apply (@class_channels_round_trip 4 [[0; 3]; [2; 1]]%Z).
  repeat constructor; lia.
Defined.

Lemma at_least_inverted (v : Z) :
  at_least (IZR (255 - v)) = if (v <=? 191)%Z then 1%Z else 0%Z.
Proof.
  unfold at_least. rewrite minus_IZR.
  destruct (Z.leb_spec v 191) as [L|L].
  - apply IZR_le in L. destruct (Rle_dec 0.25 ((255 - IZR v) / 255)) as [_|N]; [reflexivity|].
    exfalso. apply N. lra.
  - assert (L' : (192 <= v)%Z) by lia. apply IZR_le in L'.
    destruct (Rle_dec 0.25 ((255 - IZR v) / 255)) as [A|_]; [|reflexivity].
    exfalso. lra.
Qed.

(** X8: the value target of the inverted page marks the dark cells: a
    cell of the page counts as value exactly when its gray level is at
    most 191. *)
Theorem value_target_marks_dark_cells (orig : list (list Z)) :
  value_target (map (map (map IZR)) (inverted orig)) =
  map (map (fun v => if (v <=? 191)%Z then 1%Z else 0%Z)) orig.
Proof.
  unfold value_target, inverted. rewrite !map_map.
  apply map_ext. intro row. rewrite !map_map.
  apply map_ext. intro v. cbn [map hd]. apply at_least_inverted.
Qed.

End ChannelFacts.

(** ** What the constructors bind *)

Module InitFacts.

Import Rng.

Lemma grayscale_byte (img : list (list Z)) r c k :
  (0 <= Render.sample (Target.grayscale img) r c k <= 255)%Z.
Proof.
  unfold Render.sample, Target.grayscale.
  destruct (nth_in_or_default (Z.to_nat r)
              (map (map (fun v => [(v mod 256)%Z])) img) []) as [Hr|Hr];
    [|rewrite Hr; destruct (Z.to_nat c); destruct k; simpl; lia].
  apply in_map_iff in Hr. destruct Hr as (row & <- & _).
  destruct (nth_in_or_default (Z.to_nat c) (map (fun v => [(v mod 256)%Z]) row) [])
    as [Hc|Hc]; [|rewrite Hc; destruct k; simpl; lia].
  apply in_map_iff in Hc. destruct Hc as (v & <- & _).
  pose proof (Z.mod_pos_bound v 256 ltac:(lia)).
  destruct k as [|[|k]]; simpl; lia.
Qed.

Lemma inverted_byte (orig : list (list Z)) r c k :
  Forall (Forall (fun v => (0 <= v <= 255)%Z)) orig ->
  (0 <= Render.sample (Target.inverted orig) r c k <= 255)%Z.
Proof.
  intro H. unfold Render.sample, Target.inverted.
  destruct (nth_in_or_default (Z.to_nat r)
              (map (map (fun v => [(255 - v)%Z])) orig) []) as [Hr|Hr];
    [|rewrite Hr; destruct (Z.to_nat c); destruct k; simpl; lia].
  apply in_map_iff in Hr. destruct Hr as (row & <- & Hrow).
  destruct (nth_in_or_default (Z.to_nat c) (map (fun v => [(255 - v)%Z]) row) [])
    as [Hc|Hc]; [|rewrite Hc; destruct k; simpl; lia].
  apply in_map_iff in Hc. destruct Hc as (v & <- & Hv).
  rewrite Forall_forall in H. specialize (H row Hrow).
  rewrite Forall_forall in H. specialize (H v Hv). cbv beta in H.
  destruct k as [|[|k]]; cbn [nth]; lia.
Qed.

Lemma eye_row_exists (n : nat) (m : Z) :
  option_map (fun row => map (fun x => if (0 <? x)%Z then 255%Z else 0%Z) (tl row))
             (Target.eye_row n m) <> None <->
  (- Z.of_nat n <= m < Z.of_nat n)%Z.
Proof.
  unfold Target.eye_row.
  destruct (Z.leb_spec (- Z.of_nat n) m); destruct (Z.ltb_spec m (Z.of_nat n));
    cbn [andb option_map]; split; intro C; try lia; try discriminate; now exfalso.
Qed.

(** The class raster can be built exactly when every entry of the mask
    is an index of [np.eye(n)]. *)
Lemma class_channels_exist (n : nat) (mask : list (list Z)) :
  Target.class_channels n mask <> None <->
  Forall (Forall (fun m => (- Z.of_nat n <= m < Z.of_nat n)%Z)) mask.
Proof.
  unfold Target.class_channels.
  split; intro H.
  - apply TargetFacts.each_Some in H. revert H.
    apply Forall_impl. intros row Hrow.
    apply TargetFacts.each_Some in Hrow. revert Hrow.
    apply Forall_impl. intro m. apply eye_row_exists.
  - apply TargetFacts.each_Some. revert H.
    apply Forall_impl. intros row Hrow.
    apply TargetFacts.each_Some. revert Hrow.
    apply Forall_impl. intro m. apply eye_row_exists.
Qed.

(** X22: what [__init__] of [MultitaskPretrainingDataset] hands to the
    three views.  It ends without an [IndexError] exactly when every
    entry of the mask is an index of [np.eye(len(ORDER))], an integer of
    [-n, n).  The input view then gets a fill that is an integer of
    [0, 100) and a raster of bytes, whatever the noisy page holds; the
    class raster holds nothing but 0 and 255, the value raster bytes
    when the page does; and the three views render patches of the one
    view size. *)
Theorem init_binds_byte_rasters
    (noisy orig mask : list (list Z)) (n : nat) (fill : Render.Raster -> R)
    (view_size max_samples : nat) (threshold aligned unknown : Q) (g : rng) :
  valid g ->
  Forall (Forall (fun v => (0 <= v <= 255)%Z)) orig ->
  let res := fst (MultitaskPretrainingDataset.init noisy orig mask n fill view_size
                    max_samples threshold aligned unknown g) in
  (res <> None <->
   Forall (Forall (fun m => (- Z.of_nat n <= m < Z.of_nat n)%Z)) mask) /\
  (forall d, res = Some d ->
     (exists b, (0 <= b < 100)%Z /\
        Render.bias (MultitaskPretrainingDataset.view d) = IZR b) /\
     (Render.view_size (MultitaskPretrainingDataset.view d) = view_size /\
      Render.view_size (MultitaskPretrainingDataset.segmentation d) = view_size /\
      Render.view_size (MultitaskPretrainingDataset.value d) = view_size) /\
     (Render.raster (MultitaskPretrainingDataset.view d) = Target.grayscale noisy /\
      Target.class_channels n mask =
        Some (Render.raster (MultitaskPretrainingDataset.segmentation d)) /\
      Render.raster (MultitaskPretrainingDataset.value d) = Target.inverted orig) /\
     (forall r c k,
        (0 <= Render.sample (Render.raster (MultitaskPretrainingDataset.view d)) r c k
         <= 255)%Z /\
        (Render.sample (Render.raster (MultitaskPretrainingDataset.segmentation d)) r c k
         = 0%Z \/
         Render.sample (Render.raster (MultitaskPretrainingDataset.segmentation d)) r c k
         = 255%Z) /\
        (0 <= Render.sample (Render.raster (MultitaskPretrainingDataset.value d)) r c k
         <= 255)%Z)).
Proof.
  intros V Ho. cbv zeta.
  unfold MultitaskPretrainingDataset.init, bind, ret.
  pose proof (@RngFacts.randint_range 0 100 g V ltac:(lia)) as Hb.
  destruct (randint 0 100 g) as [b g1]. cbn [fst] in Hb.
  rewrite <- class_channels_exist.
  destruct (Target.class_channels n mask) as [a|] eqn:E; cbn [fst].
  - split; [split; intros _; discriminate|].
    intros d Hd. injection Hd as <-.
    cbn [MultitaskPretrainingDataset.view MultitaskPretrainingDataset.segmentation
         MultitaskPretrainingDataset.value Render.bias Render.raster Render.view_size].
    split; [exists b; split; [lia | reflexivity]|].
    split; [repeat split|]. split; [repeat split|].
    intros r c k. split; [apply grayscale_byte|].
    split; [now apply (TargetFacts.class_channels_binary n mask) | now apply inverted_byte].
  - split; [split; intro C; now exfalso|].
    intros d Hd. discriminate Hd.
Qed.

(** The dataset of the page with the dot is what [__init__] binds when
    the fill drawn is 30. *)
Lemma dot_multitask_init :
  fst (MultitaskPretrainingDataset.init Pages.dot_page Pages.dot_page Pages.dot_mask 2
         Pages.no_fill 2 8 0 0.2 0 (Pages.stream [0.3%Q])) = Some Pages.dot_multitask.
Proof. reflexivity. Qed.

Lemma init_binds_byte_rasters_witness :
  exists b, (0 <= b < 100)%Z /\
    Render.bias (MultitaskPretrainingDataset.view Pages.dot_multitask) = IZR b.
Proof.
  refine (proj1 (proj2 (@init_binds_byte_rasters Pages.dot_page Pages.dot_page
                          Pages.dot_mask 2 Pages.no_fill 2 8 0 0.2 0
                          (Pages.stream [0.3%Q]) _ _) _ dot_multitask_init)).
  - apply SamplingFacts.stream_valid. repeat constructor; intro C; discriminate C.
  - repeat constructor; lia.
Defined.

End InitFacts.

(** ** Where the centre of a viewport can be *)

Module CentreFacts.

Import Rng.
Local Open Scope Q_scope.

Lemma int_below (x : Q) (n : Z) :
  0 <= x -> x < inject_Z n -> (0 <= Num.int x < n)%Z.
Proof.
  intros H0 H1. rewrite (NumFacts.int_nonneg H0). split.
  - rewrite <- (Qfloor_Z 0). now apply Qfloor_resp_le.
  - rewrite Zlt_Qlt. eapply Qle_lt_trans; [apply Qfloor_le | exact H1].
Qed.

Lemma int_zero (x : Q) : x == 0 -> Num.int x = 0%Z.
Proof.
  intro E. rewrite (@NumFacts.int_nonneg x) by (rewrite E; apply Qle_refl).
  rewrite E. reflexivity.
Qed.

(** A coordinate of the centre: the page centre n/2 scaled by a factor
    of [lo, hi) with 0 <= lo and hi <= 2. *)
Lemma scaled_centre (n : Z) (f : Q) :
  (0 <= n)%Z -> 0 <= f -> f < 2 ->
  (0 <= Num.int (inject_Z n / 2 * f))%Z /\
  ((0 < n)%Z -> (Num.int (inject_Z n / 2 * f) < n)%Z).
Proof.
  intros Hn H0 H1. unfold Qdiv. change (/ 2) with (1 # 2).
  assert (A : inject_Z 0 <= inject_Z n) by (rewrite <- Zle_Qle; exact Hn).
  change (inject_Z 0) with 0 in A.
  assert (P : 0 <= inject_Z n * (1 # 2) * f).
  { apply Qmult_le_0_compat; [|exact H0]. lra. }
  split.
  - rewrite (NumFacts.int_nonneg P). rewrite <- (Qfloor_Z 0). now apply Qfloor_resp_le.
  - intro Hp. apply int_below; [exact P|].
    assert (B : inject_Z 0 < inject_Z n) by (rewrite <- Zlt_Qlt; exact Hp).
    change (inject_Z 0) with 0 in B.
    assert (C : inject_Z n * (1 # 2) * f < inject_Z n * (1 # 2) * 2).
    { apply Qmult_lt_l; [lra | exact H1]. }
    lra.
Qed.

Lemma height_nonneg (a : Render.Raster) : (0 <= Render.height a)%Z.
Proof. unfold Render.height. lia. Qed.

Lemma width_nonneg (a : Render.Raster) : (0 <= Render.width a)%Z.
Proof. unfold Render.width. lia. Qed.

(** X19: [SegmentationDataset.random_viewport] and
    [MultitaskPretrainingDataset.random_viewport] scale both
    coordinates of the page centre by one and the same variate.  With
    the page centre at (H/2, W/2) the centre they draw has a row of
    [0, H) and a column of [0, W) on every page that is not empty, and on
    a square page it lies on the diagonal: row and column are equal. *)
Theorem one_variate_places_the_centre
    (s : SegmentationDataset.t) (m : MultitaskPretrainingDataset.t) (g : rng) :
  valid g ->
  (let a := Render.raster (SegmentationDataset.view s) in
   let center := fst (fst (fst (SegmentationDataset.random_viewport s g))) in
   (0 <= fst center)%Z /\ (0 <= snd center)%Z /\
   ((0 < Render.height a)%Z -> (fst center < Render.height a)%Z) /\
   ((0 < Render.width a)%Z -> (snd center < Render.width a)%Z) /\
   (Render.height a = Render.width a -> fst center = snd center)) /\
  (let a := Render.raster (MultitaskPretrainingDataset.view m) in
   let center := fst (fst (fst (MultitaskPretrainingDataset.random_viewport m g))) in
   (0 <= fst center)%Z /\ (0 <= snd center)%Z /\
   ((0 < Render.height a)%Z -> (fst center < Render.height a)%Z) /\
   ((0 < Render.width a)%Z -> (snd center < Render.width a)%Z) /\
   (Render.height a = Render.width a -> fst center = snd center)).
Proof.
  intro V. destruct (V 0%nat) as [U0 U1]. split; cbv zeta.
  - rewrite SegmentationFacts.segmentation_random_viewport_eq.
    unfold SegmentationDataset.viewport_of, Render.space_center. cbn [fst snd].
    assert (F0 : 0 <= 0.1 + g 0%nat * 1.8) by lra.
    assert (F1 : 0.1 + g 0%nat * 1.8 < 2) by lra.
    destruct (scaled_centre (height_nonneg (Render.raster (SegmentationDataset.view s)))
                F0 F1) as [A B].
    destruct (scaled_centre (width_nonneg (Render.raster (SegmentationDataset.view s)))
                F0 F1) as [C D].
    repeat split; try assumption. intros ->. reflexivity.
  - rewrite MultitaskFacts.multitask_random_viewport_eq.
    unfold MultitaskPretrainingDataset.viewport_of, Render.space_center. cbn [fst snd].
    assert (F0 : 0 <= 0.25 + g 0%nat * 1.5) by lra.
    assert (F1 : 0.25 + g 0%nat * 1.5 < 2) by lra.
    destruct (scaled_centre
                (height_nonneg (Render.raster (MultitaskPretrainingDataset.view m)))
                F0 F1) as [A B].
    destruct (scaled_centre
                (width_nonneg (Render.raster (MultitaskPretrainingDataset.view m)))
                F0 F1) as [C D].
    repeat split; try assumption. intros ->. reflexivity.
Qed.

Lemma quarter_centre (n : Z) (f : Q) :
  (0 <= n)%Z -> 0.25 <= f -> f <= 0.75 ->
  (n - 8 < 8 * Num.int (inject_Z n / 2 * f))%Z /\
  (8 * Num.int (inject_Z n / 2 * f) <= 3 * n)%Z.
Proof.
  intros Hn H0 H1. unfold Qdiv. change (/ 2) with (1 # 2).
  assert (A : inject_Z 0 <= inject_Z n) by (rewrite <- Zle_Qle; exact Hn).
  change (inject_Z 0) with 0 in A.
  assert (P : 0 <= inject_Z n * (1 # 2) * f).
  { apply Qmult_le_0_compat; lra. }
  rewrite (NumFacts.int_nonneg P).
  pose proof (Qfloor_le (inject_Z n * (1 # 2) * f)) as FL.
  pose proof (Qlt_floor (inject_Z n * (1 # 2) * f)) as FU.
  rewrite inject_Z_plus in FU. change (inject_Z 1) with 1 in FU.
  assert (L : inject_Z n * (1 # 2) * 0.25 <= inject_Z n * (1 # 2) * f).
  { assert (T : 0 <= inject_Z n * (f - 0.25)) by (apply Qmult_le_0_compat; lra). lra. }
  assert (U : inject_Z n * (1 # 2) * f <= inject_Z n * (1 # 2) * 0.75).
  { assert (T : 0 <= inject_Z n * (0.75 - f)) by (apply Qmult_le_0_compat; lra). lra. }
  split.
  - replace (n - 8)%Z with (n + -8)%Z by lia.
    rewrite Zlt_Qlt, inject_Z_mult, inject_Z_plus.
    change (inject_Z 8) with 8. change (inject_Z (-8)) with (-8). lra.
  - rewrite Zle_Qle, !inject_Z_mult.
    change (inject_Z 8) with 8. change (inject_Z 3) with 3. lra.
Qed.

(** X20: [RotationDataset] scales the two coordinates of the page
    centre by two variates of its own, each by a factor of
    [0.25, 0.75].  With the page centre at (H/2, W/2) the centre of every
    viewport it draws lies between one and three eighths of the page:
    H/8 - 1 < row <= 3H/8 and W/8 - 1 < column <= 3W/8, short of the
    middle of the page. *)
Theorem rotation_centre_stays_in_first_quadrant (d : RotationDataset.t) (g : rng) :
  valid g ->
  let a := Render.raster (RotationDataset.nav d) in
  let center := fst (fst (fst (RotationDataset.random_viewport d g))) in
  (Render.height a - 8 < 8 * fst center)%Z /\
  (Render.width a - 8 < 8 * snd center)%Z /\
  (8 * fst center <= 3 * Render.height a)%Z /\
  (8 * snd center <= 3 * Render.width a)%Z.
Proof.
  intro V. destruct (V 1%nat) as [U0 U1]. destruct (V 2%nat) as [W0 W1]. cbv zeta.
  rewrite RotationFacts.rotation_random_viewport_eq.
  unfold RotationDataset.viewport_of, Render.space_center. cbn [fst snd].
  assert (F0 : 0.25 <= 0.25 + g 1%nat * 0.5) by lra.
  assert (F1 : 0.25 + g 1%nat * 0.5 <= 0.75) by lra.
  assert (G0 : 0.25 <= 0.25 + g 2%nat * 0.5) by lra.
  assert (G1 : 0.25 + g 2%nat * 0.5 <= 0.75) by lra.
  destruct (quarter_centre (height_nonneg (Render.raster (RotationDataset.nav d))) F0 F1)
    as [A B].
  destruct (quarter_centre (width_nonneg (Render.raster (RotationDataset.nav d))) G0 G1)
    as [C D].
  repeat split; assumption.
Qed.

Lemma plain_stream_valid : valid (Pages.stream []).
Proof. apply SamplingFacts.stream_valid. constructor. Qed.

Lemma one_variate_places_the_centre_witness :
  fst (fst (fst (fst (SegmentationDataset.random_viewport Pages.dot_segmentation
                        (Pages.stream []))))) =
  snd (fst (fst (fst (SegmentationDataset.random_viewport Pages.dot_segmentation
                        (Pages.stream []))))) /\
  fst (fst (fst (fst (MultitaskPretrainingDataset.random_viewport Pages.dot_multitask
                        (Pages.stream []))))) =
  snd (fst (fst (fst (MultitaskPretrainingDataset.random_viewport Pages.dot_multitask
                        (Pages.stream []))))).
Proof.
  destruct (@one_variate_places_the_centre Pages.dot_segmentation Pages.dot_multitask
              (Pages.stream []) plain_stream_valid)
    as [(_ & _ & _ & _ & A) (_ & _ & _ & _ & B)].
  split; [apply A | apply B]; reflexivity.
Defined.

Lemma rotation_centre_stays_in_first_quadrant_witness :
  (8 * fst (fst (fst (fst (RotationDataset.random_viewport Pages.dot_rotation
                             (Pages.stream []))))) <= 3 * 4)%Z.
Proof.
  destruct (@rotation_centre_stays_in_first_quadrant Pages.dot_rotation
              (Pages.stream []) plain_stream_valid) as (_ & _ & A & _).
  exact A.
Defined.

End CentreFacts.

(** ** The training and the test part *)

Module SplitFacts.

Import Rng Split.

Section Samples.

Variable A : Type.
Variable eq_dec : forall x y : A, {x = y} + {x <> y}.

Lemma middle_entry (d : A) : forall (l : list A) j,
  (j < length l)%nat -> l = firstn j l ++ nth j l d :: skipn (S j) l.
Proof.
  induction l as [|x t IH]; intros j H; [simpl in H; lia|].
  destruct j as [|j]; [reflexivity|].
  cbn [firstn nth skipn app]. f_equal. apply IH. simpl in H. lia.
Qed.

Lemma choice_distinct_step k (x0 : A) (t : list A) g :
  choice_distinct (S k) (x0 :: t) g =
  let j := Z.to_nat (fst (randint 0 (Z.of_nat (length (x0 :: t))) g)) in
  let r := choice_distinct k (firstn j (x0 :: t) ++ skipn (S j) (x0 :: t)) (advance g) in
  (nth j (x0 :: t) x0 :: fst r, snd r).
Proof.
  cbn [choice_distinct]. unfold bind, randint, ret. cbn [fst].
  destruct (choice_distinct k _ (advance g)) as [rest g1]. reflexivity.
Qed.

(** The entries drawn sit at distinct positions of the pool. *)
Lemma choice_distinct_part k : forall (pool : list A) g,
  valid g -> (k <= length pool)%nat ->
  exists rest,
    Permutation pool (fst (choice_distinct k pool g) ++ rest) /\
    length (fst (choice_distinct k pool g)) = k.
Proof.
  induction k as [|k IH]; intros pool g V Hk.
  - exists pool. split; [apply Permutation_refl | reflexivity].
  - destruct pool as [|x0 t]; [simpl in Hk; lia|].
    rewrite choice_distinct_step. cbv zeta.
    set (j := Z.to_nat (fst (randint 0 (Z.of_nat (length (x0 :: t))) g))).
    assert (Hj : (j < length (x0 :: t))%nat).
    { pose proof (@RngFacts.randint_range 0 (Z.of_nat (length (x0 :: t))) g V
                    ltac:(simpl; lia)) as R.
      unfold j. lia. }
    set (pool' := firstn j (x0 :: t) ++ skipn (S j) (x0 :: t)).
    assert (Hlen : length pool' = length t).
    { unfold pool'. rewrite length_app, length_firstn, length_skipn.
      simpl length in *. lia. }
    destruct (IH pool' (advance g) (RngFacts.valid_advance V) ltac:(simpl in Hk; lia))
      as (rest & P & L).
    exists rest. cbn [fst]. split.
    + rewrite (middle_entry x0 (x0 :: t) Hj) at 1.
      apply Permutation_sym. cbn [app].
      apply Permutation_cons_app. apply Permutation_sym. exact P.
    + simpl. now rewrite L.
Qed.

Lemma train_size_eq (samples : list A) :
  train_size samples = (length samples * 19 / 20)%nat.
Proof.
  unfold train_size. set (n := length samples).
  rewrite NumFacts.int_nonneg.
  - unfold Qfloor, Qmult, inject_Z. cbn [Qnum Qden].
    change (Z.pos (1 * 100)) with 100%Z.
    apply Nat2Z.inj. rewrite Z2Nat.id by (apply Z.div_pos; lia).
    rewrite Nat2Z.inj_div, Nat2Z.inj_mul. change (Z.of_nat 19) with 19%Z.
    change (Z.of_nat 20) with 20%Z.
    pose proof (Z.div_mod (Z.of_nat n * 95) 100 ltac:(lia)).
    pose proof (Z.mod_pos_bound (Z.of_nat n * 95) 100 ltac:(lia)).
    pose proof (Z.div_mod (Z.of_nat n * 19) 20 ltac:(lia)).
    pose proof (Z.mod_pos_bound (Z.of_nat n * 19) 20 ltac:(lia)).
    lia.
  - apply Qmult_le_0_compat; [|intro C; discriminate C].
    change 0%Q with (inject_Z 0). rewrite <- Zle_Qle. lia.
Qed.

Lemma train_size_below (samples : list A) :
  (train_size samples <= length samples)%nat /\
  (samples <> [] -> (train_size samples < length samples)%nat).
Proof.
  rewrite train_size_eq. set (n := length samples).
  assert (H : (n * 19 / 20 <= n)%nat).
  { apply Nat.Div0.div_le_upper_bound. lia. }
  split; [exact H|]. intro Hne.
  assert (Hn : (0 < n)%nat) by (unfold n; destruct samples; [congruence | simpl; lia]).
  apply Nat.Div0.div_lt_upper_bound. lia.
Qed.

Lemma difference_In (l1 l2 : list A) x :
  In x (difference eq_dec l1 l2) <-> In x l1 /\ ~ In x l2.
Proof.
  unfold difference. rewrite filter_In, nodup_In.
  destruct (in_dec eq_dec x l2); intuition congruence.
Qed.

Lemma difference_NoDup (l1 l2 : list A) : NoDup (difference eq_dec l1 l2).
Proof. unfold difference. apply NoDup_filter. apply NoDup_nodup. Qed.

Lemma train_test_split_eq (samples : list A) g :
  fst (train_test_split eq_dec samples g) =
  (fst (choice_distinct (train_size samples) samples g),
   difference eq_dec samples (fst (choice_distinct (train_size samples) samples g))).
Proof.
  unfold train_test_split, bind, ret.
  destruct (choice_distinct _ samples g) as [tr g1]. reflexivity.
Qed.

(** X9: the training part is taken at distinct positions of the sample
    list: it can be completed to a rearrangement of the whole list, it
    holds [int(0.95 n)], that is the whole part of 19 n / 20, of the n
    samples, and so it always leaves at least one sample out of a list
    that is not empty. *)
Theorem train_samples_are_a_part (samples : list A) (g : rng) :
  valid g ->
  let train_samples := fst (fst (train_test_split eq_dec samples g)) in
  (exists rest, Permutation samples (train_samples ++ rest)) /\
  length train_samples = (length samples * 19 / 20)%nat /\
  (samples <> [] -> (length train_samples < length samples)%nat).
Proof.
  intros V. cbv zeta. rewrite train_test_split_eq. cbn [fst].
  destruct (@choice_distinct_part (train_size samples) samples g V
              (proj1 (train_size_below samples))) as (rest & P & L).
  split; [exists rest; exact P|]. rewrite L. split; [apply train_size_eq|].
  apply train_size_below.
Qed.

(** X10: the test part is what the training part leaves: it repeats no
    sample, it holds exactly the samples that are not in the training
    part, so the two parts share nothing and no sample is lost; and when
    the sample list repeats nothing, the sizes of the two parts add up
    to its length and the test part of a list that is not empty is not
    empty. *)
Theorem test_samples_are_the_rest (samples : list A) (g : rng) :
  valid g ->
  let train_samples := fst (fst (train_test_split eq_dec samples g)) in
  let test_samples := snd (fst (train_test_split eq_dec samples g)) in
  NoDup test_samples /\
  (forall x, In x test_samples <-> In x samples /\ ~ In x train_samples) /\
  (forall x, In x train_samples -> In x samples) /\
  (NoDup samples ->
   (length train_samples + length test_samples = length samples)%nat /\
   (samples <> [] -> test_samples <> [])).
Proof.
  intros V. cbv zeta. rewrite train_test_split_eq. cbn [fst snd].
  destruct (@choice_distinct_part (train_size samples) samples g V
              (proj1 (train_size_below samples))) as (rest & P & L).
  set (tr := fst (choice_distinct (train_size samples) samples g)) in *.
  split; [apply difference_NoDup|]. split; [intro x; apply difference_In|].
  split.
  { intros x Hx. apply (Permutation_in x (Permutation_sym P)).
    apply in_or_app. now left. }
  intro ND.
  assert (ND' : NoDup (tr ++ rest)) by (eapply Permutation_NoDup; eassumption).
  assert (PR : Permutation (difference eq_dec samples tr) rest).
  { apply NoDup_Permutation.
    - apply difference_NoDup.
    - apply NoDup_app_remove_l in ND'. exact ND'.
    - intro x. rewrite difference_In. split.
      + intros [Hs Hn]. apply (Permutation_in x P) in Hs.
        apply in_app_or in Hs. tauto.
      + intro Hr. split.
        * apply (Permutation_in x (Permutation_sym P)). apply in_or_app. now right.
        * intro Ht. revert x Ht Hr. clear -ND'.
          induction tr as [|y t IH]; intros x Ht Hr; [contradiction|].
          cbn [app] in ND'. inversion ND' as [|? ? Hy Hrest]; subst.
          destruct Ht as [->|Ht].
          -- apply Hy. apply in_or_app. now right.
          -- exact (IH Hrest x Ht Hr). }
  assert (E : (length tr + length (difference eq_dec samples tr) = length samples)%nat).
  { rewrite (Permutation_length PR), (Permutation_length P), length_app. reflexivity. }
  split; [exact E|]. intros Hne Hempty.
  rewrite Hempty in E. simpl in E.
  pose proof (proj2 (train_size_below samples) Hne). lia.
Qed.

End Samples.

Lemma three_pages_valid : valid (Pages.stream [0.5%Q; 0.5%Q]).
Proof. apply SamplingFacts.stream_valid. repeat constructor; intro C; discriminate C. Qed.

Lemma train_samples_are_a_part_witness :
  (exists rest,
     Permutation [1; 2; 3]%Z
       (fst (fst (train_test_split Z.eq_dec [1; 2; 3]%Z (Pages.stream [0.5%Q; 0.5%Q])))
        ++ rest)) /\
  length (fst (fst (train_test_split Z.eq_dec [1; 2; 3]%Z (Pages.stream [0.5%Q; 0.5%Q]))))
  = (length [1; 2; 3]%Z * 19 / 20)%nat /\
  ([1; 2; 3]%Z <> [] ->
   (length (fst (fst (train_test_split Z.eq_dec [1; 2; 3]%Z
                        (Pages.stream [0.5%Q; 0.5%Q]))))
    < length [1; 2; 3]%Z)%nat).
Proof.
  apply (@train_samples_are_a_part Z Z.eq_dec [1; 2; 3]%Z (Pages.stream [0.5%Q; 0.5%Q])).
  exact three_pages_valid.
Defined.

Lemma test_samples_are_the_rest_witness :
  NoDup (snd (fst (train_test_split Z.eq_dec [1; 2; 3]%Z (Pages.stream [0.5%Q; 0.5%Q]))))
  /\
  snd (fst (train_test_split Z.eq_dec [1; 2; 3]%Z (Pages.stream [0.5%Q; 0.5%Q]))) <> [].
Proof.
  destruct (@test_samples_are_the_rest Z Z.eq_dec [1; 2; 3]%Z
              (Pages.stream [0.5%Q; 0.5%Q]) three_pages_valid) as (A & _ & _ & B).
  split; [exact A|].
  destruct B as [_ B].
  - repeat constructor; simpl; intuition lia.
  - apply B. discriminate.
Defined.

End SplitFacts.

(** ** The transformer encoder and decoder *)

Module TransformerFacts.

Import Transformer.
Local Open Scope nat_scope.
Local Open Scope result_scope.

Section Layers.

Variable View : Type.
Variable Tokens : Type.
Variable Embedding : Type.
Variable add : Tokens -> Tokens -> Tokens.
Variable cat : Tokens -> Tokens -> Tokens.

Lemma pop_last (l : list Tokens) x : pop (l ++ [x]) = Ok (x, l).
Proof. unfold pop. rewrite rev_app_distr. cbn [rev app]. now rewrite rev_involutive. Qed.

Lemma pop_nil : pop (@nil Tokens) = Raise IndexError.
Proof. reflexivity. Qed.

Lemma last_entry (l : list Tokens) :
  l <> [] -> exists init x, l = init ++ [x].
Proof. intro H. destruct (exists_last H) as (init & x & E). now exists init, x. Qed.

Lemma last_default (l : list Tokens) d d' : l <> [] -> last l d = last l d'.
Proof.
  induction l as [|a t IH]; intro H; [congruence|].
  destruct t as [|b t]; [reflexivity|].
  cbn [last] in *. apply IH. discriminate.
Qed.

(** A block that is handed a pass-through never raises. *)
Lemma block_forward_bridged (b : TransformerBlock Tokens) x p :
  exists y, block_forward add cat b x (Some p) = Ok y.
Proof. unfold block_forward. destruct (merge b); eexists; reflexivity. Qed.

(** A block without bridge does not look at the pass-through. *)
Lemma block_forward_plain (l : Layers Tokens) x p :
  block_forward add cat (new_block false l) x p =
  Ok (add (add x (attention l x)) (perceptron l (add x (attention l x)))).
Proof. reflexivity. Qed.

Lemma down_plain (layers : nat -> Layers Tokens) n : forall s x acc,
  exists x' ys,
    down add cat (map (fun i => new_block false (layers i)) (seq s n)) x acc =
      Ok (x', acc ++ ys) /\
    length ys = n /\
    x' = last ys x /\
    forall i, (i < n)%nat ->
      block_forward add cat (new_block false (layers (s + i))) (nth i (x :: ys) x) None =
      Ok (nth i ys x).
Proof.
  induction n as [|n IH]; intros s x acc.
  - exists x, []. cbn [seq map down]. rewrite app_nil_r.
    repeat split. intros i Hi. lia.
  - cbn [seq map down]. rewrite block_forward_plain. cbn [bind].
    remember (add (add x (attention (layers s) x))
                  (perceptron (layers s) (add x (attention (layers s) x)))) as y eqn:Ey.
    destruct (IH (S s) y (acc ++ [y])) as (x' & ys & E & L & Hl & Hc).
    exists x', (y :: ys). rewrite E, <- app_assoc. cbn [app length].
    split; [reflexivity|]. split; [now rewrite L|]. split.
    + rewrite Hl. destruct ys as [|t ys]; [reflexivity|].
      change (last (t :: ys) y = last (t :: ys) x). apply last_default. discriminate.
    + intros [|i] Hi.
      * rewrite Nat.add_0_r. cbn [nth]. rewrite Ey. apply block_forward_plain.
      * specialize (Hc i ltac:(lia)). rewrite Nat.add_succ_r.
        cbn [Nat.add] in Hc.
        change (nth (S i) (x :: y :: ys) x) with (nth i (y :: ys) x).
        change (nth (S i) (y :: ys) x) with (nth i ys x).
        rewrite (nth_indep (y :: ys) x y) by (simpl; lia).
        rewrite (nth_indep ys x y) by lia. exact Hc.
Qed.

(** X11: a [TransformerEncoder] of depth n never raises and returns n
    outputs, one per block: the first is block 0 applied to the patch
    sequence of the view, every further one the next block applied to
    the output before it. *)
Theorem encoder_returns_every_level
    (sequence : View -> Tokens) (layers : nat -> Layers Tokens) (n : nat) (x : View) :
  exists outputs,
    encoder_forward add cat (new_encoder sequence layers n) x = Ok outputs /\
    length outputs = n /\
    forall i, (i < n)%nat ->
      block_forward add cat (new_block false (layers i))
        (nth i (sequence x :: outputs) (sequence x)) None =
      Ok (nth i outputs (sequence x)).
Proof.
  destruct (down_plain layers n 0 (sequence x) []) as (x' & ys & E & L & _ & Hc).
  exists ys. unfold encoder_forward, new_encoder.
  cbn [encoder_blocks Transformer.sequence]. rewrite E. cbn [bind app].
  split; [reflexivity|]. split; [exact L|]. exact Hc.
Qed.

Lemma up_consumes (blocks : list (TransformerBlock Tokens)) : forall x outputs,
  length outputs = length blocks ->
  exists y, up add cat blocks x outputs = Ok (y, []).
Proof.
  induction blocks as [|b bs IH]; intros x outputs H.
  - destruct outputs; [|discriminate H]. eexists. reflexivity.
  - destruct (@last_entry outputs) as (init & p & ->).
    { intro C. subst outputs. discriminate H. }
    cbn [up]. rewrite pop_last. cbn [bind].
    destruct (block_forward_bridged b x p) as (y & ->). cbn [bind].
    apply IH. rewrite length_app in H. simpl in H. lia.
Qed.

Lemma decoder_forward_fits (d : TransformerDecoder View Tokens) (outputs : list Tokens) :
  length outputs = length (decoder_blocks d) + 1 ->
  exists y, decoder_forward add cat d outputs = Ok (y, []).
Proof.
  intro H. unfold decoder_forward. rewrite (proj2 (Nat.eqb_eq _ _) H).
  destruct (@last_entry outputs) as (init & x & ->).
  { intro C. subst outputs. simpl in H. lia. }
  rewrite pop_last. cbn [bind].
  destruct (@up_consumes (decoder_blocks d) x init) as (y & ->).
  { rewrite length_app in H. simpl in H. lia. }
  cbn [bind]. eexists. reflexivity.
Qed.

(** X12: [TransformerDecoder.forward] takes a list of exactly one entry
    more than it has blocks and uses it up.  On such a list it never
    raises, whatever its blocks, and the caller's list is empty
    afterwards; on a list of any other length it raises the
    [AssertionError]; so it does on the list a first call has left
    behind. *)
Theorem decoder_uses_up_the_outputs
    (d : TransformerDecoder View Tokens) (outputs : list Tokens) :
  (length outputs = length (decoder_blocks d) + 1 ->
   exists y, decoder_forward add cat d outputs = Ok (y, [])) /\
  (length outputs <> length (decoder_blocks d) + 1 ->
   decoder_forward add cat d outputs = Raise AssertionError) /\
  (forall y rest,
     decoder_forward add cat d outputs = Ok (y, rest) ->
     decoder_forward add cat d rest = Raise AssertionError).
Proof.
  pose proof (@decoder_forward_fits d outputs) as A.
  assert (B : forall l, length l <> length (decoder_blocks d) + 1 ->
              decoder_forward add cat d l = Raise AssertionError).
  { intros l H. unfold decoder_forward. now rewrite (proj2 (Nat.eqb_neq _ _) H). }
  split; [exact A|]. split; [apply B|].
  intros y rest H.
  destruct (Nat.eq_dec (length outputs) (length (decoder_blocks d) + 1)) as [E|E].
  - destruct (A E) as (y' & H'). rewrite H' in H. inversion H; subst.
    apply B. simpl. lia.
  - rewrite (B _ E) in H. discriminate H.
Qed.

Lemma decoder_forward_snoc (d : TransformerDecoder View Tokens) init x :
  length init = length (decoder_blocks d) ->
  decoder_forward add cat d (init ++ [x]) =
  (' (y, rest) <- up add cat (decoder_blocks d) x init ;; Ok (unpatch d y, rest)).
Proof.
  intro H. unfold decoder_forward.
  rewrite (proj2 (Nat.eqb_eq _ _)) by (rewrite length_app; simpl; lia).
  rewrite pop_last. reflexivity.
Qed.

(** X13: the decoder walks the encoder's outputs from the last one
    back.  Its first block is handed the last output, the bottleneck,
    as [x] and the output before it as the pass-through, and the rest
    of the decoder then runs on the list in which the block's result
    has taken the place of these two. *)
Theorem decoder_walks_back
    (block : TransformerBlock Tokens) (blocks : list (TransformerBlock Tokens))
    (unpatch : Tokens -> View) (outputs : list Tokens) (p x : Tokens) :
  decoder_forward add cat (mkDecoder (block :: blocks) unpatch) (outputs ++ [p; x]) =
  (y <- block_forward add cat block x (Some p) ;;
   decoder_forward add cat (mkDecoder blocks unpatch) (outputs ++ [y])).
Proof.
  destruct (block_forward_bridged block x p) as (y & Ey). rewrite Ey. cbn [bind].
  unfold decoder_forward. cbn [decoder_blocks Transformer.unpatch].
  rewrite !length_app. cbn [length].
  destruct (Nat.eq_dec (length outputs) (length blocks)) as [E|E].
  - rewrite !(proj2 (Nat.eqb_eq _ _)) by lia.
    replace (outputs ++ [p; x]) with ((outputs ++ [p]) ++ [x])
      by (now rewrite <- app_assoc).
    rewrite !pop_last. cbn [bind up]. rewrite pop_last. cbn [bind].
    rewrite Ey. reflexivity.
  - rewrite !(proj2 (Nat.eqb_neq _ _)) by lia. reflexivity.
Qed.

Lemma up_plain (layers : nat -> Layers Tokens) n : forall s x (outs outs' : list Tokens),
  length outs = n -> length outs' = n ->
  up add cat (map (fun i => new_block false (layers i)) (seq s n)) x outs =
  up add cat (map (fun i => new_block false (layers i)) (seq s n)) x outs'.
Proof.
  induction n as [|n IH]; intros s x outs outs' H H'.
  - destruct outs; [|discriminate H]. destruct outs'; [|discriminate H']. reflexivity.
  - destruct (@last_entry outs) as (init & p & ->).
    { intro C. subst outs. discriminate H. }
    destruct (@last_entry outs') as (init' & p' & ->).
    { intro C. subst outs'. discriminate H'. }
    cbn [seq map up]. rewrite !pop_last. cbn [bind].
    rewrite !block_forward_plain. cbn [bind].
    rewrite length_app in H, H'. simpl in H, H'.
    apply IH; lia.
Qed.

(** X14: a decoder built without bridge reads nothing but the
    bottleneck: on two lists of the same length that end with the same
    entry it returns the same, whatever the entries before the last. *)
Theorem unbridged_decoder_reads_the_bottleneck
    (unpatch : Tokens -> View) (layers : nat -> Layers Tokens) (n : nat)
    (skips skips' : list Tokens) (x : Tokens) :
  length skips = length skips' ->
  decoder_forward add cat (new_decoder unpatch layers n false) (skips ++ [x]) =
  decoder_forward add cat (new_decoder unpatch layers n false) (skips' ++ [x]).
Proof.
  intro H.
  assert (Ln : length (decoder_blocks (new_decoder unpatch layers n false)) = n).
  { unfold new_decoder. cbn [decoder_blocks]. now rewrite length_map, length_seq. }
  destruct (Nat.eq_dec (length skips) n) as [E|E].
  - rewrite !decoder_forward_snoc by (rewrite Ln; lia).
    unfold new_decoder. cbn [decoder_blocks].
    rewrite (@up_plain layers n 0 x skips skips') by lia. reflexivity.
  - unfold decoder_forward. rewrite Ln, !length_app. cbn [length].
    rewrite !(proj2 (Nat.eqb_neq _ _)) by lia. reflexivity.
Qed.

Lemma encoder_forward_last
    (sequence : View -> Tokens) (layers : nat -> Layers Tokens) (n : nat) (x : View) :
  exists outs b,
    encoder_forward add cat (new_encoder sequence layers (S n)) x = Ok (outs ++ [b]) /\
    length outs = n.
Proof.
  destruct (down_plain layers (S n) 0 (sequence x) []) as (x' & ys & E & L & _ & _).
  destruct (@last_entry ys) as (outs & b & ->).
  { intro C. subst ys. discriminate L. }
  exists outs, b. unfold encoder_forward, new_encoder.
  cbn [encoder_blocks Transformer.sequence]. rewrite E. cbn [bind app].
  split; [reflexivity|]. rewrite length_app in L. simpl in L. lia.
Qed.

(** X15: a [UNet] is built with one decoder block less than its encoder
    has blocks, and so its decoder's length check never fails on an
    encoder of depth 1 or more, whatever the view and with or without
    bridge; the [VisualEncoder] over such an encoder returns the reduced
    bottleneck.  Over an encoder of depth 0 the [UNet] raises the
    decoder's [AssertionError] and the [VisualEncoder] an [IndexError]. *)
Theorem unet_decoder_matches_encoder
    (sequence : View -> Tokens) (layers layers' : nat -> Layers Tokens)
    (unpatch : Tokens -> View) (softmax : View -> View) (bridge : bool)
    (reduce : Tokens -> Embedding) (squeeze : Embedding -> Embedding)
    (n : nat) (x : View) :
  (exists y,
     unet_forward add cat
       (new_unet (new_encoder sequence layers (S n)) unpatch layers' softmax bridge) x
     = Ok y) /\
  (exists outs b,
     encoder_forward add cat (new_encoder sequence layers (S n)) x = Ok (outs ++ [b]) /\
     visual_forward add cat (new_encoder sequence layers (S n)) reduce squeeze x =
     Ok (squeeze (reduce b))) /\
  unet_forward add cat
    (new_unet (new_encoder sequence layers 0) unpatch layers' softmax bridge) x
  = Raise AssertionError /\
  visual_forward add cat (new_encoder sequence layers 0) reduce squeeze x =
  Raise IndexError.
Proof.
  destruct (encoder_forward_last sequence layers n x) as (outs & b & E & L).
  split; [|split; [|split]].
  - unfold unet_forward, new_unet.
    cbn [unet_encoder unet_decoder unet_softmax depth new_encoder].
    fold (new_encoder sequence layers (S n)). rewrite E. cbn [bind].
    destruct (@decoder_forward_fits
                (new_decoder unpatch layers' (S n - 1) bridge) (outs ++ [b]))
      as (y & Ey).
    { unfold new_decoder. cbn [decoder_blocks].
      rewrite length_map, length_seq, length_app. simpl. lia. }
    rewrite Ey. cbn [bind]. eexists. reflexivity.
  - exists outs, b. split; [exact E|].
    unfold visual_forward. rewrite E. cbn [bind]. rewrite pop_last. reflexivity.
  - reflexivity.
  - reflexivity.
Qed.

(** X16: in [MultitaskUNet] over a transformer encoder of depth 1 or
    more, with the two decoders of [get_vit_decoder] built without
    bridge, nothing is raised and every one of the four outputs is
    computed from the bottleneck alone: there are two functions of the
    bottleneck that give the segmentation and the value output, whatever
    the encoder and the view, and the alignment and the rotation head
    are applied to that same bottleneck. *)
Theorem multitask_heads_read_the_bottleneck
    (unpatch_s unpatch_v : Tokens -> View) (softmax_s softmax_v : View -> View)
    (layers_s layers_v : nat -> Layers Tokens)
    (alignment rotation : Tokens -> Embedding) (n : nat) :
  exists fs fv : Tokens -> View,
    forall (sequence : View -> Tokens) (layers : nat -> Layers Tokens) (x : View),
    exists outs b,
      encoder_forward add cat (new_encoder sequence layers (S n)) x = Ok (outs ++ [b]) /\
      multitask_forward
        (encoder_forward add cat (new_encoder sequence layers (S n)))
        (vit_decoder add cat (new_decoder unpatch_s layers_s n false) softmax_s)
        (vit_decoder add cat (new_decoder unpatch_v layers_v n false) softmax_v)
        alignment rotation x =
      Ok (fs b, fv b, alignment b, rotation b).
Proof.
  pose (run := fun (unpatch : Tokens -> View) (softmax : View -> View)
                   (ls : nat -> Layers Tokens) (b : Tokens) =>
    match up add cat (map (fun i => new_block false (ls i)) (seq 0 n)) b
             (repeat b n) with
    | Ok (y, _) => softmax (unpatch y)
    | Raise _ => softmax (unpatch b)
    end).
  exists (run unpatch_s softmax_s layers_s), (run unpatch_v softmax_v layers_v).
  intros sequence layers x.
  destruct (encoder_forward_last sequence layers n x) as (outs & b & E & L).
  exists outs, b. split; [exact E|].
  assert (D : forall unpatch softmax ls,
            vit_decoder add cat (new_decoder unpatch ls n false) softmax (outs ++ [b]) =
            Ok (run unpatch softmax ls b, [])).
  { intros unpatch softmax ls. unfold vit_decoder.
    assert (Ln : length (decoder_blocks (new_decoder unpatch ls n false)) = n).
    { unfold new_decoder. cbn [decoder_blocks]. now rewrite length_map, length_seq. }
    rewrite decoder_forward_snoc by (rewrite Ln; lia).
    unfold new_decoder. cbn [decoder_blocks Transformer.unpatch].
    rewrite (@up_plain ls n 0 b outs (repeat b n)) by (rewrite ?repeat_length; lia).
    unfold run.
    destruct (@up_consumes (map (fun i => new_block false (ls i)) (seq 0 n)) b
                (repeat b n)) as (y & Ey).
    { now rewrite repeat_length, length_map, length_seq. }
    rewrite Ey. reflexivity. }
  unfold multitask_forward. rewrite E. cbn [bind].
  unfold last_output. rewrite pop_last. cbn [bind].
  rewrite !D. reflexivity.
Qed.

End Layers.

Lemma decoder_uses_up_the_outputs_witness :
  exists y,
    decoder_forward Z.add Z.mul
      (new_decoder (fun t : Z => t) (fun _ => mkLayers Z.succ Z.opp Z.abs) 1 true)
      [5; 2]%Z = Ok (y, []).
Proof.
  destruct (@decoder_uses_up_the_outputs Z Z Z.add Z.mul
              (new_decoder (fun t : Z => t) (fun _ => mkLayers Z.succ Z.opp Z.abs) 1 true)
              [5; 2]%Z) as (A & _).
  apply A. reflexivity.
Defined.

Lemma unbridged_decoder_reads_the_bottleneck_witness :
  decoder_forward Z.add Z.mul
    (new_decoder (fun t : Z => t) (fun _ => mkLayers Z.succ Z.opp Z.abs) 1 false)
    ([5] ++ [2])%Z =
  decoder_forward Z.add Z.mul
    (new_decoder (fun t : Z => t) (fun _ => mkLayers Z.succ Z.opp Z.abs) 1 false)
    ([7] ++ [2])%Z.
Proof.
  apply (@unbridged_decoder_reads_the_bottleneck Z Z Z.add Z.mul (fun t : Z => t)
           (fun _ => mkLayers Z.succ Z.opp Z.abs) 1 [5]%Z [7]%Z 2%Z).
  reflexivity.
Defined.

End TransformerFacts.

(** ** The combined losses *)

Module LossFacts.

Import Loss.
Local Open Scope R_scope.

Section Criteria.

Variable Pred : Type.
Variable Target : Type.

Lemma uncertainty_at_zero loss : uncertainty 0 loss = weighted 1 loss.
Proof. unfold uncertainty, weighted. rewrite Ropp_0, exp_0. ring. Qed.

Lemma nth_error_repeat (x : R) n i : (i < n)%nat -> nth_error (repeat x n) i = Some x.
Proof.
  revert i. induction n as [|n IH]; intros i H; [lia|].
  destruct i as [|i]; [reflexivity|]. cbn [repeat nth_error]. apply IH. lia.
Qed.

Lemma losses_from_start (criteria : list (Pred -> Target -> R)) :
  forall i n (preds : list Pred) (targets : list Target),
  (i + length criteria <= n)%nat ->
  losses_from uncertainty i criteria (repeat 0 n) preds targets =
  losses_from weighted i criteria (repeat 1 n) preds targets.
Proof.
  induction criteria as [|c cs IH]; intros i n preds targets H; [reflexivity|].
  cbn [losses_from]. cbn [length] in H.
  rewrite !nth_error_repeat by lia.
  rewrite (IH (S i) n preds targets) by lia.
  destruct (nth_error preds i) as [p|]; [|reflexivity].
  destruct (nth_error targets i) as [t|]; [|reflexivity].
  now rewrite uncertainty_at_zero.
Qed.

(** X17: a [HydraLoss] as it is constructed, with all its [log_vars] at
    zero, is the plain sum of the task losses: on every predictions and
    targets its [forward] returns what a [CombinedLoss] of the same
    criteria with every weight 1 returns, and it raises where that one
    does. *)
Theorem hydra_starts_as_plain_sum
    (criteria : list (Pred -> Target -> R)) (preds : list Pred) (targets : list Target) :
  new_combined criteria (repeat 1 (length criteria)) =
    Some (mkCombined criteria (repeat 1 (length criteria))) /\
  hydra_forward (new_hydra criteria) preds targets =
  combined_forward (mkCombined criteria (repeat 1 (length criteria))) preds targets.
Proof.
  split.
  - unfold new_combined. now rewrite repeat_length, Nat.eqb_refl.
  - unfold hydra_forward, combined_forward, new_hydra.
    cbn [hydra_criteria log_vars combined_criteria weights].
    now rewrite losses_from_start by lia.
Qed.

End Criteria.

(** X18: what [log_vars] can do to one task's share of the
    [HydraLoss].  For a loss above zero the share
    [exp(-log_var) * loss + log_var] is never below 1 + ln(loss), and it
    is exactly that at log_var = ln(loss); for a loss of zero the share
    is [log_var] itself. *)
Theorem uncertainty_floor (log_var loss : R) :
  0 < loss ->
  1 + ln loss <= uncertainty log_var loss /\
  uncertainty (ln loss) loss = 1 + ln loss /\
  uncertainty log_var 0 = log_var.
Proof.
  intro H. unfold uncertainty. split; [|split].
  - rewrite <- (exp_ln loss H) at 2. rewrite <- exp_plus.
    pose proof (exp_ineq1_le (- log_var + ln loss)). lra.
  - rewrite exp_Ropp, (exp_ln loss H). field. lra.
  - ring.
Qed.

Lemma uncertainty_floor_witness :
  1 + ln 1 <= uncertainty 0 1 /\
  uncertainty (ln 1) 1 = 1 + ln 1 /\
  uncertainty 0 0 = 0.
Proof. apply (@uncertainty_floor 0 1). lra. Defined.

End LossFacts.

(** ** The list of page names *)

Module ListingFacts.

Import Ascii String Listing.
Local Open Scope string_scope.

Lemma split_not_nil sep s : split sep s <> [].
Proof.
  destruct s as [|c t]; cbn [split]; [discriminate|].
  destruct (Ascii.eqb c sep); [discriminate|].
  destruct (split sep t); discriminate.
Qed.

Lemma split_plain sep s : occurs sep s = false -> split sep s = [s].
Proof.
  induction s as [|c t IH]; intro H; [reflexivity|].
  cbn [occurs] in H. apply orb_false_iff in H. destruct H as [Hc Ht].
  cbn [split]. rewrite Hc, (IH Ht). reflexivity.
Qed.

Lemma split_directory sep dir name :
  occurs sep name = false ->
  exists h r, split sep (dir ++ String sep name) = (h :: r ++ [name])%list.
Proof.
  intro H. induction dir as [|c t IH].
  - cbn [append split]. rewrite Ascii.eqb_refl, (split_plain _ _ H).
    exists EmptyString, []. reflexivity.
  - destruct IH as (h & r & E). cbn [append split]. rewrite E.
    destruct (Ascii.eqb c sep).
    + exists EmptyString, (h :: r). reflexivity.
    + exists (String c h), r. reflexivity.
Qed.

Lemma file_name_of_path dir name :
  occurs "/" name = false -> file_name (dir ++ String "/" name) = name.
Proof.
  intro H. unfold file_name.
  destruct (@split_directory "/"%char dir name H) as (h & r & ->).
  change (h :: r ++ [name])%list with ((h :: r) ++ [name])%list. apply last_last.
Qed.

Lemma prefix_under_directory name :
  prefix "data/masks/que-" ("data/masks/" ++ name) = prefix "que-" name.
Proof. reflexivity. Qed.

(** X21: for the files of the mask directory, given by their paths
    "data/masks/<name>", the list of page names is the list of the file
    names themselves, in the order of the paths, without those that
    begin with "que-". *)
Theorem names_are_the_file_names (files : list string) :
  Forall (fun name => occurs "/" name = false) files ->
  names (map (fun name => "data/masks/" ++ name) files) =
  filter (fun name => negb (prefix "que-" name)) files.
Proof.
  intro H. unfold names. induction H as [|name files Hn _ IH]; [reflexivity|].
  cbn [map filter]. rewrite prefix_under_directory.
  destruct (prefix "que-" name); cbn [negb map]; [exact IH|].
  rewrite IH. f_equal.
  exact (@file_name_of_path "data/masks" name Hn).
Qed.

Lemma names_are_the_file_names_witness :
  names (map (fun name => "data/masks/" ++ name) ["a.png"; "que-b.png"; "c.png"]) =
  filter (fun name => negb (prefix "que-" name)) ["a.png"; "que-b.png"; "c.png"].
Proof.
  apply (@names_are_the_file_names ["a.png"; "que-b.png"; "c.png"]).
  repeat constructor.
Defined.

End ListingFacts.
